(** * Appointment scheduling and conflict detection of dern_backend

    A shallow embedding of the appointment routes
    ([checkTechnicianAvailability], the POST, PUT, PATCH .../cancel and DELETE
    handlers), of the appointment schema (models/appointment.js) and of the
    availability route of routes/technicians.js, followed by the properties
    the specification states about them.

    Conventions.
    - A JavaScript [Date] is its time value: milliseconds since the epoch,
      an integer ([Z]).  Date comparisons in JavaScript and in MongoDB compare
      these integers.
    - An ObjectId is a natural number; [toString()] comparisons of ids are
      comparisons of these numbers.
    - A collection is the list of its documents in insertion order; the
      [_id] index of MongoDB is modelled by [save] refusing a duplicate id.
    - A handler is a function from the store to a [Result] that holds the new
      store and the document sent back; a failure leaves the store as it was.
    - [new Date()] is an explicit argument [now].
    - JavaScript numbers that the routes handle (durations, cost, rating) are
      integers here. *)

From Stdlib Require Import ZArith List Bool String Ascii Lia DecimalString.
From Stdlib Require Import Permutation Sorted.
Import ListNotations.
Local Open Scope string_scope.
Local Open Scope Z_scope.

(** ** Time *)

Module Time.

Definition Date := Z.

Definition msPerMinute : Z := 1000 * 60.
Definition msPerHour : Z := 1000 * 60 * 60.
Definition msPerDay : Z := 24 * 60 * 60 * 1000.

(** [Date.prototype.getUTCHours]: floor(t / msPerHour) modulo 24. *)
Definition getUTCHours (t : Date) : Z := (t / msPerHour) mod 24.

(** [Date.prototype.getUTCMinutes]: floor(t / msPerMinute) modulo 60. *)
Definition getUTCMinutes (t : Date) : Z := (t / msPerMinute) mod 60.

(** [d.setUTCHours(h, m, s, ms)]: same UTC day, new time within the day. *)
Definition setUTCHours (t : Date) (h m s ms : Z) : Date :=
  (t / msPerDay) * msPerDay + h * msPerHour + m * msPerMinute + s * 1000 + ms.

(** [Math.round(n / d)] for an integer [n] and a positive integer [d]:
    the nearest integer, a tie going up, that is floor(n/d + 1/2).
    JavaScript divides in double precision; between two instants a few hours
    apart the quotient of milliseconds by 60000 is far too close to the
    exact one to fall on the other side of a half.  The two can differ only
    for differences beyond 2^53 ms, whose minutes are far above every bound
    of the schema either way. *)
Definition Math_round_div (n d : Z) : Z := (2 * n + d) / (2 * d).

End Time.
Import Time.

(** ** Data model *)

Definition ObjectId := nat.

Module Role.
Inductive t := customer | admin | technician.
Definition eqb (a b : t) : bool :=
  match a, b with
  | customer, customer | admin, admin | technician, technician => true
  | _, _ => false
  end.
End Role.

Module Availability.
Inductive t := available | busy | offline.
Definition eqb (a b : t) : bool :=
  match a, b with
  | available, available | busy, busy | offline, offline => true
  | _, _ => false
  end.
End Availability.

Module Status.
(** "scheduled", "in-progress", "completed", "canceled", "no-show" *)
Inductive t := scheduled | in_progress | completed | canceled | no_show.
Definition eqb (a b : t) : bool :=
  match a, b with
  | scheduled, scheduled | in_progress, in_progress | completed, completed
  | canceled, canceled | no_show, no_show => true
  | _, _ => false
  end.
(** [list.includes(s)] *)
Definition includes (l : list t) (s : t) : bool := existsb (eqb s) l.
End Status.

Module ServiceType.
Inductive t :=
  consultation | repair | installation | maintenance | troubleshooting | emergency.
End ServiceType.

Module Priority.
Inductive t := low | medium | high | urgent.
End Priority.

Module Location.
Record t := mk {
  address : string;
  city : string;
  state : string;
  zipCode : string;
  coordinates : option (Z * Z)
}.
End Location.

Module User.
(** The paths of the user schema that the scheduling code reads. *)
Record t := mk {
  _id : ObjectId;
  role : Role.t;
  isActive : bool;
  availability : Availability.t
}.
End User.

(** [req.user], as set by the authentication middleware. *)
Module ReqUser.
Record t := mk {
  userId : ObjectId;
  role : Role.t
}.
End ReqUser.

Module Appointment.
(** The paths of the appointment schema, and the two names [canceledAt] and
    [canceledBy] of the update document of the cancel handlers, which the
    schema does not declare: no route stores a value under them. *)
Record t := mk {
  _id : ObjectId;
  client : ObjectId;
  technician : ObjectId;
  startTime : Date;
  endTime : Date;
  status : Status.t;
  notes : option string;
  serviceType : ServiceType.t;
  priority : Priority.t;
  estimatedDuration : option Z;
  actualDuration : option Z;
  cost : option Z;
  location : option Location.t;
  cancellationReason : option string;
  completionNotes : option string;
  rating : option Z;
  feedback : option string;
  canceledAt : option Date;
  canceledBy : option ObjectId
}.

(** The virtual [duration]. *)
Definition duration (a : t) : Z :=
  Math_round_div (endTime a - startTime a) msPerMinute.
End Appointment.

(** ** Failures

    The handlers answer with a status code and a message; each constructor
    stands for one of these answers.
    - [ValidationError]: the 400 of [validateRequest], or the validation
      error that [save] raises;
    - [Forbidden]: the 403 of [authorize];
    - [NotFound]: 404 "Appointment not found";
    - [AccessDenied]: 403 "Access denied";
    - [ImmutableState]: 400 "Cannot modify completed or canceled appointments";
    - [StartTimeInPast]: 400 "Start time must be in the future";
    - [TechnicianNotFound]: "Technician not found or inactive" (404 in the
      availability route);
    - [TechnicianUnavailable]: "Technician is not available";
    - [SchedulingConflict s e]: "Technician has a conflicting appointment
      from s to e ...";
    - [AlreadyCanceled]: 400 "Appointment is already canceled";
    - [CancellationWindowExpired]: 400 "Appointments can only be canceled at
      least 24 hours in advance";
    - [DuplicateKey]: the insert of a document whose [_id] is taken. *)
Inductive Failure :=
| ValidationError
| Forbidden
| NotFound
| AccessDenied
| ImmutableState
| StartTimeInPast
| TechnicianNotFound
| TechnicianUnavailable
| SchedulingConflict (conflictStart conflictEnd : Date)
| AlreadyCanceled
| CancellationWindowExpired
| DuplicateKey.

Inductive Result (A : Type) :=
| Ok (a : A)
| Fail (f : Failure).
Arguments Ok {A} a.
Arguments Fail {A} f.

Definition bind {A B} (r : Result A) (k : A -> Result B) : Result B :=
  match r with
  | Ok a => k a
  | Fail f => Fail f
  end.

Notation "x <- r ;; k" := (bind r (fun x => k))
  (at level 61, r at next level, right associativity).

(** ** The store *)

Record Db := mkDb {
  users : list User.t;
  appointments : list Appointment.t
}.

(** The store after a handler ran: a failure writes nothing. *)
Definition db_after {A} (db : Db) (r : Result (Db * A)) : Db :=
  match r with
  | Ok (db', _) => db'
  | Fail _ => db
  end.

(** [Appointment.findById(id)] *)
Definition findById (db : Db) (id : ObjectId) : option Appointment.t :=
  find (fun a => Nat.eqb (Appointment._id a) id) (appointments db).

(** [User.findOne({ _id: technicianId, role: "technician", isActive: true })] *)
Definition findTechnician (db : Db) (technicianId : ObjectId) : option User.t :=
  find (fun u => Nat.eqb (User._id u) technicianId
                 && Role.eqb (User.role u) Role.technician
                 && User.isActive u)
       (users db).

(** The validators of the appointment schema:
    [endTime] after [startTime], the [maxlength] of the strings, the
    [min] and [max] of the numbers. *)
Definition maxlength (n : nat) (s : option string) : bool :=
  match s with
  | Some v => Nat.leb (String.length v) n
  | None => true
  end.

(** [Joi.string()] without [allow("")]: the empty string is refused. *)
Definition notEmpty (s : option string) : bool :=
  match s with
  | Some EmptyString => false
  | _ => true
  end.

Definition between (lo : Z) (hi : option Z) (v : option Z) : bool :=
  match v with
  | Some x => (lo <=? x) && match hi with Some h => x <=? h | None => true end
  | None => true
  end.

Definition validateAppointment (a : Appointment.t) : bool :=
  (Appointment.endTime a >? Appointment.startTime a)
  && maxlength 1000 (Appointment.notes a)
  && between 15 (Some 480) (Appointment.estimatedDuration a)
  && between 0 None (Appointment.cost a)
  && maxlength 500 (Appointment.cancellationReason a)
  && maxlength 1000 (Appointment.completionNotes a)
  && between 1 (Some 5) (Appointment.rating a)
  && maxlength 500 (Appointment.feedback a).

(** [appointment.save()] of a new document: validate, then insert. *)
Definition saveNew (db : Db) (a : Appointment.t) : Result (Db * Appointment.t) :=
  if negb (validateAppointment a) then Fail ValidationError
  else if existsb (fun b => Nat.eqb (Appointment._id b) (Appointment._id a))
                  (appointments db)
  then Fail DuplicateKey
  else Ok (mkDb (users db) (appointments db ++ [a]), a).

(** The write of a loaded document: the stored document with this [_id]
    is replaced. *)
Definition replaceById (a : Appointment.t) (l : list Appointment.t)
  : list Appointment.t :=
  map (fun b => if Nat.eqb (Appointment._id b) (Appointment._id a) then a else b) l.

(** [appointment.save()] of a loaded document: validate, then write. *)
Definition saveLoaded (db : Db) (a : Appointment.t) : Result (Db * Appointment.t) :=
  if negb (validateAppointment a) then Fail ValidationError
  else Ok (mkDb (users db) (replaceById a (appointments db)), a).

(** ** Conflict checker *)

(** The filter [conflictQuery] of [checkTechnicianAvailability], as the
    predicate it selects documents with. *)
Definition conflictQuery (technicianId : ObjectId) (startTime endTime : Date)
    (excludeAppointmentId : option ObjectId) (a : Appointment.t) : bool :=
  Nat.eqb (Appointment.technician a) technicianId
  && negb (Status.includes [Status.canceled; Status.completed] (Appointment.status a))
  && ((Appointment.startTime a <? endTime) && (Appointment.endTime a >? startTime))
  && match excludeAppointmentId with
     | Some id => negb (Nat.eqb (Appointment._id a) id)
     | None => true
     end.

(** [checkTechnicianAvailability].  The [find] of the conflicts has no sort:
    which of the selected documents is [conflicts[0]] is up to the store, and
    is here the first of the list.  Whether the check passes does not depend
    on it. *)
Definition checkTechnicianAvailability (db : Db) (technicianId : ObjectId)
    (startTime endTime : Date) (excludeAppointmentId : option ObjectId)
  : Result User.t :=
  match findTechnician db technicianId with
  | None => Fail TechnicianNotFound
  | Some technician =>
      if negb (Availability.eqb (User.availability technician) Availability.available)
      then Fail TechnicianUnavailable
      else
        let conflicts :=
          filter (conflictQuery technicianId startTime endTime excludeAppointmentId)
                 (appointments db) in
        match conflicts with
        | conflict :: _ =>
            Fail (SchedulingConflict (Appointment.startTime conflict)
                                     (Appointment.endTime conflict))
        | [] => Ok technician
        end
  end.

(** ** Request bodies and their schemas *)

Module CreateBody.
Record t := mk {
  technicianId : ObjectId;
  startTime : Date;
  endTime : Date;
  notes : option string;
  serviceType : ServiceType.t;
  priority : option Priority.t;
  estimatedDuration : option Z;
  location : option Location.t
}.
End CreateBody.

Module UpdateBody.
Record t := mk {
  startTime : option Date;
  endTime : option Date;
  notes : option string;
  serviceType : option ServiceType.t;
  priority : option Priority.t;
  status : option Status.t;
  estimatedDuration : option Z;
  actualDuration : option Z;
  cost : option Z;
  location : option Location.t;
  cancellationReason : option string;
  completionNotes : option string;
  rating : option Z;
  feedback : option string
}.
End UpdateBody.

Module CancelBody.
Record t := mk {
  cancellationReason : option string
}.
End CancelBody.

(** [createAppointmentSchema]: [startTime] not before now, [endTime]
    greater than [startTime], the lengths and ranges.  Required fields and
    enumerations are in the types; the ranges of the coordinates are left
    out here and in the update schema. *)
Definition createAppointmentSchema (now : Date) (b : CreateBody.t) : bool :=
  (now <=? CreateBody.startTime b)
  && (CreateBody.endTime b >? CreateBody.startTime b)
  && maxlength 1000 (CreateBody.notes b)
  && between 15 (Some 480) (CreateBody.estimatedDuration b).

(** [updateAppointmentSchema]: the lengths and ranges, and the custom rule:
    when both times are given, [endTime <= startTime] is an error.  Of the
    strings only [notes] may be empty. *)
Definition updateAppointmentSchema (b : UpdateBody.t) : bool :=
  maxlength 1000 (UpdateBody.notes b)
  && between 15 (Some 480) (UpdateBody.estimatedDuration b)
  && between 0 None (UpdateBody.actualDuration b)
  && between 0 None (UpdateBody.cost b)
  && (notEmpty (UpdateBody.cancellationReason b)
      && maxlength 500 (UpdateBody.cancellationReason b))
  && (notEmpty (UpdateBody.completionNotes b)
      && maxlength 1000 (UpdateBody.completionNotes b))
  && between 1 (Some 5) (UpdateBody.rating b)
  && (notEmpty (UpdateBody.feedback b) && maxlength 500 (UpdateBody.feedback b))
  && match UpdateBody.startTime b, UpdateBody.endTime b with
     | Some s, Some e => negb (e <=? s)
     | _, _ => true
     end.

Definition cancelAppointmentSchema (b : CancelBody.t) : bool :=
  maxlength 500 (CancelBody.cancellationReason b).

(** ** Appointment lifecycle *)

Definition isSome {A} (o : option A) : bool :=
  match o with Some _ => true | None => false end.

(** [x !== undefined ? x : y] *)
Definition orElse {A} (o : option A) (d : A) : A :=
  match o with Some v => v | None => d end.

(** [!n] for an optional number: undefined and 0 are falsy. *)
Definition falsyNumber (o : option Z) : bool :=
  match o with Some v => v =? 0 | None => true end.

(** [s || d] for an optional string: undefined and the empty string are falsy. *)
Definition stringOr (o : option string) (d : string) : string :=
  match o with
  | Some EmptyString => d
  | Some v => v
  | None => d
  end.

(** [String.prototype.trim], which the setter of a schema path with
    [trim: true] applies: white space and line terminators are taken off both
    ends.  Among the characters of these strings they are tab, line feed,
    vertical tab, form feed, carriage return, space and no-break space. *)
Definition isWhiteSpace (c : ascii) : bool :=
  existsb (Ascii.eqb c) ["009"; "010"; "011"; "012"; "013"; " "; "160"]%char.

Fixpoint trimStart (s : string) : string :=
  match s with
  | String c s' => if isWhiteSpace c then trimStart s' else s
  | EmptyString => EmptyString
  end.

Fixpoint trimEnd (s : string) : string :=
  match s with
  | String c s' =>
      match trimEnd s' with
      | EmptyString => if isWhiteSpace c then EmptyString else String c EmptyString
      | t => String c t
      end
  | EmptyString => EmptyString
  end.

Definition trim (s : string) : string := trimEnd (trimStart s).

(** The document that the POST handler builds with [new Appointment];
    [newId] is the id that the constructor draws, [status] takes the
    default of the schema, the setter of [notes] trims. *)
Definition newAppointment (newId : ObjectId) (user : ReqUser.t)
    (body : CreateBody.t) : Appointment.t :=
  let startTime := CreateBody.startTime body in
  let endTime := CreateBody.endTime body in
  let duration :=
    if falsyNumber (CreateBody.estimatedDuration body)
    then
      let timeDiff := endTime - startTime in
      Math_round_div timeDiff (1000 * 60)
    else orElse (CreateBody.estimatedDuration body) 0 in
  Appointment.mk newId (ReqUser.userId user) (CreateBody.technicianId body)
    startTime endTime Status.scheduled (option_map trim (CreateBody.notes body))
    (CreateBody.serviceType body)
    (orElse (CreateBody.priority body) Priority.medium)
    (Some duration) None None (CreateBody.location body)
    None None None None None None.

(** The handler of POST /: check, build, save. *)
Definition createAppointment (newId : ObjectId) (user : ReqUser.t)
    (body : CreateBody.t) (db : Db) : Result (Db * Appointment.t) :=
  _ <- checkTechnicianAvailability db (CreateBody.technicianId body)
         (CreateBody.startTime body) (CreateBody.endTime body) None ;;
  saveNew db (newAppointment newId user body).

(** POST /: [authorize(["customer", "admin"])], [validateRequest], handler. *)
Definition postAppointment (now : Date) (newId : ObjectId) (user : ReqUser.t)
    (body : CreateBody.t) (db : Db) : Result (Db * Appointment.t) :=
  if negb (Role.eqb (ReqUser.role user) Role.customer
           || Role.eqb (ReqUser.role user) Role.admin)
  then Fail Forbidden
  else if negb (createAppointmentSchema now body) then Fail ValidationError
  else createAppointment newId user body db.

(** The permission check shared by the PUT, PATCH and DELETE handlers. *)
Definition hasAccess (user : ReqUser.t) (appointment : Appointment.t) : bool :=
  Role.eqb (ReqUser.role user) Role.admin
  || Nat.eqb (Appointment.client appointment) (ReqUser.userId user)
  || Nat.eqb (Appointment.technician appointment) (ReqUser.userId user).

(** The [allowedUpdates.forEach] of the PUT handler: every field that the
    body defines is assigned; the setter of [notes] trims. *)
Definition applyUpdates (body : UpdateBody.t) (a : Appointment.t) : Appointment.t :=
  let keep {A} (o : option A) (old : option A) : option A :=
    match o with Some v => Some v | None => old end in
  Appointment.mk
    (Appointment._id a) (Appointment.client a) (Appointment.technician a)
    (orElse (UpdateBody.startTime body) (Appointment.startTime a))
    (orElse (UpdateBody.endTime body) (Appointment.endTime a))
    (orElse (UpdateBody.status body) (Appointment.status a))
    (keep (option_map trim (UpdateBody.notes body)) (Appointment.notes a))
    (orElse (UpdateBody.serviceType body) (Appointment.serviceType a))
    (orElse (UpdateBody.priority body) (Appointment.priority a))
    (keep (UpdateBody.estimatedDuration body) (Appointment.estimatedDuration a))
    (keep (UpdateBody.actualDuration body) (Appointment.actualDuration a))
    (keep (UpdateBody.cost body) (Appointment.cost a))
    (keep (UpdateBody.location body) (Appointment.location a))
    (keep (UpdateBody.cancellationReason body) (Appointment.cancellationReason a))
    (keep (UpdateBody.completionNotes body) (Appointment.completionNotes a))
    (keep (UpdateBody.rating body) (Appointment.rating a))
    (keep (UpdateBody.feedback body) (Appointment.feedback a))
    (Appointment.canceledAt a) (Appointment.canceledBy a).

Definition setActualDuration (d : Z) (a : Appointment.t) : Appointment.t :=
  Appointment.mk
    (Appointment._id a) (Appointment.client a) (Appointment.technician a)
    (Appointment.startTime a) (Appointment.endTime a) (Appointment.status a)
    (Appointment.notes a) (Appointment.serviceType a) (Appointment.priority a)
    (Appointment.estimatedDuration a) (Some d) (Appointment.cost a)
    (Appointment.location a) (Appointment.cancellationReason a)
    (Appointment.completionNotes a) (Appointment.rating a)
    (Appointment.feedback a) (Appointment.canceledAt a) (Appointment.canceledBy a).

(** The handler of PUT /:appointmentId. *)
Definition updateAppointment (now : Date) (user : ReqUser.t)
    (appointmentId : ObjectId) (body : UpdateBody.t) (db : Db)
  : Result (Db * Appointment.t) :=
  match findById db appointmentId with
  | None => Fail NotFound
  | Some appointment =>
      if negb (hasAccess user appointment) then Fail AccessDenied
      else if negb (Role.eqb (ReqUser.role user) Role.admin)
              && Status.includes [Status.completed; Status.canceled]
                                 (Appointment.status appointment)
      then Fail ImmutableState
      else
        _ <- (if isSome (UpdateBody.startTime body) || isSome (UpdateBody.endTime body)
              then
                let newStartTime :=
                  orElse (UpdateBody.startTime body) (Appointment.startTime appointment) in
                let newEndTime :=
                  orElse (UpdateBody.endTime body) (Appointment.endTime appointment) in
                if negb (Role.eqb (ReqUser.role user) Role.admin) && (newStartTime <? now)
                then Fail StartTimeInPast
                else
                  _ <- checkTechnicianAvailability db (Appointment.technician appointment)
                         newStartTime newEndTime (Some (Appointment._id appointment)) ;;
                  Ok tt
              else Ok tt) ;;
        let appointment := applyUpdates body appointment in
        let appointment :=
          if match UpdateBody.status body with
             | Some s => Status.eqb s Status.completed
             | None => false
             end
             && falsyNumber (UpdateBody.actualDuration body)
          then setActualDuration
                 (Math_round_div
                    (Appointment.endTime appointment - Appointment.startTime appointment)
                    (1000 * 60))
                 appointment
          else appointment in
        saveLoaded db appointment
  end.

(** PUT /:appointmentId: [validateRequest], handler. *)
Definition putAppointment (now : Date) (user : ReqUser.t)
    (appointmentId : ObjectId) (body : UpdateBody.t) (db : Db)
  : Result (Db * Appointment.t) :=
  if negb (updateAppointmentSchema body) then Fail ValidationError
  else updateAppointment now user appointmentId body db.

(** What [findByIdAndUpdate] stores of the update document of the cancel
    handlers; [runValidators: false], so no validator runs.  The update
    document names [status], [cancellationReason], [canceledAt] (now) and
    [canceledBy] (the actor); the schema declares the first two paths only
    and is strict, so the other two are dropped and the document keeps what
    it held under these names. *)
Definition setCanceled (reason : string) (now : Date) (by_ : ObjectId)
    (a : Appointment.t) : Appointment.t :=
  Appointment.mk
    (Appointment._id a) (Appointment.client a) (Appointment.technician a)
    (Appointment.startTime a) (Appointment.endTime a) Status.canceled
    (Appointment.notes a) (Appointment.serviceType a) (Appointment.priority a)
    (Appointment.estimatedDuration a) (Appointment.actualDuration a)
    (Appointment.cost a) (Appointment.location a) (Some reason)
    (Appointment.completionNotes a) (Appointment.rating a)
    (Appointment.feedback a) (Appointment.canceledAt a) (Appointment.canceledBy a).

(** The body shared by PATCH /:appointmentId/cancel and DELETE
    /:appointmentId, which differ in the reason they record. *)
Definition cancelWith (reason : string) (now : Date) (user : ReqUser.t)
    (appointmentId : ObjectId) (db : Db) : Result (Db * Appointment.t) :=
  match findById db appointmentId with
  | None => Fail NotFound
  | Some appointment =>
      if negb (hasAccess user appointment) then Fail AccessDenied
      else if Status.eqb (Appointment.status appointment) Status.canceled
      then Fail AlreadyCanceled
      else if negb (Role.eqb (ReqUser.role user) Role.admin)
              && (let twentyFourHoursBefore :=
                    Appointment.startTime appointment - 24 * 60 * 60 * 1000 in
                  now >? twentyFourHoursBefore)
      then Fail CancellationWindowExpired
      else
        let updated := setCanceled reason now (ReqUser.userId user) appointment in
        Ok (mkDb (users db) (replaceById updated (appointments db)), updated)
  end.

(** The handler of PATCH /:appointmentId/cancel. *)
Definition cancelAppointment (now : Date) (user : ReqUser.t)
    (appointmentId : ObjectId) (body : CancelBody.t) (db : Db)
  : Result (Db * Appointment.t) :=
  cancelWith (stringOr (CancelBody.cancellationReason body) "No reason provided")
             now user appointmentId db.

(** PATCH /:appointmentId/cancel: [validateRequest], handler. *)
Definition patchCancel (now : Date) (user : ReqUser.t)
    (appointmentId : ObjectId) (body : CancelBody.t) (db : Db)
  : Result (Db * Appointment.t) :=
  if negb (cancelAppointmentSchema body) then Fail ValidationError
  else cancelAppointment now user appointmentId body db.

(** The handler of DELETE /:appointmentId. *)
Definition deleteAppointment (now : Date) (user : ReqUser.t)
    (appointmentId : ObjectId) (db : Db) : Result (Db * Appointment.t) :=
  cancelWith "Canceled by user" now user appointmentId db.

(** ** Availability calculator (GET /:technicianId/availability) *)

(** ["09:00", ..., "16:00"] *)
Definition workingHours : list string :=
  ["09:00"; "10:00"; "11:00"; "12:00"; "13:00"; "14:00"; "15:00"; "16:00"].

(** [array.includes(s)] and [set.has(s)] on strings. *)
Definition includes (l : list string) (s : string) : bool :=
  existsb (String.eqb s) l.

(** [set.add(s)] on a [Set] kept in insertion order. *)
Definition add (s : string) (set : list string) : list string :=
  if includes set s then set else set ++ [s].

(** [n.toString()] for an integer. *)
Definition toString (n : Z) : string := NilZero.string_of_int (Z.to_int n).

(** [s.padStart(2, "0")] *)
Definition padStart2 (s : string) : string :=
  match String.length s with
  | O => "00"
  | S O => "0" ++ s
  | _ => s
  end.

Definition timeSlot (hour : Z) : string := padStart2 (toString hour) ++ ":00".

(** The filter of the day's appointments, as the predicate it selects
    documents with. *)
Definition dayQuery (technicianId : ObjectId) (startOfDay endOfDay : Date)
    (a : Appointment.t) : bool :=
  Nat.eqb (Appointment.technician a) technicianId
  && (((startOfDay <=? Appointment.startTime a) && (Appointment.startTime a <=? endOfDay))
      || ((startOfDay <=? Appointment.endTime a) && (Appointment.endTime a <=? endOfDay))
      || ((Appointment.startTime a <=? startOfDay) && (Appointment.endTime a >=? endOfDay)))
  && negb (Status.includes [Status.canceled; Status.completed] (Appointment.status a)).

(** [for (let hour = startHour; hour <= bound; hour++) body]; [n] bounds the
    number of rounds. *)
Fixpoint forHours (n : nat) (hour bound : Z) (bookedSlots : list string)
  : list string :=
  match n with
  | O => bookedSlots
  | S n' =>
      if hour <=? bound then
        let timeSlot := timeSlot hour in
        forHours n' (hour + 1) bound
          (if includes workingHours timeSlot then add timeSlot bookedSlots
           else bookedSlots)
      else bookedSlots
  end.

(** The body of [appointments.forEach]: the hours of one appointment. *)
Definition markAppointment (bookedSlots : list string) (appt : Appointment.t)
  : list string :=
  let startHour := getUTCHours (Appointment.startTime appt) in
  let endHour := getUTCHours (Appointment.endTime appt) in
  let endMinutes := getUTCMinutes (Appointment.endTime appt) in
  let bound := if endMinutes >? 0 then endHour else endHour - 1 in
  forHours (Z.to_nat (bound + 1 - startHour)) startHour bound bookedSlots.

Definition bookedSlotsOf (appts : list Appointment.t) : list string :=
  fold_left markAppointment appts [].

Definition availableSlotsOf (bookedSlots : list string) : list string :=
  filter (fun slot => negb (includes bookedSlots slot)) workingHours.

Record Slots := mkSlots {
  bookedSlots : list string;
  availableSlots : list string
}.

(** The route, from a valid [requestedDate] on. *)
Definition getAvailability (technicianId : ObjectId) (requestedDate : Date)
    (db : Db) : Result Slots :=
  let startOfDay := setUTCHours requestedDate 0 0 0 0 in
  let endOfDay := setUTCHours requestedDate 23 59 59 999 in
  match findTechnician db technicianId with
  | None => Fail TechnicianNotFound
  | Some technician =>
      if negb (Availability.eqb (User.availability technician) Availability.available)
      then Fail TechnicianUnavailable
      else
        let appts := filter (dayQuery technicianId startOfDay endOfDay)
                            (appointments db) in
        let booked := bookedSlotsOf appts in
        Ok (mkSlots booked (availableSlotsOf booked))
  end.

(** ** Dates of the examples *)

(** 2024-01-01T00:00:00.000Z *)
Definition jan1 : Date := 1704067200000.
(** 2024-01-02T00:00:00.000Z *)
Definition jan2 : Date := jan1 + msPerDay.
(** [at_ day h m]: the instant h:m of the UTC day that starts at [day]. *)
Definition at_ (day : Date) (h m : Z) : Date := day + h * msPerHour + m * msPerMinute.

Definition sampleAppointment (id client tech : ObjectId) (s e : Date)
    (st : Status.t) : Appointment.t :=
  Appointment.mk id client tech s e st None ServiceType.repair Priority.medium
    (Some 60) None None None None None None None None None.

Definition sampleTechnician (id : ObjectId) : User.t :=
  User.mk id Role.technician true Availability.available.

(** ** The words of the specification *)

(** Section 4.1: intervals [a] and [b] overlap iff
    [a.start < b.end AND b.start < a.end]. *)
Definition overlaps_spec (a b : Date * Date) : Prop :=
  fst a < snd b /\ fst b < snd a.


Definition interval (a : Appointment.t) : Date * Date :=
  (Appointment.startTime a, Appointment.endTime a).

(** The statuses that the two queries leave out. *)
Definition active (a : Appointment.t) : bool :=
  negb (Status.includes [Status.canceled; Status.completed] (Appointment.status a)).

(** The invariant of section 3, for a store whose ids are unique. *)
Definition noDoubleBooking (db : Db) : Prop :=
  forall a b,
    In a (appointments db) -> In b (appointments db) ->
    Appointment._id a <> Appointment._id b ->
    Appointment.technician a = Appointment.technician b ->
    active a = true -> active b = true ->
    ~ overlaps_spec (interval a) (interval b).

Definition uniqueIds (db : Db) : Prop :=
  NoDup (map Appointment._id (appointments db)).

Definition Invariant (db : Db) : Prop :=
  uniqueIds db /\ noDoubleBooking db.

(** One operation on which the conflict checker ran and passed: a create
    that succeeded, or a successful update that names a time field. *)
Inductive checkedStep (db : Db) : Db -> Prop :=
| step_create newId user body db' a :
    createAppointment newId user body db = Ok (db', a) ->
    checkedStep db db'
| step_update now user appointmentId body db' a :
    isSome (UpdateBody.startTime body) || isSome (UpdateBody.endTime body) = true ->
    updateAppointment now user appointmentId body db = Ok (db', a) ->
    checkedStep db db'.

Inductive reachable (db0 : Db) : Db -> Prop :=
| reach_refl : reachable db0 db0
| reach_step db db' : reachable db0 db -> checkedStep db db' -> reachable db0 db'.

(** ** Statements of the specification that the code does not meet *)

(** Terminal states of the specification: completed, canceled, no-show. *)
Definition terminal (s : Status.t) : bool :=
  Status.includes [Status.completed; Status.canceled; Status.no_show] s.

(** Every non-administrative update of an appointment in a terminal state
    is rejected with [ImmutableState]. *)
Definition terminal_updates_rejected_as_stated : Prop :=
  forall now user appointmentId body db a,
    findById db appointmentId = Some a ->
    terminal (Appointment.status a) = true ->
    ReqUser.role user <> Role.admin ->
    updateAppointment now user appointmentId body db = Fail ImmutableState.

(** A non-administrative cancel of a non-canceled appointment succeeds only
    within the window and otherwise fails with [CancellationWindowExpired]. *)
Definition cancellation_window_as_stated : Prop :=
  forall now user appointmentId body db a,
    findById db appointmentId = Some a ->
    Appointment.status a <> Status.canceled ->
    ReqUser.role user <> Role.admin ->
    ((exists r, cancelAppointment now user appointmentId body db = Ok r) ->
     now <= Appointment.startTime a - 24 * msPerHour)
    /\ (~ now <= Appointment.startTime a - 24 * msPerHour ->
        cancelAppointment now user appointmentId body db
          = Fail CancellationWindowExpired).

(** A cancel of a canceled appointment fails with [AlreadyCanceled],
    whoever the actor is. *)
Definition already_canceled_as_stated : Prop :=
  forall now user appointmentId body db a,
    findById db appointmentId = Some a ->
    Appointment.status a = Status.canceled ->
    cancelAppointment now user appointmentId body db = Fail AlreadyCanceled.

(** An update body that names the two time fields only. *)
Definition timesBody (s e : Date) : UpdateBody.t :=
  UpdateBody.mk (Some s) (Some e) None None None None None None None None
    None None None None.

(** An update body that names [notes] only. *)
Definition notesBody (n : string) : UpdateBody.t :=
  UpdateBody.mk None None (Some n) None None None None None None None
    None None None None.

(** An update body that names [status] only. *)
Definition statusBody (st : Status.t) : UpdateBody.t :=
  UpdateBody.mk None None None None None (Some st) None None None None
    None None None None.

(** In a state where the invariant holds, an update of a stored appointment
    to the times it has passes the conflict check. *)
Definition self_update_passes_as_stated : Prop :=
  forall now user appointmentId db a,
    Invariant db ->
    findById db appointmentId = Some a ->
    forall s e,
      updateAppointment now user appointmentId
        (timesBody (Appointment.startTime a) (Appointment.endTime a)) db
      <> Fail (SchedulingConflict s e).


(** ** Stores and actors of the examples *)

Definition theAdmin : ReqUser.t := ReqUser.mk 1%nat Role.admin.
Definition theClient : ReqUser.t := ReqUser.mk 2%nat Role.customer.
Definition aStranger : ReqUser.t := ReqUser.mk 9%nat Role.customer.

(** Technician 3, available, and an empty calendar. *)
Definition emptyCalendar : Db := mkDb [sampleTechnician 3%nat] [].

(** One appointment of client 2 with technician 3, on 2024-01-02 from 09:00
    to 10:00, in the given status. *)
Definition oneAppointment (st : Status.t) : Db :=
  mkDb [sampleTechnician 3%nat]
       [sampleAppointment 10%nat 2%nat 3%nat (at_ jan2 9 0) (at_ jan2 10 0) st].

(** A canceled appointment and a scheduled one of the same technician over
    the same hour. *)
Definition canceledUnderScheduled : Db :=
  mkDb [sampleTechnician 3%nat]
       [sampleAppointment 10%nat 2%nat 3%nat (at_ jan2 9 0) (at_ jan2 10 0)
          Status.canceled;
        sampleAppointment 11%nat 2%nat 3%nat (at_ jan2 9 0) (at_ jan2 10 0)
          Status.scheduled].

Definition createBody (tech : ObjectId) (s e : Date) (d : option Z) : CreateBody.t :=
  CreateBody.mk tech s e None ServiceType.repair None d None.

Definition noReason : CancelBody.t := CancelBody.mk None.

(** Three operations in a row: 09:00-10:00 is booked, 10:00-11:00 is
    booked next to it, then the first appointment is moved to 08:00-09:00. *)
Definition threeSteps : Db :=
  db_after emptyCalendar
    (r1 <- createAppointment 10%nat theClient
             (createBody 3%nat (at_ jan2 9 0) (at_ jan2 10 0) None) emptyCalendar ;;
     r2 <- createAppointment 11%nat theClient
             (createBody 3%nat (at_ jan2 10 0) (at_ jan2 11 0) None) (fst r1) ;;
     updateAppointment jan1 theClient 10%nat
       (timesBody (at_ jan2 8 0) (at_ jan2 9 0)) (fst r2)).

(** The create request for the technician and the interval of [a]. *)
Definition requestOf (a : Appointment.t) (body : CreateBody.t) : Prop :=
  CreateBody.technicianId body = Appointment.technician a
  /\ CreateBody.startTime body = Appointment.startTime a
  /\ CreateBody.endTime body = Appointment.endTime a.

(** [body] can be created in [db] and, once [bodyX] has been created, it
    still can, and both appointments are stored and active. *)
Definition notBlockedBy (idX idY : ObjectId) (userX userY : ReqUser.t)
    (bodyX bodyY : CreateBody.t) (db : Db) : Prop :=
  forall dbX x y0,
    createAppointment idX userX bodyX db = Ok (dbX, x) ->
    createAppointment idY userY bodyY db = Ok y0 ->
    exists dbXY y,
      createAppointment idY userY bodyY dbX = Ok (dbXY, y)
      /\ In x (appointments dbXY) /\ In y (appointments dbXY)
      /\ active x = true /\ active y = true.

(** Two scheduled appointments of technician 3 on 2024-01-02, one from
    09:00 to 10:00 and one from 10:00 to 11:00. *)
Definition twoTouching : Db :=
  mkDb [sampleTechnician 3%nat]
       [sampleAppointment 10%nat 2%nat 3%nat (at_ jan2 9 0) (at_ jan2 10 0)
          Status.scheduled;
        sampleAppointment 11%nat 2%nat 3%nat (at_ jan2 10 0) (at_ jan2 11 0)
          Status.scheduled].

(** The calendar of technician 3 with one scheduled appointment from [s]
    to [e]. *)
Definition calendarWith (s e : Date) : Db :=
  mkDb [sampleTechnician 3%nat]
       [sampleAppointment 10%nat 2%nat 3%nat s e Status.scheduled].

(** The start of the working-hour slot [hour] of the UTC day that starts
    at [day]. *)
Definition slotStart (day : Date) (hour : Z) : Date := day + hour * msPerHour.

(** The hour that a slot label of the day stands for. *)
Definition hourOfSlot (s : string) : option Z :=
  find (fun hour => String.eqb (timeSlot hour) s) (map Z.of_nat (seq 0 24)).

(** Every stored appointment passes the validators of the schema. *)
Definition validStore (db : Db) : Prop :=
  forall a, In a (appointments db) -> validateAppointment a = true.

(** The fields of an appointment that neither the update nor the cancel
    handler assigns. *)
Definition sameIdentity (a b : Appointment.t) : Prop :=
  Appointment._id a = Appointment._id b
  /\ Appointment.client a = Appointment.client b
  /\ Appointment.technician a = Appointment.technician b.

(** The document that the PUT handler saves: the assigned fields, then the
    actual duration when the body marks the appointment completed without
    a (non-zero) [actualDuration]. *)
Definition updatedDocument (body : UpdateBody.t) (a : Appointment.t)
  : Appointment.t :=
  let appointment := applyUpdates body a in
  if match UpdateBody.status body with
     | Some s => Status.eqb s Status.completed
     | None => false
     end
     && falsyNumber (UpdateBody.actualDuration body)
  then setActualDuration
         (Math_round_div
            (Appointment.endTime appointment - Appointment.startTime appointment)
            (1000 * 60))
         appointment
  else appointment.

(** The time check of the PUT handler, run when the body names a time
    field. *)
Definition updateTimeCheck (now : Date) (user : ReqUser.t) (body : UpdateBody.t)
    (a : Appointment.t) (db : Db) : Result unit :=
  if isSome (UpdateBody.startTime body) || isSome (UpdateBody.endTime body)
  then
    let newStartTime := orElse (UpdateBody.startTime body) (Appointment.startTime a) in
    let newEndTime := orElse (UpdateBody.endTime body) (Appointment.endTime a) in
    if negb (Role.eqb (ReqUser.role user) Role.admin) && (newStartTime <? now)
    then Fail StartTimeInPast
    else
      _ <- checkTechnicianAvailability db (Appointment.technician a)
             newStartTime newEndTime (Some (Appointment._id a)) ;;
      Ok tt
  else Ok tt.

(** ** The virtuals of the appointment schema *)

(** [isUpcoming]: [startTime > new Date() && status === "scheduled"] *)
Definition isUpcoming (now : Date) (a : Appointment.t) : bool :=
  (Appointment.startTime a >? now) && Status.eqb (Appointment.status a) Status.scheduled.

(** [isOverdue]: [endTime < new Date() && status === "scheduled"] *)
Definition isOverdue (now : Date) (a : Appointment.t) : bool :=
  (Appointment.endTime a <? now) && Status.eqb (Appointment.status a) Status.scheduled.

(** ** Reading appointments *)

(** What a handler does with a request: it answers, or it throws and
    [asyncHandler] passes the error on. *)
Inductive Outcome (A : Type) :=
| Answered (r : Result A)
| Thrown.
Arguments Answered {A} r.
Arguments Thrown {A}.

(** [populate]: the user that the reference names, [null] when there is
    none. *)
Definition populate (db : Db) (id : ObjectId) : option User.t :=
  find (fun u => Nat.eqb (User._id u) id) (users db).

Record Populated := mkPopulated {
  appointment : Appointment.t;
  populatedClient : option User.t;
  populatedTechnician : option User.t
}.

(** The handler of GET /:appointmentId.  The permission check reads
    [appointment.client._id] and [appointment.technician._id] of the
    populated document, from left to right, and stops at the first
    disjunct that holds; reading [_id] of [null] throws. *)
Definition getAppointment (user : ReqUser.t) (appointmentId : ObjectId) (db : Db)
  : Outcome Populated :=
  match findById db appointmentId with
  | None => Answered (Fail NotFound)
  | Some a =>
      let appointment :=
        mkPopulated a (populate db (Appointment.client a))
                      (populate db (Appointment.technician a)) in
      if Role.eqb (ReqUser.role user) Role.admin then Answered (Ok appointment)
      else
        match populatedClient appointment with
        | None => Thrown
        | Some client =>
            if Nat.eqb (User._id client) (ReqUser.userId user)
            then Answered (Ok appointment)
            else
              match populatedTechnician appointment with
              | None => Thrown
              | Some technician =>
                  if Nat.eqb (User._id technician) (ReqUser.userId user)
                  then Answered (Ok appointment)
                  else Answered (Fail AccessDenied)
              end
        end
  end.

(** The strings of the enumerations, as the query of the list route names
    them. *)
Definition statusString (s : Status.t) : string :=
  match s with
  | Status.scheduled => "scheduled"
  | Status.in_progress => "in-progress"
  | Status.completed => "completed"
  | Status.canceled => "canceled"
  | Status.no_show => "no-show"
  end.

Definition serviceTypeString (s : ServiceType.t) : string :=
  match s with
  | ServiceType.consultation => "consultation"
  | ServiceType.repair => "repair"
  | ServiceType.installation => "installation"
  | ServiceType.maintenance => "maintenance"
  | ServiceType.troubleshooting => "troubleshooting"
  | ServiceType.emergency => "emergency"
  end.

Definition priorityString (p : Priority.t) : string :=
  match p with
  | Priority.low => "low"
  | Priority.medium => "medium"
  | Priority.high => "high"
  | Priority.urgent => "urgent"
  end.

(** The query of GET /.  [page] and [limit] are what [Number.parseInt]
    returns, [None] for NaN; [startDate] and [endDate] are given as the
    dates they parse to; [search] is the list of the ids of the users that
    [User.find] returns for the search expression, [None] when the query has
    no [search]; [sort] is the string of the query. *)
Module ListQuery.
Record t := mk {
  page : option Z;
  limit : option Z;
  status : option string;
  serviceType : option string;
  priority : option string;
  startDate : option Date;
  endDate : option Date;
  search : option (list ObjectId);
  sort : option string
}.
End ListQuery.

(** [n || d] for the result of [Number.parseInt]: NaN and 0 are falsy. *)
Definition numberOr (n : option Z) (d : Z) : Z :=
  match n with
  | Some v => if v =? 0 then d else v
  | None => d
  end.

(** [if (s) ...] for an optional string: undefined and the empty string are
    falsy. *)
Definition truthy (s : option string) : option string :=
  match s with
  | Some EmptyString => None
  | other => other
  end.

(** A filter key that is set when the query names a value. *)
Definition matchesString (q : option string) (v : string) : bool :=
  match truthy q with
  | Some s => String.eqb v s
  | None => true
  end.

(** The filter that GET / builds from the role of the caller and the
    query. *)
Definition listFilter (user : ReqUser.t) (q : ListQuery.t) (a : Appointment.t)
  : bool :=
  match ReqUser.role user with
  | Role.customer => Nat.eqb (Appointment.client a) (ReqUser.userId user)
  | Role.technician => Nat.eqb (Appointment.technician a) (ReqUser.userId user)
  | Role.admin => true
  end
  && matchesString (ListQuery.status q) (statusString (Appointment.status a))
  && matchesString (ListQuery.serviceType q) (serviceTypeString (Appointment.serviceType a))
  && matchesString (ListQuery.priority q) (priorityString (Appointment.priority a))
  && match ListQuery.startDate q with
     | Some d => d <=? Appointment.startTime a
     | None => true
     end
  && match ListQuery.endDate q with
     | Some d => Appointment.startTime a <=? d
     | None => true
     end
  && match ListQuery.search q, ReqUser.role user with
     | Some userIds, Role.admin =>
         existsb (Nat.eqb (Appointment.client a)) userIds
         || existsb (Nat.eqb (Appointment.technician a)) userIds
     | _, _ => true
     end.

(** [sort({ startTime: 1 })] and [sort({ startTime: -1 })], as an insertion
    sort that keeps documents with equal keys in the order of the
    collection (MongoDB leaves their order open). *)
Fixpoint insertBy (before : Appointment.t -> Appointment.t -> bool)
    (a : Appointment.t) (l : list Appointment.t) : list Appointment.t :=
  match l with
  | [] => [a]
  | b :: l' => if before a b then a :: l else b :: insertBy before a l'
  end.

Definition sortBy (before : Appointment.t -> Appointment.t -> bool)
    (l : list Appointment.t) : list Appointment.t :=
  fold_right (insertBy before) [] l.

Definition startsBefore (ascending : bool) (a b : Appointment.t) : bool :=
  if ascending then Appointment.startTime a <=? Appointment.startTime b
  else Appointment.startTime b <=? Appointment.startTime a.

(** [Math.ceil(total / limit)] for a count and a positive limit. *)
Definition Math_ceil_div (total limit : Z) : Z := (total + limit - 1) / limit.

(** The [pagination] object of GET /, also the one that
    [paginatedResponse] builds. *)
Record Pagination := mkPagination {
  pg_page : Z;
  pg_limit : Z;
  pg_total : Z;
  pg_pages : Z;
  pg_hasNext : bool;
  pg_hasPrev : bool
}.

Definition paginationOf (page limit total : Z) : Pagination :=
  mkPagination page limit total
    (Math_ceil_div total limit)
    (page <? Math_ceil_div total limit)
    (page >? 1).

(** [.skip(skip).limit(limit)] *)
Definition skipLimit {A} (skip limit : Z) (l : list A) : list A :=
  firstn (Z.to_nat limit) (skipn (Z.to_nat skip) l).

Record Listing := mkListing {
  ls_appointments : list Appointment.t;
  ls_pagination : Pagination
}.

(** The handler of GET /. *)
Definition listAppointments (user : ReqUser.t) (q : ListQuery.t) (db : Db)
  : Listing :=
  let page := Z.max 1 (numberOr (ListQuery.page q) 1) in
  let limit := Z.min 50 (Z.max 1 (numberOr (ListQuery.limit q) 10)) in
  let skip := (page - 1) * limit in
  let filter_ := listFilter user q in
  let ascending :=
    match ListQuery.sort q with
    | Some s => String.eqb s "asc"
    | None => false
    end in
  let appointments_ :=
    skipLimit skip limit
      (sortBy (startsBefore ascending) (filter filter_ (appointments db))) in
  let total := Z.of_nat (List.length (filter filter_ (appointments db))) in
  mkListing appointments_ (paginationOf page limit total).

(** The older route GET /technicians/:technicianId/availability of the
    appointment router, from the two bounds of the day on (the route takes
    them in the local time of the server): the appointments of the
    technician that start within the day, by start. *)
Definition startsInDayQuery (technicianId : ObjectId) (startOfDay endOfDay : Date)
    (a : Appointment.t) : bool :=
  Nat.eqb (Appointment.technician a) technicianId
  && negb (Status.includes [Status.canceled; Status.completed] (Appointment.status a))
  && ((startOfDay <=? Appointment.startTime a) && (Appointment.startTime a <=? endOfDay)).

Definition bookedRanges (technicianId : ObjectId) (startOfDay endOfDay : Date)
    (db : Db) : Result (User.t * list (Date * Date)) :=
  match findTechnician db technicianId with
  | None => Fail TechnicianNotFound
  | Some technician =>
      Ok (technician,
          map interval
            (sortBy (startsBefore true)
               (filter (startsInDayQuery technicianId startOfDay endOfDay)
                       (appointments db))))
  end.

(** The query [q] asked for page [p]. *)
Definition withPage (q : ListQuery.t) (p : Z) : ListQuery.t :=
  ListQuery.mk (Some p) (ListQuery.limit q) (ListQuery.status q)
    (ListQuery.serviceType q) (ListQuery.priority q) (ListQuery.startDate q)
    (ListQuery.endDate q) (ListQuery.search q) (ListQuery.sort q).

(** The page numbers 1, ..., [pages]. *)
Definition pageNumbers (pages : Z) : list Z :=
  map (fun k => Z.of_nat (S k)) (seq 0 (Z.to_nat pages)).

(** The query without filters, for the first page of ten, newest first. *)
Definition plainQuery : ListQuery.t :=
  ListQuery.mk None None None None None None None None None.

(** Technician 3 and the appointment of a client whose account is gone. *)
Definition orphanedAppointment : Db :=
  mkDb [sampleTechnician 3%nat]
       [sampleAppointment 10%nat 2%nat 3%nat (at_ jan2 9 0) (at_ jan2 10 0)
          Status.scheduled].

(** ** The authorization middleware *)

Module AccountType.
Inductive t := individual | business.
Definition eqb (a b : t) : bool :=
  match a, b with
  | individual, individual | business, business => true
  | _, _ => false
  end.
End AccountType.

(** [req.user], with the account type that the middleware reads. *)
Module AuthUser.
Record t := mk {
  userId : ObjectId;
  role : Role.t;
  accountType : AccountType.t
}.
End AuthUser.

Record AuthOptions := mkAuthOptions {
  allowSelf : bool;
  allowBusinessOwner : bool
}.

(** [options = {}] *)
Definition noOptions : AuthOptions := mkAuthOptions false false.

(** What a middleware does: it calls [next], or answers 401 or 403 with
    the code given. *)
Inductive AuthOutcome :=
| Next
| AuthenticationRequired
| InsufficientPermissions
| BusinessAccountRequired
| IndividualAccountRequired
| ResourceAccessDenied.

(** [authorize(roles, options)]; [paramsUserId] is [req.params.userId]. *)
Definition authorize (roles : list Role.t) (options : AuthOptions)
    (user : option AuthUser.t) (paramsUserId : option ObjectId) : AuthOutcome :=
  match user with
  | None => AuthenticationRequired
  | Some u =>
      if Nat.eqb (List.length roles) 0 then Next
      else
        let hasRequiredRole := existsb (Role.eqb (AuthUser.role u)) roles in
        if negb hasRequiredRole then
          if allowSelf options
             && match paramsUserId with
                | Some p => Nat.eqb (AuthUser.userId u) p
                | None => false
                end
          then Next
          else if allowBusinessOwner options
                  && AccountType.eqb (AuthUser.accountType u) AccountType.business
          then Next
          else InsufficientPermissions
        else Next
  end.

Definition requireAdmin := authorize [Role.admin] noOptions.
Definition requireTechnician := authorize [Role.admin; Role.technician] noOptions.
Definition requireCustomer :=
  authorize [Role.admin; Role.technician; Role.customer] noOptions.

Definition requireBusiness (user : option AuthUser.t) : AuthOutcome :=
  match user with
  | None => AuthenticationRequired
  | Some u =>
      if negb (AccountType.eqb (AuthUser.accountType u) AccountType.business)
         && negb (Role.eqb (AuthUser.role u) Role.admin)
      then BusinessAccountRequired
      else Next
  end.

Definition requireIndividual (user : option AuthUser.t) : AuthOutcome :=
  match user with
  | None => AuthenticationRequired
  | Some u =>
      if negb (AccountType.eqb (AuthUser.accountType u) AccountType.individual)
         && negb (Role.eqb (AuthUser.role u) Role.admin)
      then IndividualAccountRequired
      else Next
  end.

(** [requireOwnership(resourceField)]; [paramsField] and [bodyField] are
    [req.params[resourceField]] and [req.body[resourceField]]. *)
Definition requireOwnership (user : option AuthUser.t)
    (paramsField bodyField : option ObjectId) : AuthOutcome :=
  match user with
  | None => AuthenticationRequired
  | Some u =>
      if Role.eqb (AuthUser.role u) Role.admin then Next
      else
        let resourceUserId :=
          match paramsField with Some p => Some p | None => bodyField end in
        match resourceUserId with
        | Some r => if Nat.eqb (AuthUser.userId u) r then Next else ResourceAccessDenied
        | None => ResourceAccessDenied
        end
  end.

(** ** Sanitization *)

(** [s.replace(/c/g, r)] for one character [c]. *)
Fixpoint replaceAll (c : ascii) (r : string) (s : string) : string :=
  match s with
  | EmptyString => EmptyString
  | String x s' =>
      if Ascii.eqb x c then r ++ replaceAll c r s'
      else String x (replaceAll c r s')
  end.

(** [sanitizeHtml], for a string: the five replacements in their order.
    Character 034 is the double quote. *)
Definition sanitizeHtml (text : string) : string :=
  replaceAll "/" "&#x2F;"
    (replaceAll "'" "&#x27;"
       (replaceAll "034" "&quot;"
          (replaceAll ">" "&gt;"
             (replaceAll "<" "&lt;" text)))).

(** The characters that [sanitizeHtml] replaces. *)
Definition special (c : ascii) : bool :=
  Ascii.eqb c "<" || Ascii.eqb c ">" || Ascii.eqb c "034" || Ascii.eqb c "'"
  || Ascii.eqb c "/".

Fixpoint allChars (p : ascii -> bool) (s : string) : bool :=
  match s with
  | EmptyString => true
  | String x s' => p x && allChars p s'
  end.

(** ** Stock movements of the inventory *)

Module StockAction.
Inductive t := added | removed | transferred | assigned | returned.
Definition eqb (a b : t) : bool :=
  match a, b with
  | added, added | removed, removed | transferred, transferred
  | assigned, assigned | returned, returned => true
  | _, _ => false
  end.
End StockAction.

Module StockStatus.
(** "active", "discontinued", "out-of-stock", "low-stock" *)
Inductive t := active | discontinued | out_of_stock | low_stock.
Definition eqb (a b : t) : bool :=
  match a, b with
  | active, active | discontinued, discontinued | out_of_stock, out_of_stock
  | low_stock, low_stock => true
  | _, _ => false
  end.
End StockStatus.

Module Usage.
Record t := mk {
  date : Date;
  action : StockAction.t;
  quantity : Z;
  user : ObjectId;
  notes : option string
}.
End Usage.

Module Item.
(** The paths of the inventory schema that the movement route reads or
    writes, and the numbers that the schema bounds. *)
Record t := mk {
  quantity : Z;
  minStockLevel : Z;
  maxStockLevel : Z;
  unitPrice : Z;
  status : StockStatus.t;
  lastRestocked : option Date;
  assignedTo : option ObjectId;
  usageHistory : list Usage.t
}.
End Item.

Module Movement.
Record t := mk {
  action : StockAction.t;
  quantity : Z;
  notes : option string;
  assignedTo : option ObjectId
}.
End Movement.

Inductive MovementResult :=
| Recorded (item : Item.t)
| MovementInvalid
| ItemNotFound
| InsufficientStock
| MovementError.

(** [stockMovementSchema]: a quantity of at least 1, notes that are not
    empty and of at most 500 characters, and [assignedTo] required when the
    action is "assigned". *)
Definition stockMovementSchema (b : Movement.t) : bool :=
  (1 <=? Movement.quantity b)
  && (notEmpty (Movement.notes b) && maxlength 500 (Movement.notes b))
  && (if StockAction.eqb (Movement.action b) StockAction.assigned
      then isSome (Movement.assignedTo b) else true).

(** The [min: 0] validators of the inventory schema. *)
Definition validateItem (i : Item.t) : bool :=
  (0 <=? Item.quantity i) && (0 <=? Item.minStockLevel i)
  && (0 <=? Item.maxStockLevel i) && (0 <=? Item.unitPrice i).

(** The virtual [stockStatus]. *)
Definition stockStatus (i : Item.t) : string :=
  if Item.quantity i =? 0 then "out-of-stock"
  else if Item.quantity i <=? Item.minStockLevel i then "low-stock"
  else "in-stock".

(** The filter of GET /alerts/low-stock. *)
Definition lowStockQuery (i : Item.t) : bool :=
  (Item.quantity i <=? Item.minStockLevel i)
  && negb (StockStatus.eqb (Item.status i) StockStatus.discontinued).

(** POST /:itemId/movement, for the result of [Inventory.findById].
    Quantities are whole numbers here, and [assignedTo] is the id that the
    text of the body casts to; the entry of the usage history takes the
    date of the save, and the setter of its [notes] trims. *)
Definition stockMovement (now : Date) (userId : ObjectId) (body : Movement.t)
    (found : option Item.t) : MovementResult :=
  if negb (stockMovementSchema body) then MovementInvalid
  else
    match found with
    | None => ItemNotFound
    | Some item =>
        let action := Movement.action body in
        let quantity := Movement.quantity body in
        let insufficient :=
          (StockAction.eqb action StockAction.removed
           || StockAction.eqb action StockAction.assigned)
          && (Item.quantity item <? quantity) in
        if insufficient then InsufficientStock
        else
          (* the quantity and the restock date *)
          let q1 :=
            if StockAction.eqb action StockAction.added
            then Item.quantity item + quantity
            else if StockAction.eqb action StockAction.removed
                    || StockAction.eqb action StockAction.assigned
            then Item.quantity item - quantity
            else Item.quantity item in
          let restocked :=
            if StockAction.eqb action StockAction.added then Some now
            else Item.lastRestocked item in
          (* the assignment *)
          let assigns :=
            StockAction.eqb action StockAction.assigned
            && isSome (Movement.assignedTo body) in
          let q2 :=
            if assigns then q1
            else if StockAction.eqb action StockAction.returned then q1 + quantity
            else q1 in
          let assignedTo :=
            if assigns then Movement.assignedTo body
            else if StockAction.eqb action StockAction.returned then None
            else Item.assignedTo item in
          (* the usage history *)
          let history :=
            (Item.usageHistory item
             ++ [Usage.mk now action quantity userId
                   (option_map trim (Movement.notes body))])%list in
          (* the status *)
          let status :=
            if q2 =? 0 then StockStatus.out_of_stock
            else if q2 <=? Item.minStockLevel item then StockStatus.low_stock
            else StockStatus.active in
          let saved :=
            Item.mk q2 (Item.minStockLevel item) (Item.maxStockLevel item)
              (Item.unitPrice item) status restocked assignedTo history in
          if validateItem saved then Recorded saved else MovementError
    end.

(** The quantity after a movement that is recorded. *)
Definition movedQuantity (action : StockAction.t) (stock quantity : Z) : Z :=
  match action with
  | StockAction.added | StockAction.returned => stock + quantity
  | StockAction.removed | StockAction.assigned => stock - quantity
  | StockAction.transferred => stock
  end.

(** The status that the movement route derives from a quantity. *)
Definition statusOfQuantity (quantity minStockLevel : Z) : StockStatus.t :=
  if quantity =? 0 then StockStatus.out_of_stock
  else if quantity <=? minStockLevel then StockStatus.low_stock
  else StockStatus.active.

Definition movementBody (action : StockAction.t) (quantity : Z)
    (assignedTo : option ObjectId) : Movement.t :=
  Movement.mk action quantity None assignedTo.

(** [Number.MAX_SAFE_INTEGER]: up to it, sums and differences of whole
    numbers are exact. *)
Definition Number_MAX_SAFE_INTEGER : Z := 9007199254740991.

(** Twelve pieces in stock, five at least wanted, marked discontinued. *)
Definition sampleItem : Item.t :=
  Item.mk 12 5 100 30 StockStatus.discontinued None None [].

(** ** Basic facts *)

(** [trim] takes white space off both ends and nothing else, and never
    makes a string longer. *)
Example trim_examples :
  trim "  at the door " = "at the door"
  /\ trim (String "009" (String "010" "")) = ""
  /\ trim "" = ""
  /\ trim "a  b" = "a  b".
Proof. repeat split; reflexivity. Qed.

Lemma trimStart_length s : (String.length (trimStart s) <= String.length s)%nat.
Proof.
  induction s as [|c s IH]; simpl; [lia|].
  destruct (isWhiteSpace c); simpl; lia.
Qed.

Lemma trimEnd_length s : (String.length (trimEnd s) <= String.length s)%nat.
Proof.
  induction s as [|c s IH]; simpl; [lia|].
  destruct (trimEnd s); [destruct (isWhiteSpace c)|]; simpl in *; lia.
Qed.

Lemma trim_length s : (String.length (trim s) <= String.length s)%nat.
Proof.
  unfold trim. etransitivity; [apply trimEnd_length | apply trimStart_length].
Qed.

Lemma Status_eqb_eq (a b : Status.t) : Status.eqb a b = true <-> a = b.
Proof. destruct a, b; simpl; split; congruence. Qed.

Lemma Role_eqb_eq (a b : Role.t) : Role.eqb a b = true <-> a = b.
Proof. destruct a, b; simpl; split; congruence. Qed.

Lemma Role_eqb_neq (a b : Role.t) : a <> b -> Role.eqb a b = false.
Proof. destruct a, b; simpl; congruence. Qed.

Lemma Status_eqb_neq (a b : Status.t) : a <> b -> Status.eqb a b = false.
Proof. destruct a, b; simpl; congruence. Qed.

Lemma active_status (a : Appointment.t) :
  active a = true <->
  Appointment.status a <> Status.canceled /\ Appointment.status a <> Status.completed.
Proof.
  unfold active. destruct (Appointment.status a); simpl; split;
    intros; try discriminate; try (split; congruence); tauto.
Qed.

Lemma overlaps_spec_sym (a b : Date * Date) :
  overlaps_spec a b <-> overlaps_spec b a.
Proof. unfold overlaps_spec. tauto. Qed.

Lemma bind_Ok {A B} (r : Result A) (k : A -> Result B) (b : B) :
  bind r k = Ok b -> exists a, r = Ok a /\ k a = Ok b.
Proof. destruct r; simpl; [eauto | discriminate]. Qed.

(** What the filter of the conflict checker selects. *)
Lemma conflictQuery_true technicianId startTime endTime exclude a :
  conflictQuery technicianId startTime endTime exclude a = true <->
  Appointment.technician a = technicianId
  /\ active a = true
  /\ overlaps_spec (interval a) (startTime, endTime)
  /\ exclude <> Some (Appointment._id a).
Proof.
  unfold conflictQuery, overlaps_spec, interval; fold (active a); simpl.
  rewrite !andb_true_iff, Nat.eqb_eq, Z.ltb_lt, Z.gtb_gt.
  assert (E : match exclude with
              | Some id => negb (Nat.eqb (Appointment._id a) id)
              | None => true
              end = true <-> exclude <> Some (Appointment._id a)).
  { destruct exclude as [id|]; [|split; congruence].
    rewrite negb_true_iff, Nat.eqb_neq. split; congruence. }
  rewrite E. intuition lia.
Qed.

(** A check that passes found no conflicting document. *)
Lemma check_Ok_inv db technicianId startTime endTime exclude technician :
  checkTechnicianAvailability db technicianId startTime endTime exclude = Ok technician ->
  findTechnician db technicianId = Some technician
  /\ User.availability technician = Availability.available
  /\ forall b, In b (appointments db) ->
               conflictQuery technicianId startTime endTime exclude b = false.
Proof.
  unfold checkTechnicianAvailability.
  destruct (findTechnician db technicianId) as [t|]; [|discriminate].
  destruct (Availability.eqb (User.availability t) Availability.available) eqn:Ea;
    simpl; [|discriminate].
  destruct (filter _ (appointments db)) as [|c l] eqn:Ef; [|discriminate].
  intros H; injection H as <-. repeat split.
  - destruct (User.availability t); simpl in Ea; congruence.
  - intros b Hb.
    destruct (conflictQuery technicianId startTime endTime exclude b) eqn:Eq; [|reflexivity].
    assert (Hin : In b (filter (conflictQuery technicianId startTime endTime exclude)
                               (appointments db)))
      by (apply filter_In; auto).
    rewrite Ef in Hin. destruct Hin.
Qed.

(** The converse: no conflicting document and an available technician. *)
Lemma check_Ok_intro db technicianId startTime endTime exclude technician :
  findTechnician db technicianId = Some technician ->
  User.availability technician = Availability.available ->
  (forall b, In b (appointments db) ->
             conflictQuery technicianId startTime endTime exclude b = false) ->
  checkTechnicianAvailability db technicianId startTime endTime exclude = Ok technician.
Proof.
  intros Ht Ha Hq. unfold checkTechnicianAvailability. rewrite Ht, Ha. simpl.
  destruct (filter _ (appointments db)) as [|c l] eqn:Ef; [reflexivity|].
  assert (Hin : In c (filter (conflictQuery technicianId startTime endTime exclude)
                             (appointments db)))
    by (rewrite Ef; left; reflexivity).
  apply filter_In in Hin. destruct Hin as [Hc Hq']. rewrite (Hq c Hc) in Hq'. discriminate.
Qed.

(** A conflict reported by the check is a stored document that the filter
    selects. *)
Lemma check_conflict_inv db technicianId startTime endTime exclude s e :
  checkTechnicianAvailability db technicianId startTime endTime exclude
    = Fail (SchedulingConflict s e) ->
  exists c, In c (appointments db)
            /\ conflictQuery technicianId startTime endTime exclude c = true
            /\ interval c = (s, e).
Proof.
  unfold checkTechnicianAvailability.
  destruct (findTechnician db technicianId) as [t|]; [|discriminate].
  destruct (negb _); [discriminate|].
  destruct (filter _ (appointments db)) as [|c l] eqn:Ef; [discriminate|].
  intros H; injection H as <- <-. exists c.
  assert (Hin : In c (filter (conflictQuery technicianId startTime endTime exclude)
                             (appointments db)))
    by (rewrite Ef; left; reflexivity).
  apply filter_In in Hin. tauto.
Qed.

(** ** The store under writes *)

Lemma replaceById_ids a l :
  map Appointment._id (replaceById a l) = map Appointment._id l.
Proof.
  induction l as [|b l IH]; simpl; [reflexivity|].
  rewrite IH. destruct (Nat.eqb (Appointment._id b) (Appointment._id a)) eqn:E;
    [apply Nat.eqb_eq in E; rewrite E|]; reflexivity.
Qed.

Lemma In_replaceById a l x :
  In x (replaceById a l) ->
  x = a \/ (In x l /\ Appointment._id x <> Appointment._id a).
Proof.
  unfold replaceById. rewrite in_map_iff. intros [b [Hx Hb]].
  destruct (Nat.eqb (Appointment._id b) (Appointment._id a)) eqn:E.
  - left; congruence.
  - right. subst x. apply Nat.eqb_neq in E. auto.
Qed.

Lemma findById_In db id a :
  findById db id = Some a -> In a (appointments db) /\ Appointment._id a = id.
Proof.
  unfold findById. intros H. apply find_some in H.
  destruct H as [H1 H2]. apply Nat.eqb_eq in H2. auto.
Qed.

Lemma saveNew_Ok_inv db a db' a' :
  saveNew db a = Ok (db', a') ->
  validateAppointment a = true
  /\ ~ In (Appointment._id a) (map Appointment._id (appointments db))
  /\ db' = mkDb (users db) (appointments db ++ [a])
  /\ a' = a.
Proof.
  unfold saveNew. destruct (validateAppointment a); simpl; [|discriminate].
  destruct (existsb _ (appointments db)) eqn:E; [discriminate|].
  intros H; injection H as <- <-. repeat split; trivial.
  intros Hin. apply in_map_iff in Hin. destruct Hin as [b [Hb Hin]].
  assert (Hex : existsb (fun b => Nat.eqb (Appointment._id b) (Appointment._id a))
                        (appointments db) = true).
  { apply existsb_exists. exists b. split; [assumption|]. now apply Nat.eqb_eq. }
  congruence.
Qed.

Lemma saveLoaded_Ok_inv db a db' a' :
  saveLoaded db a = Ok (db', a') ->
  validateAppointment a = true
  /\ db' = mkDb (users db) (replaceById a (appointments db))
  /\ a' = a.
Proof.
  unfold saveLoaded. destruct (validateAppointment a); simpl; [|discriminate].
  intros H; injection H as <- <-. auto.
Qed.

(** Inserting a document with a new id that overlaps no active appointment
    of its technician keeps the invariant. *)
Lemma insert_preserves db a :
  Invariant db ->
  ~ In (Appointment._id a) (map Appointment._id (appointments db)) ->
  (forall b, In b (appointments db) ->
             Appointment.technician b = Appointment.technician a ->
             active b = true -> active a = true ->
             ~ overlaps_spec (interval b) (interval a)) ->
  Invariant (mkDb (users db) (appointments db ++ [a])).
Proof.
  intros [Hu Hn] Hfresh Hfree. split.
  - unfold uniqueIds in *. simpl. rewrite map_app. simpl.
    apply NoDup_app; [assumption | repeat constructor; simpl; tauto |].
    intros i Hi [Hj|[]]. subst i. contradiction.
  - intros x y Hx Hy Hid Ht Hax Hay. simpl in Hx, Hy.
    apply in_app_or in Hx. apply in_app_or in Hy.
    destruct Hx as [Hx|[Hx|[]]], Hy as [Hy|[Hy|[]]].
    + now apply Hn.
    + subst y. now apply Hfree.
    + subst x. rewrite overlaps_spec_sym. apply Hfree; auto.
    + congruence.
Qed.

(** Replacing a stored document by one that overlaps no other active
    appointment of its technician keeps the invariant. *)
Lemma replace_preserves db a :
  Invariant db ->
  (forall b, In b (appointments db) ->
             Appointment._id b <> Appointment._id a ->
             Appointment.technician b = Appointment.technician a ->
             active b = true -> active a = true ->
             ~ overlaps_spec (interval b) (interval a)) ->
  Invariant (mkDb (users db) (replaceById a (appointments db))).
Proof.
  intros [Hu Hn] Hfree. split.
  - unfold uniqueIds in *. simpl. now rewrite replaceById_ids.
  - intros x y Hx Hy Hid Ht Hax Hay. simpl in Hx, Hy.
    apply In_replaceById in Hx. apply In_replaceById in Hy.
    destruct Hx as [Hx|[Hx Hx']], Hy as [Hy|[Hy Hy']].
    + congruence.
    + subst x. rewrite overlaps_spec_sym. apply Hfree; auto.
    + subst y. now apply Hfree.
    + now apply Hn.
Qed.

(** ** The handlers, case by case *)

Lemma createAppointment_Ok_inv newId user body db db' a :
  createAppointment newId user body db = Ok (db', a) ->
  (exists technician,
      checkTechnicianAvailability db (CreateBody.technicianId body)
        (CreateBody.startTime body) (CreateBody.endTime body) None = Ok technician)
  /\ Appointment._id a = newId
  /\ Appointment.technician a = CreateBody.technicianId body
  /\ interval a = (CreateBody.startTime body, CreateBody.endTime body)
  /\ Appointment.status a = Status.scheduled
  /\ Appointment.estimatedDuration a =
       Some (if falsyNumber (CreateBody.estimatedDuration body)
             then Math_round_div (CreateBody.endTime body - CreateBody.startTime body)
                                 msPerMinute
             else orElse (CreateBody.estimatedDuration body) 0)
  /\ validateAppointment a = true
  /\ ~ In newId (map Appointment._id (appointments db))
  /\ db' = mkDb (users db) (appointments db ++ [a]).
Proof.
  unfold createAppointment. intros H.
  apply bind_Ok in H. destruct H as [t [Hc Hs]].
  apply saveNew_Ok_inv in Hs. destruct Hs as [Hv [Hf [Hd Ha]]].
  subst a. repeat split; eauto.
Qed.

Lemma updateAppointment_Ok_inv now user appointmentId body db db' a' :
  updateAppointment now user appointmentId body db = Ok (db', a') ->
  exists a,
    findById db appointmentId = Some a
    /\ hasAccess user a = true
    /\ (isSome (UpdateBody.startTime body) || isSome (UpdateBody.endTime body) = true ->
        exists technician,
          checkTechnicianAvailability db (Appointment.technician a)
            (orElse (UpdateBody.startTime body) (Appointment.startTime a))
            (orElse (UpdateBody.endTime body) (Appointment.endTime a))
            (Some (Appointment._id a)) = Ok technician)
    /\ Appointment._id a' = Appointment._id a
    /\ Appointment.technician a' = Appointment.technician a
    /\ interval a' = (orElse (UpdateBody.startTime body) (Appointment.startTime a),
                      orElse (UpdateBody.endTime body) (Appointment.endTime a))
    /\ Appointment.status a' = orElse (UpdateBody.status body) (Appointment.status a)
    /\ validateAppointment a' = true
    /\ db' = mkDb (users db) (replaceById a' (appointments db)).
Proof.
  unfold updateAppointment. intros H.
  destruct (findById db appointmentId) as [a|] eqn:Hf; [|discriminate].
  exists a. split; [reflexivity|].
  destruct (hasAccess user a); cbn [negb] in H; [|discriminate]. split; [reflexivity|].
  destruct (negb (Role.eqb (ReqUser.role user) Role.admin)
            && Status.includes [Status.completed; Status.canceled] (Appointment.status a));
    [discriminate|].
  apply bind_Ok in H. destruct H as [[] [Hc Hs]].
  apply saveLoaded_Ok_inv in Hs. destruct Hs as [Hv [Hd Ha]].
  split.
  { intros Ht. rewrite Ht in Hc.
    destruct (negb (Role.eqb (ReqUser.role user) Role.admin) && _); [discriminate|].
    apply bind_Ok in Hc. destruct Hc as [t [Hc _]]. eauto. }
  subst a'. rewrite Hd.
  destruct (match UpdateBody.status body with
            | Some s => Status.eqb s Status.completed
            | None => false
            end && falsyNumber (UpdateBody.actualDuration body));
    simpl; repeat split; auto.
Qed.

(** What a route accepts, its handler accepts: the middlewares only
    refuse. *)
Lemma postAppointment_Ok now newId user body db r :
  postAppointment now newId user body db = Ok r ->
  createAppointmentSchema now body = true
  /\ createAppointment newId user body db = Ok r.
Proof.
  unfold postAppointment. destruct (negb (_ || _)); [discriminate|].
  destruct (createAppointmentSchema now body); simpl; [auto | discriminate].
Qed.

Lemma putAppointment_Ok now user appointmentId body db r :
  putAppointment now user appointmentId body db = Ok r ->
  updateAppointmentSchema body = true
  /\ updateAppointment now user appointmentId body db = Ok r.
Proof.
  unfold putAppointment.
  destruct (updateAppointmentSchema body); simpl; [auto | discriminate].
Qed.

Lemma patchCancel_Ok now user appointmentId body db r :
  patchCancel now user appointmentId body db = Ok r ->
  cancelAppointment now user appointmentId body db = Ok r.
Proof.
  unfold patchCancel.
  destruct (cancelAppointmentSchema body); simpl; [auto | discriminate].
Qed.

(** ** No double booking *)

Lemma create_preserves newId user body db db' a :
  Invariant db ->
  createAppointment newId user body db = Ok (db', a) ->
  Invariant db'.
Proof.
  intros Hinv H. apply createAppointment_Ok_inv in H.
  destruct H as [[t Hc] [Hid [Ht [Hi [_ [_ [_ [Hfresh ->]]]]]]]].
  apply check_Ok_inv in Hc. destruct Hc as [_ [_ Hq]].
  apply insert_preserves; [assumption | congruence |].
  intros b Hb Hbt Hba _ Hov. specialize (Hq b Hb).
  assert (Hq' : conflictQuery (CreateBody.technicianId body) (CreateBody.startTime body)
                  (CreateBody.endTime body) None b = true).
  { apply conflictQuery_true. rewrite <- Hi. repeat split; try apply Hov; congruence. }
  congruence.
Qed.

Lemma checked_update_preserves now user appointmentId body db db' a' :
  Invariant db ->
  isSome (UpdateBody.startTime body) || isSome (UpdateBody.endTime body) = true ->
  updateAppointment now user appointmentId body db = Ok (db', a') ->
  Invariant db'.
Proof.
  intros Hinv Htimes H. apply updateAppointment_Ok_inv in H.
  destruct H as [a [Hf [_ [Hc [Hid [Ht [Hi [_ [_ ->]]]]]]]]].
  destruct (Hc Htimes) as [t Hck]. apply check_Ok_inv in Hck.
  destruct Hck as [_ [_ Hq]].
  apply replace_preserves; [assumption|].
  intros b Hb Hbid Hbt Hba _ Hov. specialize (Hq b Hb).
  assert (Hq' : conflictQuery (Appointment.technician a)
                  (orElse (UpdateBody.startTime body) (Appointment.startTime a))
                  (orElse (UpdateBody.endTime body) (Appointment.endTime a))
                  (Some (Appointment._id a)) b = true).
  { apply conflictQuery_true. rewrite <- Hi. repeat split; try apply Hov; congruence. }
  congruence.
Qed.

Lemma checkedStep_preserves db db' :
  Invariant db -> checkedStep db db' -> Invariant db'.
Proof.
  intros Hinv [newId user body db1 a H | now user id body db1 a Ht H].
  - eapply create_preserves; eassumption.
  - eapply checked_update_preserves; eassumption.
Qed.

(** A store without appointments satisfies the invariant. *)
Lemma Invariant_no_appointments us : Invariant (mkDb us []).
Proof.
  split; [constructor | intros a b []].
Qed.

(** C1.  No double booking: from a store in which no two active appointments
    (status neither canceled nor completed) of one technician overlap, every
    sequence of creates and of updates on which [checkTechnicianAvailability]
    ran and passed leads to a store in which, again, the ids are unique and
    no two active appointments of one technician overlap.  Execution is
    sequential: each operation sees the store that the one before left. *)
Theorem no_double_booking (db0 db : Db) :
  Invariant db0 -> reachable db0 db -> Invariant db.
Proof.
  intros H0 Hr. induction Hr as [|db1 db2 Hr IH Hs]; [assumption|].
  eapply checkedStep_preserves; eassumption.
Qed.

Lemma no_double_booking_witness :
  map interval (appointments threeSteps)
    = [(at_ jan2 8 0, at_ jan2 9 0); (at_ jan2 10 0, at_ jan2 11 0)]
  /\ Invariant threeSteps.
Proof.
  split; [vm_compute; reflexivity|].
  apply (no_double_booking emptyCalendar threeSteps).
  - apply Invariant_no_appointments.
  - eapply reach_step; [eapply reach_step; [eapply reach_step; [apply reach_refl|]|]|].
    + eapply step_create with (newId := 10%nat) (user := theClient)
        (body := createBody 3%nat (at_ jan2 9 0) (at_ jan2 10 0) None).
      vm_compute. reflexivity.
    + eapply step_create with (newId := 11%nat) (user := theClient)
        (body := createBody 3%nat (at_ jan2 10 0) (at_ jan2 11 0) None).
      vm_compute. reflexivity.
    + eapply step_update with (now := jan1) (user := theClient) (appointmentId := 10%nat)
        (body := timesBody (at_ jan2 8 0) (at_ jan2 9 0)).
      * reflexivity.
      * vm_compute. reflexivity.
Defined.

(** The other writes.  A cancel keeps the invariant. *)
Lemma cancel_preserves reason now user appointmentId db db' a' :
  Invariant db ->
  cancelWith reason now user appointmentId db = Ok (db', a') ->
  Invariant db'.
Proof.
  intros Hinv H. unfold cancelWith in H.
  destruct (findById db appointmentId) as [a|]; [|discriminate].
  destruct (negb (hasAccess user a)); [discriminate|].
  destruct (Status.eqb (Appointment.status a) Status.canceled); [discriminate|].
  destruct (negb (Role.eqb (ReqUser.role user) Role.admin) && _); [discriminate|].
  injection H as <- <-. apply replace_preserves; [assumption|].
  intros b _ _ _ _ Ha. discriminate Ha.
Qed.

(** An update that names no time field runs no check; it keeps the invariant
    when it does not turn a canceled or completed appointment into an
    active one. *)
Lemma unchecked_update_preserves now user appointmentId body db db' a' a :
  Invariant db ->
  isSome (UpdateBody.startTime body) || isSome (UpdateBody.endTime body) = false ->
  findById db appointmentId = Some a ->
  (active a = true \/ active a' = false) ->
  updateAppointment now user appointmentId body db = Ok (db', a') ->
  Invariant db'.
Proof.
  intros Hinv Htimes Hf Hact H. apply updateAppointment_Ok_inv in H.
  destruct H as [a0 [Hf0 [_ [_ [Hid [Ht [Hi [_ [_ ->]]]]]]]]].
  rewrite Hf in Hf0. injection Hf0 as <-.
  apply orb_false_iff in Htimes. destruct Htimes as [Hs He].
  destruct (UpdateBody.startTime body); [discriminate|].
  destruct (UpdateBody.endTime body); [discriminate|]. simpl in Hi.
  apply replace_preserves; [assumption|].
  intros b Hb Hbid Hbt Hba Ha'. destruct Hact as [Ha|Ha]; [|congruence].
  apply findById_In in Hf. destruct Hf as [Hin _].
  destruct Hinv as [_ Hn]. rewrite Hi. apply (Hn b a); auto; congruence.
Qed.

(** Such a reactivation is possible: an administrator sets the canceled
    appointment of [canceledUnderScheduled] back to scheduled, no time field
    is named, no check runs, and two active appointments overlap. *)
Lemma unchecked_reactivation_overlaps :
  Invariant canceledUnderScheduled
  /\ ~ Invariant
        (db_after canceledUnderScheduled
           (updateAppointment jan1 theAdmin 10%nat (statusBody Status.scheduled)
              canceledUnderScheduled)).
Proof.
  split.
  - split.
    + unfold uniqueIds. simpl. repeat constructor; simpl; intuition discriminate.
    + intros a b Ha Hb Hid Ht Haa Hab. simpl in Ha, Hb.
      destruct Ha as [<-|[<-|[]]], Hb as [<-|[<-|[]]];
        simpl in *; try congruence; discriminate.
  - intros [_ Hn]. vm_compute in Hn.
    refine (Hn (sampleAppointment 10%nat 2%nat 3%nat (at_ jan2 9 0) (at_ jan2 10 0)
                  Status.scheduled)
               (sampleAppointment 11%nat 2%nat 3%nat (at_ jan2 9 0) (at_ jan2 10 0)
                  Status.scheduled) _ _ _ _ _ _ _);
      vm_compute; try tauto; try reflexivity; try discriminate.
Qed.

(** ** The overlap predicate of the conflict checker *)

(** A request that touches an appointment just created is not held back by
    it: if it could be created before, it can be created after. *)
Lemma touching_create_not_blocked idX idY userX userY bodyX bodyY db :
  CreateBody.endTime bodyX = CreateBody.startTime bodyY
  \/ CreateBody.endTime bodyY = CreateBody.startTime bodyX ->
  idX <> idY ->
  notBlockedBy idX idY userX userY bodyX bodyY db.
Proof.
  intros Htouch Hids dbX x y0 HX HY.
  apply createAppointment_Ok_inv in HX.
  destruct HX as [_ [Hxid [Hxt [Hxi [Hxs [_ [_ [_ ->]]]]]]]].
  unfold createAppointment in *.
  apply bind_Ok in HY. destruct HY as [t [Hc Hs]].
  destruct y0 as [dbY y']. apply saveNew_Ok_inv in Hs.
  destruct Hs as [Hv [Hfresh [_ _]]].
  apply check_Ok_inv in Hc. destruct Hc as [Ht [Hav Hq]].
  set (y := newAppointment idY userY bodyY) in *.
  exists (mkDb (users db) ((appointments db ++ [x]) ++ [y])), y.
  split; [|split; [|split; [|split]]].
  - rewrite (check_Ok_intro _ _ _ _ _ t); [| exact Ht | exact Hav |].
    + simpl. unfold saveNew. rewrite Hv. simpl.
      destruct (existsb _ (appointments db ++ [x])) eqn:Ex; [|reflexivity].
      apply existsb_exists in Ex. destruct Ex as [b [Hb Hbid]].
      apply Nat.eqb_eq in Hbid. apply in_app_or in Hb.
      destruct Hb as [Hb|[Hb|[]]].
      * exfalso. apply Hfresh. apply in_map_iff. eauto.
      * subst b. simpl in Hbid. congruence.
    + simpl. intros b Hb. apply in_app_or in Hb. destruct Hb as [Hb|[Hb|[]]].
      * now apply Hq.
      * subst b.
        destruct (conflictQuery (CreateBody.technicianId bodyY)
                    (CreateBody.startTime bodyY) (CreateBody.endTime bodyY) None x)
          eqn:Eq; [|reflexivity].
        apply conflictQuery_true in Eq. destruct Eq as [_ [_ [[H1 H2] _]]].
        rewrite Hxi in H1, H2. simpl in H1, H2. lia.
  - simpl. apply in_or_app. left. apply in_or_app. right. now left.
  - simpl. apply in_or_app. right. now left.
  - apply active_status. rewrite Hxs. split; discriminate.
  - reflexivity.
Qed.

(** A create succeeds when its check passes, the document it builds passes
    the validators of the schema, and the id drawn is not taken. *)
Lemma createAppointment_Ok_intro newId user body db technician :
  checkTechnicianAvailability db (CreateBody.technicianId body)
    (CreateBody.startTime body) (CreateBody.endTime body) None = Ok technician ->
  validateAppointment (newAppointment newId user body) = true ->
  ~ In newId (map Appointment._id (appointments db)) ->
  createAppointment newId user body db
  = Ok (mkDb (users db) (appointments db ++ [newAppointment newId user body]),
        newAppointment newId user body).
Proof.
  intros Hc Hv Hfresh. unfold createAppointment. rewrite Hc. cbn [bind].
  unfold saveNew. rewrite Hv. cbn [negb].
  destruct (existsb _ (appointments db)) eqn:Ex; [|reflexivity].
  apply existsb_exists in Ex. destruct Ex as [b [Hb Hbid]].
  apply Nat.eqb_eq in Hbid. exfalso. apply Hfresh. apply in_map_iff. eauto.
Qed.

(** The check against a calendar that holds one active appointment of the
    technician. *)
Lemma check_against_one us technician (a : Appointment.t) s e :
  find (fun u => Nat.eqb (User._id u) (Appointment.technician a)
                 && Role.eqb (User.role u) Role.technician
                 && User.isActive u) us = Some technician ->
  User.availability technician = Availability.available ->
  active a = true ->
  checkTechnicianAvailability (mkDb us [a]) (Appointment.technician a) s e None
  = if (Appointment.startTime a <? e) && (Appointment.endTime a >? s)
    then Fail (SchedulingConflict (Appointment.startTime a) (Appointment.endTime a))
    else Ok technician.
Proof.
  intros Hf Hav Ha. unfold checkTechnicianAvailability, findTechnician.
  cbn [users appointments]. rewrite Hf, Hav. cbn [Availability.eqb negb filter].
  unfold conflictQuery. fold (active a). rewrite Nat.eqb_refl, Ha. cbn [andb].
  rewrite andb_true_r.
  destruct ((Appointment.startTime a <? e) && (Appointment.endTime a >? s)); reflexivity.
Qed.

(** C2.  Let the technician of the appointments [a] and [b] be found and
    available, both appointments be active and have their end after their
    start.  The conflict query selects [a] against the interval of [b]
    exactly when [a.start < b.end] and [b.start < a.end], with strict
    inequalities, and gives the same answer with [a] and [b] exchanged.  The
    check itself, against a calendar that holds [a], fails with the conflict
    [a] when the two overlap in this sense and passes when they do not; in
    any store it reports a conflict exactly when some stored active
    appointment of the technician overlaps the interval.  When [a] ends at
    the instant [b] starts neither conflicts with the other, and both are
    created: if each request passes the check against what is stored, builds
    a document that passes the validators of the schema and draws an id that
    is not taken, then creating one and then the other succeeds, in either
    order, and both are stored. *)
Theorem conflict_iff_strict_overlap (db : Db) (technician : User.t)
    (a b : Appointment.t) :
  findTechnician db (Appointment.technician b) = Some technician ->
  User.availability technician = Availability.available ->
  Appointment.endTime a > Appointment.startTime a ->
  Appointment.endTime b > Appointment.startTime b ->
  Appointment.technician a = Appointment.technician b ->
  active a = true -> active b = true ->
  (conflictQuery (Appointment.technician b) (Appointment.startTime b)
     (Appointment.endTime b) None a = true
   <-> Appointment.startTime a < Appointment.endTime b
       /\ Appointment.startTime b < Appointment.endTime a)
  /\ conflictQuery (Appointment.technician b) (Appointment.startTime b)
       (Appointment.endTime b) None a
     = conflictQuery (Appointment.technician a) (Appointment.startTime a)
         (Appointment.endTime a) None b
  /\ (Appointment.startTime a < Appointment.endTime b
      /\ Appointment.startTime b < Appointment.endTime a ->
      checkTechnicianAvailability (mkDb (users db) [a]) (Appointment.technician b)
        (Appointment.startTime b) (Appointment.endTime b) None
      = Fail (SchedulingConflict (Appointment.startTime a) (Appointment.endTime a))
      /\ checkTechnicianAvailability (mkDb (users db) [b]) (Appointment.technician a)
           (Appointment.startTime a) (Appointment.endTime a) None
         = Fail (SchedulingConflict (Appointment.startTime b) (Appointment.endTime b)))
  /\ (~ (Appointment.startTime a < Appointment.endTime b
         /\ Appointment.startTime b < Appointment.endTime a) ->
      checkTechnicianAvailability (mkDb (users db) [a]) (Appointment.technician b)
        (Appointment.startTime b) (Appointment.endTime b) None = Ok technician
      /\ checkTechnicianAvailability (mkDb (users db) [b]) (Appointment.technician a)
           (Appointment.startTime a) (Appointment.endTime a) None = Ok technician)
  /\ ((exists cs ce,
          checkTechnicianAvailability db (Appointment.technician b)
            (Appointment.startTime b) (Appointment.endTime b) None
          = Fail (SchedulingConflict cs ce))
      <-> exists c, In c (appointments db)
                    /\ Appointment.technician c = Appointment.technician b
                    /\ active c = true
                    /\ Appointment.startTime c < Appointment.endTime b
                    /\ Appointment.startTime b < Appointment.endTime c)
  /\ (Appointment.endTime a = Appointment.startTime b ->
      conflictQuery (Appointment.technician b) (Appointment.startTime b)
        (Appointment.endTime b) None a = false
      /\ conflictQuery (Appointment.technician a) (Appointment.startTime a)
           (Appointment.endTime a) None b = false
      /\ forall idA idB userA userB bodyA bodyB,
           requestOf a bodyA -> requestOf b bodyB -> idA <> idB ->
           notBlockedBy idA idB userA userB bodyA bodyB db
           /\ notBlockedBy idB idA userB userA bodyB bodyA db
           /\ (checkTechnicianAvailability db (Appointment.technician a)
                 (Appointment.startTime a) (Appointment.endTime a) None = Ok technician ->
               checkTechnicianAvailability db (Appointment.technician b)
                 (Appointment.startTime b) (Appointment.endTime b) None = Ok technician ->
               validateAppointment (newAppointment idA userA bodyA) = true ->
               validateAppointment (newAppointment idB userB bodyB) = true ->
               ~ In idA (map Appointment._id (appointments db)) ->
               ~ In idB (map Appointment._id (appointments db)) ->
               (exists dbA x dbAB y,
                   createAppointment idA userA bodyA db = Ok (dbA, x)
                   /\ createAppointment idB userB bodyB dbA = Ok (dbAB, y)
                   /\ interval x = interval a /\ interval y = interval b
                   /\ In x (appointments dbAB) /\ In y (appointments dbAB))
               /\ (exists dbB y dbBA x,
                      createAppointment idB userB bodyB db = Ok (dbB, y)
                      /\ createAppointment idA userA bodyA dbB = Ok (dbBA, x)
                      /\ interval x = interval a /\ interval y = interval b
                      /\ In x (appointments dbBA) /\ In y (appointments dbBA)))).
Proof.
  intros Hfind Hav Ha Hb Ht Haa Hab.
  assert (Hiff : forall x y : Appointment.t,
             Appointment.technician x = Appointment.technician y ->
             active x = true ->
             (conflictQuery (Appointment.technician y) (Appointment.startTime y)
                (Appointment.endTime y) None x = true
              <-> Appointment.startTime x < Appointment.endTime y
                  /\ Appointment.startTime y < Appointment.endTime x)).
  { intros x y Hxy Hx. rewrite conflictQuery_true. unfold overlaps_spec, interval. simpl.
    split; [tauto|]. intros H. repeat split; try tauto; try assumption. discriminate. }
  assert (Hsym : conflictQuery (Appointment.technician b) (Appointment.startTime b)
                   (Appointment.endTime b) None a
                 = conflictQuery (Appointment.technician a) (Appointment.startTime a)
                     (Appointment.endTime a) None b).
  { apply eq_true_iff_eq. rewrite (Hiff a b Ht Haa), (Hiff b a (eq_sym Ht) Hab). tauto. }
  assert (HfindA : findTechnician db (Appointment.technician a) = Some technician)
    by (now rewrite Ht).
  assert (HoneA : forall s e,
             checkTechnicianAvailability (mkDb (users db) [a]) (Appointment.technician b)
               s e None
             = if (Appointment.startTime a <? e) && (Appointment.endTime a >? s)
               then Fail (SchedulingConflict (Appointment.startTime a)
                                             (Appointment.endTime a))
               else Ok technician).
  { intros s e. rewrite <- Ht. now apply check_against_one. }
  assert (HoneB : forall s e,
             checkTechnicianAvailability (mkDb (users db) [b]) (Appointment.technician a)
               s e None
             = if (Appointment.startTime b <? e) && (Appointment.endTime b >? s)
               then Fail (SchedulingConflict (Appointment.startTime b)
                                             (Appointment.endTime b))
               else Ok technician).
  { intros s e. rewrite Ht. now apply check_against_one. }
  split; [apply Hiff; assumption|]. split; [exact Hsym|].
  split; [|split; [|split]].
  - intros [H1 H2]. rewrite HoneA, HoneB.
    replace (Appointment.startTime a <? Appointment.endTime b) with true
      by (symmetry; now apply Z.ltb_lt).
    replace (Appointment.endTime a >? Appointment.startTime b) with true
      by (symmetry; apply Z.gtb_gt; lia).
    replace (Appointment.startTime b <? Appointment.endTime a) with true
      by (symmetry; now apply Z.ltb_lt).
    replace (Appointment.endTime b >? Appointment.startTime a) with true
      by (symmetry; apply Z.gtb_gt; lia).
    split; reflexivity.
  - intros Hno. rewrite HoneA, HoneB.
    assert (E1 : (Appointment.startTime a <? Appointment.endTime b)
                 && (Appointment.endTime a >? Appointment.startTime b) = false).
    { apply not_true_iff_false. rewrite andb_true_iff, Z.ltb_lt, Z.gtb_gt. lia. }
    assert (E2 : (Appointment.startTime b <? Appointment.endTime a)
                 && (Appointment.endTime b >? Appointment.startTime a) = false).
    { apply not_true_iff_false. rewrite andb_true_iff, Z.ltb_lt, Z.gtb_gt. lia. }
    rewrite E1, E2. split; reflexivity.
  - split.
    + intros [cs [ce H]]. apply check_conflict_inv in H.
      destruct H as [c [Hc [Hq _]]]. apply conflictQuery_true in Hq.
      destruct Hq as [H1 [H2 [[H3 H4] _]]]. exists c. simpl in H3, H4. auto.
    + intros [c [Hc [H1 [H2 [H3 H4]]]]].
      destruct (checkTechnicianAvailability db (Appointment.technician b)
                  (Appointment.startTime b) (Appointment.endTime b) None)
        as [t|f] eqn:E.
      * apply check_Ok_inv in E. destruct E as [_ [_ Hq]]. specialize (Hq c Hc).
        apply not_true_iff_false in Hq. exfalso. apply Hq.
        apply conflictQuery_true. repeat split; auto. discriminate.
      * unfold checkTechnicianAvailability in E. rewrite Hfind, Hav in E.
        cbn [Availability.eqb negb] in E.
        destruct (filter _ (appointments db)) as [|c0 rest]; [discriminate|].
        injection E as <-. eauto.
  - intros Htouch.
    assert (Hno : conflictQuery (Appointment.technician b) (Appointment.startTime b)
                    (Appointment.endTime b) None a = false).
    { apply not_true_iff_false. rewrite (Hiff a b Ht Haa). lia. }
    split; [exact Hno|]. split; [rewrite <- Hsym; exact Hno|].
    intros idA idB userA userB bodyA bodyB [HtA [HsA HeA]] [HtB [HsB HeB]] Hid.
    assert (HnbA : notBlockedBy idA idB userA userB bodyA bodyB db)
      by (apply touching_create_not_blocked; auto; left; congruence).
    assert (HnbB : notBlockedBy idB idA userB userA bodyB bodyA db)
      by (apply touching_create_not_blocked; auto; right; congruence).
    split; [exact HnbA|]. split; [exact HnbB|].
    intros HcA HcB HvA HvB HfA HfB.
    rewrite <- HtA, <- HsA, <- HeA in HcA. rewrite <- HtB, <- HsB, <- HeB in HcB.
    pose proof (createAppointment_Ok_intro idA userA bodyA db technician HcA HvA HfA)
      as EA.
    pose proof (createAppointment_Ok_intro idB userB bodyB db technician HcB HvB HfB)
      as EB.
    assert (HiA : interval (newAppointment idA userA bodyA) = interval a)
      by (unfold interval; simpl; congruence).
    assert (HiB : interval (newAppointment idB userB bodyB) = interval b)
      by (unfold interval; simpl; congruence).
    split.
    + destruct (HnbA _ _ _ EA EB) as [dbAB [y [Hy [Hx [Hy' _]]]]].
      pose proof Hy as Hy0. apply createAppointment_Ok_inv in Hy0.
      destruct Hy0 as [_ [_ [_ [Hiy _]]]].
      eexists. eexists. exists dbAB, y. split; [exact EA|]. split; [exact Hy|].
      split; [exact HiA|]. split; [|auto].
      rewrite Hiy. unfold interval. congruence.
    + destruct (HnbB _ _ _ EB EA) as [dbBA [x [Hx [Hy [Hx' _]]]]].
      pose proof Hx as Hx0. apply createAppointment_Ok_inv in Hx0.
      destruct Hx0 as [_ [_ [_ [Hix _]]]].
      eexists. eexists. exists dbBA, x. split; [exact EB|]. split; [exact Hx|].
      split; [|split; [exact HiB|auto]].
      rewrite Hix. unfold interval. congruence.
Qed.

(** On the empty calendar of technician 3: 09:00-10:00 and 10:00-11:00 are
    both created, one after the other, and a second request for 09:00-10:00
    against the calendar that holds the first is refused with it. *)
Lemma conflict_iff_strict_overlap_witness :
  (exists dbA x dbAB y,
      createAppointment 10%nat theClient
        (createBody 3%nat (at_ jan2 9 0) (at_ jan2 10 0) None) emptyCalendar
        = Ok (dbA, x)
      /\ createAppointment 11%nat theClient
           (createBody 3%nat (at_ jan2 10 0) (at_ jan2 11 0) None) dbA = Ok (dbAB, y)
      /\ interval x = (at_ jan2 9 0, at_ jan2 10 0)
      /\ interval y = (at_ jan2 10 0, at_ jan2 11 0)
      /\ In x (appointments dbAB) /\ In y (appointments dbAB))
  /\ checkTechnicianAvailability
       (mkDb (users emptyCalendar)
             [newAppointment 10%nat theClient
                (createBody 3%nat (at_ jan2 9 0) (at_ jan2 10 0) None)])
       3%nat (at_ jan2 9 0) (at_ jan2 10 0) None
     = Fail (SchedulingConflict (at_ jan2 9 0) (at_ jan2 10 0)).
Proof.
  split.
  - destruct (conflict_iff_strict_overlap emptyCalendar (sampleTechnician 3%nat)
                (newAppointment 10%nat theClient
                   (createBody 3%nat (at_ jan2 9 0) (at_ jan2 10 0) None))
                (newAppointment 11%nat theClient
                   (createBody 3%nat (at_ jan2 10 0) (at_ jan2 11 0) None))
                eq_refl eq_refl eq_refl eq_refl eq_refl eq_refl eq_refl)
      as [_ [_ [_ [_ [_ H]]]]].
    destruct (H eq_refl) as [_ [_ H2]].
    destruct (H2 10%nat 11%nat theClient theClient
                (createBody 3%nat (at_ jan2 9 0) (at_ jan2 10 0) None)
                (createBody 3%nat (at_ jan2 10 0) (at_ jan2 11 0) None))
      as [_ [_ H3]]; [repeat split | repeat split | discriminate |].
    apply (H3 eq_refl eq_refl eq_refl eq_refl); simpl; tauto.
  - destruct (conflict_iff_strict_overlap emptyCalendar (sampleTechnician 3%nat)
                (newAppointment 10%nat theClient
                   (createBody 3%nat (at_ jan2 9 0) (at_ jan2 10 0) None))
                (newAppointment 12%nat theClient
                   (createBody 3%nat (at_ jan2 9 0) (at_ jan2 10 0) None))
                eq_refl eq_refl eq_refl eq_refl eq_refl eq_refl eq_refl)
      as [_ [_ [H _]]].
    apply H. split; reflexivity.
Defined.

(** Both are created, one after the other, on an empty calendar. *)
Example touching_appointments_both_created :
  exists db1 a db2 b,
    createAppointment 10%nat theClient
      (createBody 3%nat (at_ jan2 9 0) (at_ jan2 10 0) None) emptyCalendar = Ok (db1, a)
    /\ createAppointment 11%nat theClient
         (createBody 3%nat (at_ jan2 10 0) (at_ jan2 11 0) None) db1 = Ok (db2, b)
    /\ map interval (appointments db2)
       = [(at_ jan2 9 0, at_ jan2 10 0); (at_ jan2 10 0, at_ jan2 11 0)].
Proof.
  do 4 eexists. split; [vm_compute; reflexivity|].
  split; vm_compute; reflexivity.
Qed.

(** ** The day's appointments *)





(** ** Derived duration *)

(** [Math_round_div n d] is the integer nearest to n/d, a tie going up. *)
Lemma Math_round_div_nearest (n d : Z) :
  0 < d ->
  2 * d * Math_round_div n d - d <= 2 * n < 2 * d * Math_round_div n d + d.
Proof.
  intros Hd. unfold Math_round_div.
  pose proof (Z.div_mod (2 * n + d) (2 * d) ltac:(lia)) as E.
  pose proof (Z.mod_pos_bound (2 * n + d) (2 * d) ltac:(lia)) as B.
  lia.
Qed.

Lemma find_app_fresh (f : Appointment.t -> bool) l a :
  (forall b, In b l -> f b = false) -> f a = true -> find f (l ++ [a]) = Some a.
Proof.
  intros Hl Ha. induction l as [|b l IH]; simpl.
  - now rewrite Ha.
  - rewrite (Hl b (or_introl eq_refl)). apply IH. intros c Hc. apply Hl. now right.
Qed.

(** C8.  Every create that succeeds (so the conflict check passed) on a
    request without [estimatedDuration] stores an appointment whose
    [estimatedDuration] is round((endTime - startTime) / 60000), the nearest
    whole number of minutes, a half rounding up. *)
Theorem estimated_duration_derived newId user body db db' a :
  CreateBody.estimatedDuration body = None ->
  createAppointment newId user body db = Ok (db', a) ->
  let minutes :=
    Math_round_div (CreateBody.endTime body - CreateBody.startTime body) 60000 in
  findById db' newId = Some a
  /\ Appointment.estimatedDuration a = Some minutes
  /\ 60000 * minutes - 30000
     <= CreateBody.endTime body - CreateBody.startTime body
     < 60000 * minutes + 30000.
Proof.
  intros Hnone H minutes.
  apply createAppointment_Ok_inv in H.
  destruct H as [_ [Hid [_ [_ [_ [Hd [_ [Hfresh ->]]]]]]]].
  rewrite Hnone in Hd. simpl in Hd.
  split; [|split; [exact Hd|]].
  - unfold findById. simpl. apply find_app_fresh.
    + intros b Hb. apply Nat.eqb_neq. intros E. apply Hfresh.
      apply in_map_iff. eauto.
    + now apply Nat.eqb_eq.
  - pose proof (Math_round_div_nearest
                  (CreateBody.endTime body - CreateBody.startTime body) 60000
                  ltac:(lia)) as B.
    fold minutes in B. lia.
Qed.

(** Start 2024-01-01T09:00Z, end 2024-01-01T10:30Z: 90 minutes. *)
Lemma estimated_duration_derived_witness :
  exists db' a,
    createAppointment 10%nat theClient
      (createBody 3%nat (at_ jan1 9 0) (at_ jan1 10 30) None) emptyCalendar
      = Ok (db', a)
    /\ findById db' 10%nat = Some a
    /\ Appointment.estimatedDuration a = Some 90.
Proof.
  eexists. eexists.
  assert (E : createAppointment 10%nat theClient
                (createBody 3%nat (at_ jan1 9 0) (at_ jan1 10 30) None) emptyCalendar
              = Ok (db_after emptyCalendar
                      (createAppointment 10%nat theClient
                         (createBody 3%nat (at_ jan1 9 0) (at_ jan1 10 30) None)
                         emptyCalendar),
                    newAppointment 10%nat theClient
                      (createBody 3%nat (at_ jan1 9 0) (at_ jan1 10 30) None)))
    by (vm_compute; reflexivity).
  split; [exact E|].
  destruct (estimated_duration_derived 10%nat theClient
              (createBody 3%nat (at_ jan1 9 0) (at_ jan1 10 30) None)
              emptyCalendar _ _ eq_refl E) as [H1 [H2 _]].
  split; [exact H1 | exact H2].
Defined.

(** The derived value is what the virtual [duration] of the schema
    returns for the stored document. *)
Lemma estimate_is_virtual_duration newId user body db db' a :
  CreateBody.estimatedDuration body = None ->
  createAppointment newId user body db = Ok (db', a) ->
  Appointment.estimatedDuration a = Some (Appointment.duration a).
Proof.
  intros Hnone H. apply createAppointment_Ok_inv in H.
  destruct H as [_ [_ [_ [Hi [_ [Hd _]]]]]].
  rewrite Hnone in Hd. simpl in Hd. rewrite Hd.
  unfold Appointment.duration. injection Hi as -> ->. reflexivity.
Qed.




(** The two bounds are met: 14 min 30 s is stored with 15 minutes and one
    millisecond less is refused; 8 h 0 min 29.999 s is stored with 480
    minutes and one millisecond more is refused. *)
Lemma derived_duration_bounds_met :
  let create len :=
    createAppointment 10%nat theClient
      (createBody 3%nat (at_ jan2 9 0) (at_ jan2 9 0 + len) None) emptyCalendar in
  (exists db' a, create 870000 = Ok (db', a)
                 /\ Appointment.estimatedDuration a = Some 15)
  /\ create 869999 = Fail ValidationError
  /\ (exists db' a, create 28829999 = Ok (db', a)
                    /\ Appointment.estimatedDuration a = Some 480)
  /\ create 28830000 = Fail ValidationError.
Proof.
  cbv zeta. split; [|split; [|split]].
  - eexists. eexists. split; vm_compute; reflexivity.
  - vm_compute. reflexivity.
  - eexists. eexists. split; vm_compute; reflexivity.
  - vm_compute. reflexivity.
Qed.

(** ** Terminal states *)

(** C3, as stated, fails: the client of a no-show appointment changes its
    notes and the update is accepted. *)
Lemma terminal_updates_rejected_counterexample :
  ~ terminal_updates_rejected_as_stated.
Proof.
  intros H.
  specialize (H jan1 theClient 10%nat (notesBody "late") (oneAppointment Status.no_show)
                (sampleAppointment 10%nat 2%nat 3%nat (at_ jan2 9 0) (at_ jan2 10 0)
                   Status.no_show)
                eq_refl eq_refl ltac:(discriminate)).
  vm_compute in H. discriminate H.
Qed.

(** What the update does there: it stores the new notes. *)
Example no_show_update_accepted :
  exists db' a',
    updateAppointment jan1 theClient 10%nat (notesBody "late")
      (oneAppointment Status.no_show) = Ok (db', a')
    /\ Appointment.notes a' = Some "late"
    /\ Appointment.status a' = Status.no_show.
Proof.
  do 2 eexists. split; [vm_compute; reflexivity|]. split; reflexivity.
Qed.

(** C3, amended.  For every appointment whose status is completed or
    canceled, every update by a non-administrator who is its client or its
    technician is rejected with [ImmutableState], every update by another
    non-administrator with [AccessDenied], and the store is left as it was;
    an administrator's update is never rejected with [ImmutableState],
    whatever the status. *)
Theorem completed_or_canceled_updates_rejected now user appointmentId body db a :
  findById db appointmentId = Some a ->
  (Appointment.status a = Status.completed \/ Appointment.status a = Status.canceled ->
   ReqUser.role user <> Role.admin ->
   (hasAccess user a = true ->
    updateAppointment now user appointmentId body db = Fail ImmutableState)
   /\ (hasAccess user a = false ->
       updateAppointment now user appointmentId body db = Fail AccessDenied)
   /\ db_after db (updateAppointment now user appointmentId body db) = db)
  /\ (ReqUser.role user = Role.admin ->
      updateAppointment now user appointmentId body db <> Fail ImmutableState).
Proof.
  intros Hf. split.
  - intros Hst Hrole.
    pose proof (Role_eqb_neq _ _ Hrole) as Hadm.
    assert (Hin : Status.includes [Status.completed; Status.canceled]
                    (Appointment.status a) = true).
    { destruct Hst as [-> | ->]; reflexivity. }
    unfold updateAppointment. rewrite Hf, Hadm, Hin.
    destruct (hasAccess user a); simpl; repeat split; congruence.
  - intros Hrole. unfold updateAppointment. rewrite Hf.
    assert (Hacc : hasAccess user a = true) by (unfold hasAccess; now rewrite Hrole).
    rewrite Hacc, Hrole. cbn [negb Role.eqb andb].
    destruct (isSome (UpdateBody.startTime body) || isSome (UpdateBody.endTime body)).
    + destruct (checkTechnicianAvailability db _ _ _ _) eqn:Ec.
      * cbn [bind]. unfold saveLoaded. destruct (negb _); discriminate.
      * cbn [bind]. intros E. injection E as ->.
        unfold checkTechnicianAvailability in Ec.
        destruct (findTechnician db _); [|discriminate].
        destruct (negb _); [discriminate|].
        destruct (filter _ _); discriminate.
    + cbn [bind]. unfold saveLoaded. destruct (negb _); discriminate.
Qed.

Lemma completed_or_canceled_updates_rejected_witness :
  updateAppointment jan1 theClient 10%nat (notesBody "late")
    (oneAppointment Status.completed) = Fail ImmutableState.
Proof.
  refine (proj1 (proj1 (completed_or_canceled_updates_rejected jan1 theClient 10%nat
                          (notesBody "late") (oneAppointment Status.completed)
                          (sampleAppointment 10%nat 2%nat 3%nat (at_ jan2 9 0)
                             (at_ jan2 10 0) Status.completed) eq_refl)
                   (or_introl eq_refl) _) eq_refl).
  discriminate.
Defined.

(** The administrator's update of the notes of a completed appointment is
    accepted. *)
Example admin_update_of_completed_accepted :
  exists db' a',
    updateAppointment jan1 theAdmin 10%nat (notesBody "late")
      (oneAppointment Status.completed) = Ok (db', a')
    /\ Appointment.notes a' = Some "late".
Proof.
  do 2 eexists. split; [vm_compute; reflexivity | reflexivity].
Qed.

(** ** Cancellation *)

Lemma cancelWith_unfold reason now user appointmentId db a :
  findById db appointmentId = Some a ->
  hasAccess user a = true ->
  cancelWith reason now user appointmentId db =
  if Status.eqb (Appointment.status a) Status.canceled then Fail AlreadyCanceled
  else if negb (Role.eqb (ReqUser.role user) Role.admin)
          && (now >? Appointment.startTime a - 24 * 60 * 60 * 1000)
  then Fail CancellationWindowExpired
  else Ok (mkDb (users db)
             (replaceById (setCanceled reason now (ReqUser.userId user) a)
                          (appointments db)),
           setCanceled reason now (ReqUser.userId user) a).
Proof.
  intros Hf Hacc. unfold cancelWith. rewrite Hf, Hacc. reflexivity.
Qed.

(** C5, as stated, fails: 23 hours before the start, a customer who is not
    the client of the appointment is answered "Access denied", not with the
    expired window. *)
Lemma cancellation_window_counterexample :
  ~ cancellation_window_as_stated.
Proof.
  intros H.
  destruct (H (at_ jan1 10 0) aStranger 10%nat noReason (oneAppointment Status.scheduled)
              (sampleAppointment 10%nat 2%nat 3%nat (at_ jan2 9 0) (at_ jan2 10 0)
                 Status.scheduled)
              eq_refl ltac:(discriminate) ltac:(discriminate)) as [_ H2].
  assert (Hlate : ~ at_ jan1 10 0 <= at_ jan2 9 0 - 24 * msPerHour)
    by (vm_compute; intros E; apply E; reflexivity).
  specialize (H2 Hlate). vm_compute in H2. discriminate H2.
Qed.

(** C5, amended.  For every cancel request on a non-canceled appointment by
    an actor with access to it (its client, its technician or an
    administrator): a non-administrator's cancel succeeds, setting the status
    to canceled, exactly when [now <= startTime - 24h], and otherwise fails
    with [CancellationWindowExpired] and leaves the store as it was; an
    administrator's cancel succeeds at any time. *)
Theorem cancellation_window now user appointmentId body db a :
  findById db appointmentId = Some a ->
  Appointment.status a <> Status.canceled ->
  hasAccess user a = true ->
  (ReqUser.role user <> Role.admin ->
   (now <= Appointment.startTime a - 24 * msPerHour ->
    exists db' a',
      cancelAppointment now user appointmentId body db = Ok (db', a')
      /\ Appointment.status a' = Status.canceled
      /\ Appointment._id a' = Appointment._id a)
   /\ (~ now <= Appointment.startTime a - 24 * msPerHour ->
       cancelAppointment now user appointmentId body db = Fail CancellationWindowExpired
       /\ db_after db (cancelAppointment now user appointmentId body db) = db))
  /\ (ReqUser.role user = Role.admin ->
      exists db' a',
        cancelAppointment now user appointmentId body db = Ok (db', a')
        /\ Appointment.status a' = Status.canceled
        /\ Appointment._id a' = Appointment._id a).
Proof.
  intros Hf Hst Hacc. unfold cancelAppointment.
  rewrite (cancelWith_unfold _ _ _ _ _ _ Hf Hacc).
  pose proof (Status_eqb_neq _ _ Hst) as Hnc.
  rewrite Hnc. split.
  - intros Hrole.
    pose proof (Role_eqb_neq _ _ Hrole) as Hadm.
    rewrite Hadm. cbn [negb andb]. unfold msPerHour. split.
    + intros Hearly.
      assert (E : (now >? Appointment.startTime a - 24 * 60 * 60 * 1000) = false).
      { apply not_true_iff_false. rewrite Z.gtb_gt. lia. }
      rewrite E. do 2 eexists. split; [reflexivity|]. split; reflexivity.
    + intros Hlate.
      assert (E : (now >? Appointment.startTime a - 24 * 60 * 60 * 1000) = true).
      { rewrite Z.gtb_gt. lia. }
      rewrite E. split; reflexivity.
  - intros Hrole. rewrite Hrole. cbn [Role.eqb negb andb].
    do 2 eexists. split; [reflexivity|]. split; reflexivity.
Qed.

(** 23 hours before the start: the client is refused, the administrator is
    not. *)
Lemma cancellation_window_witness :
  cancelAppointment (at_ jan1 10 0) theClient 10%nat noReason
    (oneAppointment Status.scheduled) = Fail CancellationWindowExpired
  /\ exists db' a',
       cancelAppointment (at_ jan1 10 0) theAdmin 10%nat noReason
         (oneAppointment Status.scheduled) = Ok (db', a')
       /\ Appointment.status a' = Status.canceled.
Proof.
  split.
  - refine (proj1 (proj2 (proj1 (cancellation_window (at_ jan1 10 0) theClient 10%nat
             noReason (oneAppointment Status.scheduled)
             (sampleAppointment 10%nat 2%nat 3%nat (at_ jan2 9 0) (at_ jan2 10 0)
                Status.scheduled) eq_refl _ eq_refl) _) _)).
    + discriminate.
    + discriminate.
    + vm_compute. intros E. apply E. reflexivity.
  - destruct (proj2 (cancellation_window (at_ jan1 10 0) theAdmin 10%nat
             noReason (oneAppointment Status.scheduled)
             (sampleAppointment 10%nat 2%nat 3%nat (at_ jan2 9 0) (at_ jan2 10 0)
                Status.scheduled) eq_refl ltac:(discriminate) eq_refl) eq_refl)
      as [db' [a' [H1 [H2 _]]]].
    exists db', a'. split; assumption.
Defined.

(** C9, as stated, fails: a customer who is not the client of a canceled
    appointment is answered "Access denied". *)
Lemma already_canceled_counterexample :
  ~ already_canceled_as_stated.
Proof.
  intros H.
  specialize (H jan1 aStranger 10%nat noReason (oneAppointment Status.canceled)
                (sampleAppointment 10%nat 2%nat 3%nat (at_ jan2 9 0) (at_ jan2 10 0)
                   Status.canceled)
                eq_refl eq_refl).
  vm_compute in H. discriminate H.
Qed.

(** C9, amended.  For every appointment whose status is canceled, a cancel
    request by an actor with access to it (its client, its technician or an
    administrator) fails with [AlreadyCanceled], one by any other actor with
    [AccessDenied]; either way the request is rejected and the store is left
    as it was, however often it is repeated. *)
Theorem already_canceled now user appointmentId body db a :
  findById db appointmentId = Some a ->
  Appointment.status a = Status.canceled ->
  (hasAccess user a = true ->
   cancelAppointment now user appointmentId body db = Fail AlreadyCanceled)
  /\ (hasAccess user a = false ->
      cancelAppointment now user appointmentId body db = Fail AccessDenied)
  /\ (exists f, cancelAppointment now user appointmentId body db = Fail f)
  /\ db_after db (cancelAppointment now user appointmentId body db) = db.
Proof.
  intros Hf Hst. unfold cancelAppointment, cancelWith. rewrite Hf, Hst.
  destruct (hasAccess user a); simpl; repeat split; try congruence; eauto.
Qed.

Lemma already_canceled_witness :
  cancelAppointment jan1 theAdmin 10%nat noReason (oneAppointment Status.canceled)
    = Fail AlreadyCanceled
  /\ cancelAppointment jan1 theClient 10%nat noReason (oneAppointment Status.canceled)
    = Fail AlreadyCanceled.
Proof.
  split.
  - exact (proj1 (already_canceled jan1 theAdmin 10%nat noReason
                    (oneAppointment Status.canceled)
                    (sampleAppointment 10%nat 2%nat 3%nat (at_ jan2 9 0) (at_ jan2 10 0)
                       Status.canceled) eq_refl eq_refl) eq_refl).
  - exact (proj1 (already_canceled jan1 theClient 10%nat noReason
                    (oneAppointment Status.canceled)
                    (sampleAppointment 10%nat 2%nat 3%nat (at_ jan2 9 0) (at_ jan2 10 0)
                       Status.canceled) eq_refl eq_refl) eq_refl).
Defined.

(** ** Self-update *)

(** An update fails with a conflict only when its check does, and the check
    only runs for an administrator or on a status that is neither completed
    nor canceled. *)
Lemma updateAppointment_conflict_inv now user appointmentId body db s e :
  updateAppointment now user appointmentId body db = Fail (SchedulingConflict s e) ->
  exists a,
    findById db appointmentId = Some a
    /\ (ReqUser.role user = Role.admin \/ active a = true)
    /\ checkTechnicianAvailability db (Appointment.technician a)
         (orElse (UpdateBody.startTime body) (Appointment.startTime a))
         (orElse (UpdateBody.endTime body) (Appointment.endTime a))
         (Some (Appointment._id a)) = Fail (SchedulingConflict s e).
Proof.
  unfold updateAppointment. intros H.
  destruct (findById db appointmentId) as [a|]; [|discriminate].
  exists a. split; [reflexivity|].
  destruct (negb (hasAccess user a)); [discriminate|].
  destruct (Role.eqb (ReqUser.role user) Role.admin) eqn:Hadm.
  - cbn [negb andb] in H. split; [left; now apply Role_eqb_eq|].
    destruct (isSome (UpdateBody.startTime body) || isSome (UpdateBody.endTime body)).
    + destruct (checkTechnicianAvailability db _ _ _ _) as [t|f].
      * cbn [bind] in H. unfold saveLoaded in H. destruct (negb _); discriminate.
      * cbn [bind] in H. congruence.
    + cbn [bind] in H. unfold saveLoaded in H. destruct (negb _); discriminate.
  - cbn [negb andb] in H.
    destruct (Status.includes [Status.completed; Status.canceled] (Appointment.status a))
      eqn:Hst; [discriminate|].
    split.
    { right. apply active_status. destruct (Appointment.status a); simpl in Hst;
        split; congruence. }
    destruct (isSome (UpdateBody.startTime body) || isSome (UpdateBody.endTime body)).
    + destruct (_ <? now); [discriminate|].
      destruct (checkTechnicianAvailability db _ _ _ _) as [t|f].
      * cbn [bind] in H. unfold saveLoaded in H. destruct (negb _); discriminate.
      * cbn [bind] in H. congruence.
    + cbn [bind] in H. unfold saveLoaded in H. destruct (negb _); discriminate.
Qed.

(** C6, as stated, fails: in [canceledUnderScheduled] the invariant holds,
    and the administrator's update of the canceled appointment to the times
    it has is rejected with a conflict, against the scheduled appointment of
    the same hour. *)
Lemma self_update_passes_counterexample :
  ~ self_update_passes_as_stated.
Proof.
  intros H.
  apply (H jan1 theAdmin 10%nat canceledUnderScheduled
           (sampleAppointment 10%nat 2%nat 3%nat (at_ jan2 9 0) (at_ jan2 10 0)
              Status.canceled)
           (proj1 unchecked_reactivation_overlaps) eq_refl
           (at_ jan2 9 0) (at_ jan2 10 0)).
  vm_compute. reflexivity.
Qed.

(** C6, amended.  A stored appointment is never selected by the conflict
    query that excludes its id, in any state and whatever its status.  In a
    state where the invariant holds, for a stored appointment whose status is
    neither canceled nor completed, the query for the times it has selects no
    document at all: the check never reports a conflict and succeeds whenever
    the technician is still found and available, and an update to the same
    times never fails with [SchedulingConflict] (for a non-administrator this
    holds whatever the status). *)
Theorem self_update_no_conflict now user appointmentId db a :
  findById db appointmentId = Some a ->
  conflictQuery (Appointment.technician a) (Appointment.startTime a)
    (Appointment.endTime a) (Some (Appointment._id a)) a = false
  /\ (noDoubleBooking db ->
      active a = true \/ ReqUser.role user <> Role.admin ->
      (active a = true ->
       (forall b, In b (appointments db) ->
                  conflictQuery (Appointment.technician a) (Appointment.startTime a)
                    (Appointment.endTime a) (Some (Appointment._id a)) b = false)
       /\ (forall s e,
              checkTechnicianAvailability db (Appointment.technician a)
                (Appointment.startTime a) (Appointment.endTime a)
                (Some (Appointment._id a)) <> Fail (SchedulingConflict s e))
       /\ (forall technician,
              findTechnician db (Appointment.technician a) = Some technician ->
              User.availability technician = Availability.available ->
              checkTechnicianAvailability db (Appointment.technician a)
                (Appointment.startTime a) (Appointment.endTime a)
                (Some (Appointment._id a)) = Ok technician))
      /\ forall s e,
          updateAppointment now user appointmentId
            (timesBody (Appointment.startTime a) (Appointment.endTime a)) db
          <> Fail (SchedulingConflict s e)).
Proof.
  intros Hf.
  assert (Hself : conflictQuery (Appointment.technician a) (Appointment.startTime a)
                    (Appointment.endTime a) (Some (Appointment._id a)) a = false).
  { apply not_true_iff_false. rewrite conflictQuery_true. tauto. }
  split; [exact Hself|]. intros Hn Hor.
  destruct (findById_In _ _ _ Hf) as [Hin Hid].
  assert (Hnone : active a = true ->
                  forall b, In b (appointments db) ->
                    conflictQuery (Appointment.technician a) (Appointment.startTime a)
                      (Appointment.endTime a) (Some (Appointment._id a)) b = false).
  { intros Ha b Hb. apply not_true_iff_false. rewrite conflictQuery_true.
    intros [Ht [Hb' [Hov Hex]]].
    apply (Hn b a Hb Hin); auto; congruence. }
  assert (Hcheck : active a = true -> forall s e,
             checkTechnicianAvailability db (Appointment.technician a)
               (Appointment.startTime a) (Appointment.endTime a)
               (Some (Appointment._id a)) <> Fail (SchedulingConflict s e)).
  { intros Ha s e Hc. apply check_conflict_inv in Hc.
    destruct Hc as [c [Hc [Hq _]]]. rewrite (Hnone Ha c Hc) in Hq. discriminate. }
  split.
  - intros Ha. split; [exact (Hnone Ha)|]. split; [exact (Hcheck Ha)|].
    intros t Ht Hav. apply check_Ok_intro; auto.
  - intros s e Hu. apply updateAppointment_conflict_inv in Hu.
    destruct Hu as [a0 [Hf0 [Hadm Hc]]]. rewrite Hf in Hf0. injection Hf0 as <-.
    simpl in Hc.
    assert (Ha : active a = true).
    { destruct Hadm as [Hr|Ha']; [|exact Ha'].
      destruct Hor as [Ha'|Hna]; [exact Ha' | contradiction]. }
    exact (Hcheck Ha s e Hc).
Qed.

Lemma twoTouching_noDoubleBooking : noDoubleBooking twoTouching.
Proof.
  intros a b Ha Hb Hid _ _ _ [H1 H2]. simpl in Ha, Hb.
  destruct Ha as [<-|[<-|[]]], Hb as [<-|[<-|[]]];
    try congruence; vm_compute in H1, H2; discriminate.
Qed.

(** The client confirms the times of the 09:00-10:00 appointment while the
    next one starts at 10:00: no conflict. *)
Lemma self_update_no_conflict_witness :
  checkTechnicianAvailability twoTouching 3%nat (at_ jan2 9 0) (at_ jan2 10 0)
    (Some 10%nat) = Ok (sampleTechnician 3%nat)
  /\ forall s e,
       updateAppointment jan1 theClient 10%nat
         (timesBody (at_ jan2 9 0) (at_ jan2 10 0)) twoTouching
       <> Fail (SchedulingConflict s e).
Proof.
  destruct (proj2 (self_update_no_conflict jan1 theClient 10%nat twoTouching
                     (sampleAppointment 10%nat 2%nat 3%nat (at_ jan2 9 0) (at_ jan2 10 0)
                        Status.scheduled) eq_refl)
                  twoTouching_noDoubleBooking (or_introl eq_refl)) as [H1 H2].
  split; [|exact H2].
  exact (proj2 (proj2 (H1 eq_refl)) (sampleTechnician 3%nat) eq_refl eq_refl).
Defined.

(** ** Booked slots *)

(** The two examples of the specification: an appointment from 09:00 to
    11:30 books 09:00, 10:00 and 11:00; one from 09:00 to 11:00 books 09:00
    and 10:00. *)
Example slots_of_the_specification :
  getAvailability 3%nat jan2 (calendarWith (at_ jan2 9 0) (at_ jan2 11 30))
    = Ok (mkSlots ["09:00"; "10:00"; "11:00"]
                  ["12:00"; "13:00"; "14:00"; "15:00"; "16:00"])
  /\ getAvailability 3%nat jan2 (calendarWith (at_ jan2 9 0) (at_ jan2 11 0))
      = Ok (mkSlots ["09:00"; "10:00"]
                    ["11:00"; "12:00"; "13:00"; "14:00"; "15:00"; "16:00"]).
Proof.
  split; vm_compute; reflexivity.
Qed.

Lemma includes_In (l : list string) (s : string) :
  includes l s = true <-> In s l.
Proof.
  unfold includes. rewrite existsb_exists. split.
  - intros [x [Hx E]]. apply String.eqb_eq in E. now subst.
  - intros H. exists s. split; [assumption | apply String.eqb_refl].
Qed.

Lemma In_add (x s : string) (set : list string) :
  In s (add x set) <-> In s set \/ s = x.
Proof.
  unfold add. destruct (includes set x) eqn:E.
  - apply includes_In in E. split; [tauto|]. intros [H| ->]; assumption.
  - rewrite in_app_iff. simpl. intuition congruence.
Qed.

(** The loop ends after [bound + 1 - hour] rounds: more rounds change
    nothing. *)
Lemma forHours_rounds (n : nat) : forall (hour bound : Z) (acc : list string),
  (Z.to_nat (bound + 1 - hour) <= n)%nat ->
  forHours n hour bound acc
  = forHours (Z.to_nat (bound + 1 - hour)) hour bound acc.
Proof.
  induction n as [|n IH]; intros hour bound acc Hn.
  - replace (Z.to_nat (bound + 1 - hour)) with O by lia. reflexivity.
  - destruct (Z_le_gt_dec hour bound) as [Hle|Hgt].
    + replace (Z.to_nat (bound + 1 - hour))
        with (S (Z.to_nat (bound + 1 - (hour + 1)))) by lia.
      simpl. destruct (hour <=? bound); [|reflexivity].
      apply IH. lia.
    + replace (Z.to_nat (bound + 1 - hour)) with O by lia.
      simpl. apply Z.gt_lt, Z.leb_gt in Hgt. now rewrite Hgt.
Qed.

(** What the loop adds: the labels of the hours from [hour] to [bound] that
    are working hours. *)
Lemma forHours_In (n : nat) : forall (hour bound : Z) (acc : list string) (s : string),
  (Z.to_nat (bound + 1 - hour) <= n)%nat ->
  (In s (forHours n hour bound acc)
   <-> In s acc
       \/ exists h, hour <= h <= bound /\ timeSlot h = s /\ In s workingHours).
Proof.
  induction n as [|n IH]; intros hour bound acc s Hn; simpl.
  - split; [tauto|]. intros [H|[h [Hh _]]]; [assumption | lia].
  - destruct (hour <=? bound) eqn:E.
    + apply Z.leb_le in E. rewrite IH by lia.
      assert (Hacc : In s (if includes workingHours (timeSlot hour)
                           then add (timeSlot hour) acc else acc)
                     <-> In s acc \/ (timeSlot hour = s /\ In s workingHours)).
      { destruct (includes workingHours (timeSlot hour)) eqn:Ei.
        - apply includes_In in Ei. rewrite In_add. split.
          + intros [H| ->]; auto.
          + intros [H|[H _]]; auto.
        - split; [tauto|]. intros [H|[H1 H2]]; [assumption|].
          subst s. apply includes_In in H2. congruence. }
      rewrite Hacc. split.
      * intros [[H|[H1 H2]]|[h [Hh H]]]; auto.
        -- right. exists hour. split; [lia | auto].
        -- right. exists h. split; [lia | auto].
      * intros [H|[h [Hh [H1 H2]]]]; auto.
        destruct (Z.eq_dec h hour) as [->|Hne]; [left; right; auto|].
        right. exists h. split; [lia | auto].
    + apply Z.leb_gt in E. split; [tauto|]. intros [H|[h [Hh _]]]; [assumption | lia].
Qed.

Lemma hourOfSlot_timeSlot (hour : Z) :
  0 <= hour <= 23 -> hourOfSlot (timeSlot hour) = Some hour.
Proof.
  intros H.
  assert (E : exists n, (n < 24)%nat /\ hour = Z.of_nat n)
    by (exists (Z.to_nat hour); lia).
  destruct E as [n [Hn ->]].
  do 24 (destruct n as [|n]; [vm_compute; reflexivity|]). lia.
Qed.

Lemma UTC_fields (k h m : Z) :
  0 <= h <= 23 -> 0 <= m <= 59 ->
  getUTCHours (at_ (k * msPerDay) h m) = h
  /\ getUTCMinutes (at_ (k * msPerDay) h m) = m.
Proof.
  intros Hh Hm. unfold getUTCHours, getUTCMinutes, at_, msPerDay, msPerHour, msPerMinute.
  split.
  - replace ((k * (24 * 60 * 60 * 1000) + h * (1000 * 60 * 60) + m * (1000 * 60))
             / (1000 * 60 * 60)) with (24 * k + h)
      by (apply Z.div_unique with (r := m * 60000); lia).
    symmetry. apply Z.mod_unique with (q := k); lia.
  - replace ((k * (24 * 60 * 60 * 1000) + h * (1000 * 60 * 60) + m * (1000 * 60))
             / (1000 * 60)) with (60 * (24 * k + h) + m)
      by (apply Z.div_unique with (r := 0); lia).
    symmetry. apply Z.mod_unique with (q := 24 * k + h); lia.
Qed.

(** Within one UTC day the rule of the specification holds: for an
    appointment that starts at [sh:sm] and ends at [eh:em] of the same day,
    a working-hour slot is booked exactly when its start lies between the
    start of the appointment, taken down to its hour, and the end of the
    appointment (the end excluded).  With an end on the hour the slot of the
    end hour is not booked; with minutes past the hour it is. *)
Lemma same_day_slots (k sh sm eh em hour : Z) (id client tech : ObjectId)
    (st : Status.t) :
  0 <= sh <= 23 -> 0 <= sm <= 59 -> 0 <= eh <= 23 -> 0 <= em <= 59 ->
  0 <= hour <= 23 -> In (timeSlot hour) workingHours ->
  let day := k * msPerDay in
  In (timeSlot hour)
     (bookedSlotsOf [sampleAppointment id client tech (at_ day sh sm) (at_ day eh em) st])
  <-> at_ day sh 0 <= slotStart day hour < at_ day eh em.
Proof.
  intros Hsh Hsm Heh Hem Hh Hw day.
  unfold bookedSlotsOf. cbn [fold_left]. unfold markAppointment, sampleAppointment.
  cbn [Appointment.startTime Appointment.endTime]. fold day.
  destruct (UTC_fields k sh sm Hsh Hsm) as [E1 _].
  destruct (UTC_fields k eh em Heh Hem) as [E2 E3].
  fold day in E1, E2, E3. rewrite E1, E2, E3. clear E1 E2 E3.
  rewrite forHours_In by lia.
  assert (Hb : forall h, sh <= h <= (if em >? 0 then eh else eh - 1)
                         <-> at_ day sh 0 <= slotStart day h < at_ day eh em).
  { intros h. unfold at_, slotStart, msPerHour, msPerMinute.
    destruct (em >? 0) eqn:E;
      [apply Z.gtb_gt in E | rewrite Z.gtb_ltb in E; apply Z.ltb_ge in E]; lia. }
  split.
  - intros [[]|[h [Hr [Hs _]]]].
    assert (E : h = hour).
    { assert (Hh' : 0 <= h <= 23) by (destruct (em >? 0); lia).
      pose proof (hourOfSlot_timeSlot h Hh') as E1.
      pose proof (hourOfSlot_timeSlot hour Hh) as E2. congruence. }
    subst h. now apply Hb.
  - intros H. right. exists hour. split; [now apply Hb | auto].
Qed.

(** C4, where the code departs from it.  The loop runs over hours of the
    day, from the UTC hour of the start to the UTC hour of the end, whatever
    the dates.  An appointment that the day's filter selects and that ends on
    a later day than it starts has an end hour below its start hour, and
    books nothing:
    - 2024-01-02 16:00 to 2024-01-03 00:00, asked for 2024-01-02: the 16:00
      slot starts within the appointment and is not booked;
    - 2024-01-01 22:00 to 2024-01-02 10:30, asked for 2024-01-02: the 09:00
      and 10:00 slots start within the appointment and are not booked;
    - 2024-01-01 08:00 to 2024-01-03 09:00, which spans 2024-01-02: all eight
      slots, from 09:00 to 16:00, start within the appointment and none is
      booked. *)
Theorem booked_slots_ignore_the_date :
  (dayQuery 3%nat (setUTCHours jan2 0 0 0 0) (setUTCHours jan2 23 59 59 999)
     (sampleAppointment 10%nat 2%nat 3%nat (at_ jan2 16 0) (at_ jan2 24 0)
        Status.scheduled) = true
   /\ at_ jan2 16 0 <= slotStart jan2 16 < at_ jan2 24 0
   /\ getAvailability 3%nat jan2 (calendarWith (at_ jan2 16 0) (at_ jan2 24 0))
      = Ok (mkSlots [] workingHours))
  /\ (dayQuery 3%nat (setUTCHours jan2 0 0 0 0) (setUTCHours jan2 23 59 59 999)
        (sampleAppointment 10%nat 2%nat 3%nat (at_ jan1 22 0) (at_ jan2 10 30)
           Status.scheduled) = true
      /\ at_ jan1 22 0 <= slotStart jan2 9 < at_ jan2 10 30
      /\ at_ jan1 22 0 <= slotStart jan2 10 < at_ jan2 10 30
      /\ getAvailability 3%nat jan2 (calendarWith (at_ jan1 22 0) (at_ jan2 10 30))
         = Ok (mkSlots [] workingHours))
  /\ (dayQuery 3%nat (setUTCHours jan2 0 0 0 0) (setUTCHours jan2 23 59 59 999)
        (sampleAppointment 10%nat 2%nat 3%nat (at_ jan1 8 0)
           (at_ (jan2 + msPerDay) 9 0) Status.scheduled) = true
      /\ at_ jan1 8 0 <= slotStart jan2 9
      /\ slotStart jan2 16 < at_ (jan2 + msPerDay) 9 0
      /\ getAvailability 3%nat jan2
           (calendarWith (at_ jan1 8 0) (at_ (jan2 + msPerDay) 9 0))
         = Ok (mkSlots [] workingHours)).
Proof.
  repeat split; try (vm_compute; reflexivity); try (vm_compute; discriminate);
    unfold slotStart, at_, jan2, jan1, msPerDay, msPerHour, msPerMinute; lia.
Qed.

(** * Further properties of the appointment routes *)

(** ** The conflict checker *)

(** X1.  The check succeeds exactly when the technician is found (role
    technician, active), is flagged available, and no stored appointment of
    the technician with a status other than canceled and completed, other
    than the excluded one, overlaps the interval. *)
Theorem check_passes_iff db technicianId startTime endTime exclude technician :
  checkTechnicianAvailability db technicianId startTime endTime exclude = Ok technician
  <-> findTechnician db technicianId = Some technician
      /\ User.availability technician = Availability.available
      /\ forall b, In b (appointments db) ->
           ~ (Appointment.technician b = technicianId
              /\ active b = true
              /\ overlaps_spec (interval b) (startTime, endTime)
              /\ exclude <> Some (Appointment._id b)).
Proof.
  split.
  - intros H. apply check_Ok_inv in H. destruct H as [Ht [Ha Hq]].
    repeat split; auto. intros b Hb Hsel.
    apply conflictQuery_true in Hsel. rewrite (Hq b Hb) in Hsel. discriminate.
  - intros [Ht [Ha Hq]]. apply check_Ok_intro; auto.
    intros b Hb. apply not_true_iff_false. rewrite conflictQuery_true. now apply Hq.
Qed.

(** X2.  A check fails with a scheduling conflict exactly when the
    technician is found and available and the conflict query selects some
    stored document.  The interval reported is that of a selected document:
    one of the technician, active, other than the excluded one, overlapping
    the interval asked for.  When all selected documents have one interval,
    as when a single document is selected, the report is that interval;
    which selected document is reported otherwise is not said. *)
Theorem reported_conflict_is_selected db technicianId startTime endTime exclude :
  ((exists cs ce,
       checkTechnicianAvailability db technicianId startTime endTime exclude
       = Fail (SchedulingConflict cs ce))
   <-> (exists technician,
           findTechnician db technicianId = Some technician
           /\ User.availability technician = Availability.available)
       /\ exists c, In c (appointments db)
                    /\ conflictQuery technicianId startTime endTime exclude c = true)
  /\ (forall cs ce,
        checkTechnicianAvailability db technicianId startTime endTime exclude
        = Fail (SchedulingConflict cs ce) ->
        (exists c, In c (appointments db)
                   /\ interval c = (cs, ce)
                   /\ Appointment.technician c = technicianId
                   /\ active c = true
                   /\ overlaps_spec (cs, ce) (startTime, endTime)
                   /\ exclude <> Some (Appointment._id c))
        /\ forall c, In c (appointments db) ->
             conflictQuery technicianId startTime endTime exclude c = true ->
             (forall b, In b (appointments db) ->
                conflictQuery technicianId startTime endTime exclude b = true ->
                interval b = interval c) ->
             interval c = (cs, ce)).
Proof.
  split; [split|].
  - intros [cs [ce H]]. split.
    + unfold checkTechnicianAvailability in H.
      destruct (findTechnician db technicianId) as [t|]; [|discriminate].
      exists t. split; [reflexivity|].
      destruct (User.availability t); simpl in H; [reflexivity|discriminate..].
    + apply check_conflict_inv in H. destruct H as [c [Hc [Hq _]]]. eauto.
  - intros [[t [Ht Ha]] [c [Hc Hq]]].
    destruct (checkTechnicianAvailability db technicianId startTime endTime exclude)
      as [t'|f] eqn:E.
    + apply check_Ok_inv in E. destruct E as [_ [_ Hno]].
      rewrite (Hno c Hc) in Hq. discriminate.
    + unfold checkTechnicianAvailability in E. rewrite Ht, Ha in E.
      cbn [Availability.eqb negb] in E.
      destruct (filter _ (appointments db)) as [|c0 rest]; [discriminate|].
      injection E as <-. eauto.
  - intros cs ce H. apply check_conflict_inv in H.
    destruct H as [c [Hc [Hq Hi]]]. split.
    + pose proof Hq as Hq'. apply conflictQuery_true in Hq'.
      destruct Hq' as [Ht [Ha [Ho He]]]. rewrite Hi in Ho.
      exists c. repeat split; auto; apply Ho.
    + intros c' Hc' Hq' Hall. rewrite <- (Hall c Hc Hq). exact Hi.
Qed.

(** A request for 10:30-12:00 against 09:00-10:00 and 10:00-11:00: the
    second is the one selected, and the one reported. *)
Lemma reported_conflict_is_selected_witness :
  checkTechnicianAvailability twoTouching 3%nat (at_ jan2 10 30) (at_ jan2 12 0) None
  = Fail (SchedulingConflict (at_ jan2 10 0) (at_ jan2 11 0))
  /\ exists c, In c (appointments twoTouching)
               /\ interval c = (at_ jan2 10 0, at_ jan2 11 0)
               /\ Appointment.technician c = 3%nat
               /\ active c = true.
Proof.
  split; [reflexivity|].
  destruct (proj1 (proj2 (reported_conflict_is_selected twoTouching 3%nat
                            (at_ jan2 10 30) (at_ jan2 12 0) None)
                     (at_ jan2 10 0) (at_ jan2 11 0) eq_refl))
    as [c [Hc [Hi [Ht [Ha _]]]]].
  exists c. auto.
Defined.

(** X3.  The check is monotone in the interval: when it passes for an
    interval it passes for every interval inside it, for the same technician
    and exclusion. *)
Theorem check_monotone db technicianId s e s' e' exclude technician :
  s <= s' -> e' <= e ->
  checkTechnicianAvailability db technicianId s e exclude = Ok technician ->
  checkTechnicianAvailability db technicianId s' e' exclude = Ok technician.
Proof.
  intros Hs He H. apply check_Ok_inv in H. destruct H as [Ht [Ha Hq]].
  apply check_Ok_intro; auto. intros b Hb.
  apply not_true_iff_false. intros Hsel. specialize (Hq b Hb).
  apply not_true_iff_false in Hq. apply Hq.
  apply conflictQuery_true in Hsel. apply conflictQuery_true.
  destruct Hsel as [H1 [H2 [[H3 H4] H5]]]. simpl in H3, H4.
  repeat split; auto; simpl; lia.
Qed.

Lemma check_monotone_witness :
  checkTechnicianAvailability twoTouching 3%nat (at_ jan2 12 0) (at_ jan2 13 0) None
    = Ok (sampleTechnician 3%nat).
Proof.
  apply (check_monotone twoTouching 3%nat (at_ jan2 11 0) (at_ jan2 16 0)
           (at_ jan2 12 0) (at_ jan2 13 0) None (sampleTechnician 3%nat)).
  - vm_compute. discriminate.
  - vm_compute. discriminate.
  - reflexivity.
Defined.

(** X4.  The technician is looked at before any appointment.  When no
    active user of role technician has the id the check fails with
    [TechnicianNotFound], and when the technician found is not flagged
    available it fails with [TechnicianUnavailable], whatever the interval
    and the exclusion; a create for this technician fails the same way and
    stores nothing. *)
Theorem technician_gate db technicianId :
  (findTechnician db technicianId = None ->
   (forall s e exclude,
       checkTechnicianAvailability db technicianId s e exclude = Fail TechnicianNotFound)
   /\ forall newId user body,
        CreateBody.technicianId body = technicianId ->
        createAppointment newId user body db = Fail TechnicianNotFound)
  /\ (forall technician,
        findTechnician db technicianId = Some technician ->
        User.availability technician <> Availability.available ->
        (forall s e exclude,
            checkTechnicianAvailability db technicianId s e exclude
              = Fail TechnicianUnavailable)
        /\ forall newId user body,
             CreateBody.technicianId body = technicianId ->
             createAppointment newId user body db = Fail TechnicianUnavailable).
Proof.
  split.
  - intros Hn.
    assert (Hc : forall s e exclude,
               checkTechnicianAvailability db technicianId s e exclude
                 = Fail TechnicianNotFound).
    { intros. unfold checkTechnicianAvailability. now rewrite Hn. }
    split; [exact Hc|]. intros newId user body <-.
    unfold createAppointment. now rewrite Hc.
  - intros t Ht Hav.
    assert (Hc : forall s e exclude,
               checkTechnicianAvailability db technicianId s e exclude
                 = Fail TechnicianUnavailable).
    { intros. unfold checkTechnicianAvailability. rewrite Ht.
      destruct (User.availability t); try reflexivity. contradiction. }
    split; [exact Hc|]. intros newId user body <-.
    unfold createAppointment. now rewrite Hc.
Qed.

Lemma technician_gate_witness :
  createAppointment 10%nat theClient
    (createBody 3%nat (at_ jan2 9 0) (at_ jan2 10 0) None)
    (mkDb [User.mk 3%nat Role.technician true Availability.busy] [])
  = Fail TechnicianUnavailable
  /\ createAppointment 10%nat theClient
       (createBody 3%nat (at_ jan2 9 0) (at_ jan2 10 0) None)
       (mkDb [User.mk 3%nat Role.technician false Availability.available] [])
     = Fail TechnicianNotFound.
Proof.
  split.
  - apply (proj2 (proj2 (technician_gate
                           (mkDb [User.mk 3%nat Role.technician true Availability.busy] [])
                           3%nat)
                        (User.mk 3%nat Role.technician true Availability.busy)
                        eq_refl ltac:(discriminate))).
    reflexivity.
  - apply (proj2 (proj1 (technician_gate
                           (mkDb [User.mk 3%nat Role.technician false
                                    Availability.available] [])
                           3%nat) eq_refl)).
    reflexivity.
Defined.

(** ** Create *)

(** X5.  A successful create appends exactly one document and touches
    nothing else: the users and the earlier appointments are as before, the
    new document has an id that no earlier one has, the requester as client,
    status scheduled, priority medium unless one was given, an end after its
    start and an estimated duration within 15..480. *)
Theorem create_postconditions newId user body db db' a :
  createAppointment newId user body db = Ok (db', a) ->
  users db' = users db
  /\ appointments db' = (appointments db ++ [a])%list
  /\ ~ In newId (map Appointment._id (appointments db))
  /\ Appointment._id a = newId
  /\ Appointment.client a = ReqUser.userId user
  /\ Appointment.technician a = CreateBody.technicianId body
  /\ Appointment.status a = Status.scheduled
  /\ Appointment.priority a = orElse (CreateBody.priority body) Priority.medium
  /\ Appointment.endTime a > Appointment.startTime a
  /\ exists d, Appointment.estimatedDuration a = Some d /\ 15 <= d <= 480.
Proof.
  intros H. unfold createAppointment in H.
  apply bind_Ok in H. destruct H as [t [_ Hs]].
  apply saveNew_Ok_inv in Hs. destruct Hs as [Hv [Hf [-> ->]]].
  repeat split; try reflexivity; try exact Hf.
  - unfold validateAppointment in Hv. rewrite !andb_true_iff in Hv.
    destruct Hv as [[[[[[[Hv _] _] _] _] _] _] _]. now apply Z.gtb_gt.
  - unfold validateAppointment in Hv. rewrite !andb_true_iff in Hv.
    destruct Hv as [[[[[[[_ _] Hr] _] _] _] _] _].
    destruct (Appointment.estimatedDuration (newAppointment newId user body))
      as [d|] eqn:E; [|discriminate E].
    exists d. split; [reflexivity|]. simpl in Hr.
    rewrite andb_true_iff, !Z.leb_le in Hr. exact Hr.
Qed.

Lemma create_postconditions_witness :
  exists db' a,
    createAppointment 12%nat theClient
      (createBody 3%nat (at_ jan2 12 0) (at_ jan2 13 0) None) twoTouching = Ok (db', a)
    /\ appointments db' = (appointments twoTouching ++ [a])%list.
Proof.
  do 2 eexists.
  assert (E : createAppointment 12%nat theClient
                (createBody 3%nat (at_ jan2 12 0) (at_ jan2 13 0) None) twoTouching
              = Ok (db_after twoTouching
                      (createAppointment 12%nat theClient
                         (createBody 3%nat (at_ jan2 12 0) (at_ jan2 13 0) None)
                         twoTouching),
                    newAppointment 12%nat theClient
                      (createBody 3%nat (at_ jan2 12 0) (at_ jan2 13 0) None)))
    by (vm_compute; reflexivity).
  split; [exact E|].
  exact (proj1 (proj2 (create_postconditions _ _ _ _ _ _ E))).
Defined.

(** ** Update *)

Lemma updateAppointment_unfold now user appointmentId body db a :
  findById db appointmentId = Some a ->
  hasAccess user a = true ->
  (ReqUser.role user = Role.admin \/ active a = true) ->
  updateAppointment now user appointmentId body db
  = (_ <- updateTimeCheck now user body a db ;;
     saveLoaded db (updatedDocument body a)).
Proof.
  intros Hf Hacc Hor. unfold updateAppointment. rewrite Hf, Hacc.
  assert (Hg : negb (Role.eqb (ReqUser.role user) Role.admin)
               && Status.includes [Status.completed; Status.canceled]
                    (Appointment.status a) = false).
  { destruct Hor as [Hr|Ha].
    - rewrite Hr. reflexivity.
    - apply andb_false_iff. right. apply active_status in Ha.
      destruct (Appointment.status a); simpl; try reflexivity; destruct Ha; congruence. }
  cbn [negb]. rewrite Hg. reflexivity.
Qed.

Lemma updateAppointment_Ok_shape now user appointmentId body db db' a' :
  updateAppointment now user appointmentId body db = Ok (db', a') ->
  exists a,
    findById db appointmentId = Some a
    /\ hasAccess user a = true
    /\ (ReqUser.role user = Role.admin \/ active a = true)
    /\ updateTimeCheck now user body a db = Ok tt
    /\ a' = updatedDocument body a
    /\ validateAppointment a' = true
    /\ db' = mkDb (users db) (replaceById a' (appointments db)).
Proof.
  intros H. pose proof H as H0. unfold updateAppointment in H.
  destruct (findById db appointmentId) as [a|] eqn:Hf; [|discriminate].
  exists a. split; [reflexivity|].
  destruct (hasAccess user a) eqn:Hacc; cbn [negb] in H; [|discriminate].
  split; [reflexivity|].
  assert (Hor : ReqUser.role user = Role.admin \/ active a = true).
  { destruct (Role.eqb (ReqUser.role user) Role.admin) eqn:Hr.
    - left. now apply Role_eqb_eq.
    - right. cbn [negb andb] in H.
      destruct (Status.includes [Status.completed; Status.canceled]
                  (Appointment.status a)) eqn:Hs; [discriminate|].
      unfold active.
      assert (E : Status.includes [Status.canceled; Status.completed]
                    (Appointment.status a) = false)
        by (destruct (Appointment.status a); simpl in *; congruence).
      now rewrite E. }
  split; [exact Hor|].
  rewrite (updateAppointment_unfold _ _ _ _ _ _ Hf Hacc Hor) in H0.
  apply bind_Ok in H0. destruct H0 as [[] [Hc Hs]].
  apply saveLoaded_Ok_inv in Hs. destruct Hs as [Hv [-> ->]]. auto.
Qed.

Lemma find_replaceById a' l a :
  find (fun b => Nat.eqb (Appointment._id b) (Appointment._id a')) l = Some a ->
  find (fun b => Nat.eqb (Appointment._id b) (Appointment._id a')) (replaceById a' l)
  = Some a'.
Proof.
  induction l as [|b l IH]; simpl; [discriminate|].
  destruct (Nat.eqb (Appointment._id b) (Appointment._id a')) eqn:E.
  - intros _. simpl. now rewrite Nat.eqb_refl.
  - intros H. simpl. rewrite E. now apply IH.
Qed.

Lemma In_replaceById_other a' l b :
  In b l -> Appointment._id b <> Appointment._id a' -> In b (replaceById a' l).
Proof.
  intros Hb Hne. unfold replaceById. apply in_map_iff. exists b.
  apply Nat.eqb_neq in Hne. now rewrite Hne.
Qed.

(** X6.  A successful update rewrites one document and leaves the rest of
    the store as it was: the users, the ids in their order and every
    appointment with another id are unchanged; the document keeps its id,
    client, technician, [canceledAt] and [canceledBy]; it passes the
    validators of the schema (so its end is after its start); and a lookup
    by its id returns it. *)
Theorem update_frame now user appointmentId body db db' a' :
  updateAppointment now user appointmentId body db = Ok (db', a') ->
  exists a,
    findById db appointmentId = Some a
    /\ sameIdentity a' a
    /\ Appointment.canceledAt a' = Appointment.canceledAt a
    /\ Appointment.canceledBy a' = Appointment.canceledBy a
    /\ users db' = users db
    /\ map Appointment._id (appointments db') = map Appointment._id (appointments db)
    /\ (forall b, In b (appointments db) ->
                  Appointment._id b <> appointmentId -> In b (appointments db'))
    /\ (forall b, In b (appointments db') -> b = a' \/ In b (appointments db))
    /\ findById db' appointmentId = Some a'
    /\ Appointment.endTime a' > Appointment.startTime a'.
Proof.
  intros H. apply updateAppointment_Ok_shape in H.
  destruct H as [a [Hf [_ [_ [_ [Ha' [Hv ->]]]]]]].
  destruct (findById_In _ _ _ Hf) as [Hin Hid].
  assert (Hsame : sameIdentity a' a /\
                  Appointment.canceledAt a' = Appointment.canceledAt a /\
                  Appointment.canceledBy a' = Appointment.canceledBy a).
  { subst a'. unfold updatedDocument.
    destruct (_ && _); repeat split; reflexivity. }
  destruct Hsame as [Hs [Hc1 Hc2]].
  assert (Hid' : Appointment._id a' = appointmentId) by (destruct Hs; congruence).
  exists a. repeat split; try apply Hs; auto.
  - simpl. apply replaceById_ids.
  - intros b Hb Hne. simpl. apply In_replaceById_other; congruence.
  - intros b Hb. simpl in Hb. apply In_replaceById in Hb. tauto.
  - unfold findById in *. simpl. rewrite <- Hid' in *.
    eapply find_replaceById. exact Hf.
  - unfold validateAppointment in Hv. rewrite !andb_true_iff in Hv.
    destruct Hv as [[[[[[[Hv _] _] _] _] _] _] _]. now apply Z.gtb_gt.
Qed.

Lemma update_frame_witness :
  exists db' a',
    updateAppointment jan1 theClient 10%nat
      (timesBody (at_ jan2 8 0) (at_ jan2 9 0)) twoTouching = Ok (db', a')
    /\ findById db' 10%nat = Some a'
    /\ map Appointment._id (appointments db') = [10%nat; 11%nat].
Proof.
  do 2 eexists.
  assert (E : updateAppointment jan1 theClient 10%nat
                (timesBody (at_ jan2 8 0) (at_ jan2 9 0)) twoTouching
              = Ok (db_after twoTouching
                      (updateAppointment jan1 theClient 10%nat
                         (timesBody (at_ jan2 8 0) (at_ jan2 9 0)) twoTouching),
                    sampleAppointment 10%nat 2%nat 3%nat (at_ jan2 8 0) (at_ jan2 9 0)
                      Status.scheduled))
    by (vm_compute; reflexivity).
  split; [exact E|].
  destruct (update_frame _ _ _ _ _ _ _ E) as [a [_ [_ [_ [_ [_ [Hids [_ [_ [Hf _]]]]]]]]]].
  split; [exact Hf | exact Hids].
Defined.

(** X7.  An update whose body sets the status to completed stores the
    length of the updated interval, in rounded minutes, as the actual
    duration when the body gives none, and also when it gives 0: an explicit
    0 is replaced.  A non-zero actual duration in the body is stored as it
    is. *)
Theorem completed_sets_actual_duration now user appointmentId body db db' a' :
  updateAppointment now user appointmentId body db = Ok (db', a') ->
  UpdateBody.status body = Some Status.completed ->
  Appointment.status a' = Status.completed
  /\ (UpdateBody.actualDuration body = None \/ UpdateBody.actualDuration body = Some 0 ->
      Appointment.actualDuration a' = Some (Appointment.duration a'))
  /\ (forall d, UpdateBody.actualDuration body = Some d -> d <> 0 ->
                Appointment.actualDuration a' = Some d).
Proof.
  intros H Hst. apply updateAppointment_Ok_shape in H.
  destruct H as [a [_ [_ [_ [_ [-> _]]]]]].
  unfold updatedDocument. rewrite Hst. cbn [Status.eqb andb].
  split; [|split].
  - destruct (falsyNumber _); simpl; now rewrite Hst.
  - intros [E|E]; rewrite E; reflexivity.
  - intros d E Hd. rewrite E. simpl.
    apply Z.eqb_neq in Hd. rewrite Hd. simpl. now rewrite E.
Qed.

Lemma completed_sets_actual_duration_witness :
  exists db' a',
    updateAppointment jan1 theClient 10%nat
      (UpdateBody.mk None None None None None (Some Status.completed) None (Some 0)
         None None None None None None) twoTouching = Ok (db', a')
    /\ Appointment.actualDuration a' = Some 60.
Proof.
  do 2 eexists.
  assert (E : updateAppointment jan1 theClient 10%nat
                (UpdateBody.mk None None None None None (Some Status.completed) None
                   (Some 0) None None None None None None) twoTouching
              = Ok (db_after twoTouching
                      (updateAppointment jan1 theClient 10%nat
                         (UpdateBody.mk None None None None None (Some Status.completed)
                            None (Some 0) None None None None None None) twoTouching),
                    updatedDocument
                      (UpdateBody.mk None None None None None (Some Status.completed)
                         None (Some 0) None None None None None None)
                      (sampleAppointment 10%nat 2%nat 3%nat (at_ jan2 9 0) (at_ jan2 10 0)
                         Status.scheduled)))
    by (vm_compute; reflexivity).
  split; [exact E|].
  exact (proj1 (proj2 (completed_sets_actual_duration _ _ _ _ _ _ _ E eq_refl))
           (or_intror eq_refl)).
Defined.

Lemma validateAppointment_status (a b : Appointment.t) :
  Appointment.startTime a = Appointment.startTime b ->
  Appointment.endTime a = Appointment.endTime b ->
  Appointment.notes a = Appointment.notes b ->
  Appointment.estimatedDuration a = Appointment.estimatedDuration b ->
  Appointment.cost a = Appointment.cost b ->
  Appointment.cancellationReason a = Appointment.cancellationReason b ->
  Appointment.completionNotes a = Appointment.completionNotes b ->
  Appointment.rating a = Appointment.rating b ->
  Appointment.feedback a = Appointment.feedback b ->
  validateAppointment a = validateAppointment b.
Proof.
  intros. unfold validateAppointment. congruence.
Qed.

(** X8.  The 24-hour window guards the cancel routes only.  A client or
    technician of an appointment that is neither canceled nor completed, and
    that passes the schema's validators, sets its status to canceled with a
    PUT at any time, also when the cancel route refuses with
    [CancellationWindowExpired]; this way [canceledAt] and [canceledBy] stay
    as they were. *)
Theorem put_cancels_inside_window now user appointmentId db a :
  findById db appointmentId = Some a ->
  hasAccess user a = true ->
  ReqUser.role user <> Role.admin ->
  active a = true ->
  validateAppointment a = true ->
  (exists db' a',
      updateAppointment now user appointmentId (statusBody Status.canceled) db
        = Ok (db', a')
      /\ Appointment.status a' = Status.canceled
      /\ Appointment.canceledAt a' = Appointment.canceledAt a
      /\ Appointment.canceledBy a' = Appointment.canceledBy a
      /\ findById db' appointmentId = Some a')
  /\ (now > Appointment.startTime a - 24 * msPerHour ->
      forall body,
        cancelAppointment now user appointmentId body db = Fail CancellationWindowExpired).
Proof.
  intros Hf Hacc Hrole Hact Hv. split.
  - rewrite (updateAppointment_unfold _ _ _ _ _ _ Hf Hacc (or_intror Hact)).
    unfold updateTimeCheck. cbn [UpdateBody.startTime UpdateBody.endTime statusBody
                                 isSome orb bind].
    unfold saveLoaded.
    assert (Hv' : validateAppointment (updatedDocument (statusBody Status.canceled) a)
                  = true).
    { rewrite <- Hv. apply validateAppointment_status; reflexivity. }
    rewrite Hv'. cbn [negb]. do 2 eexists. split; [reflexivity|].
    repeat split.
    destruct (findById_In _ _ _ Hf) as [_ Hid].
    unfold findById in *. simpl.
    replace appointmentId
      with (Appointment._id (updatedDocument (statusBody Status.canceled) a))
      in * by exact Hid.
    eapply find_replaceById. exact Hf.
  - intros Hlate body. unfold cancelAppointment.
    rewrite (cancelWith_unfold _ _ _ _ _ _ Hf Hacc).
    apply active_status in Hact. destruct Hact as [Hnc _].
    rewrite (Status_eqb_neq _ _ Hnc), (Role_eqb_neq _ _ Hrole).
    cbn [negb andb].
    assert (E : (now >? Appointment.startTime a - 24 * 60 * 60 * 1000) = true).
    { rewrite Z.gtb_gt. unfold msPerHour in Hlate. lia. }
    now rewrite E.
Qed.

(** One hour before the start. *)
Lemma put_cancels_inside_window_witness :
  (exists db' a',
      updateAppointment (at_ jan2 8 0) theClient 10%nat (statusBody Status.canceled)
        twoTouching = Ok (db', a')
      /\ Appointment.status a' = Status.canceled)
  /\ cancelAppointment (at_ jan2 8 0) theClient 10%nat noReason twoTouching
     = Fail CancellationWindowExpired.
Proof.
  destruct (put_cancels_inside_window (at_ jan2 8 0) theClient 10%nat twoTouching
              (sampleAppointment 10%nat 2%nat 3%nat (at_ jan2 9 0) (at_ jan2 10 0)
                 Status.scheduled)
              eq_refl eq_refl ltac:(discriminate) eq_refl eq_refl)
    as [[db' [a' [H1 [H2 _]]]] H3].
  split; [exists db', a'; split; assumption|].
  apply H3. reflexivity.
Defined.

(** X9.  When the body names a time field and the start that results (the
    one of the body, or else the stored one) lies before now, the update of
    a non-administrator with access, of an appointment that is neither
    canceled nor completed, is refused with [StartTimeInPast] and nothing is
    written: once such an appointment has started, its client and technician
    cannot change its end either.  An administrator is never refused for
    this. *)
Theorem past_start_rejected now user appointmentId body db a :
  findById db appointmentId = Some a ->
  hasAccess user a = true ->
  isSome (UpdateBody.startTime body) || isSome (UpdateBody.endTime body) = true ->
  orElse (UpdateBody.startTime body) (Appointment.startTime a) < now ->
  (ReqUser.role user <> Role.admin -> active a = true ->
   updateAppointment now user appointmentId body db = Fail StartTimeInPast
   /\ db_after db (updateAppointment now user appointmentId body db) = db)
  /\ (ReqUser.role user = Role.admin ->
      updateAppointment now user appointmentId body db <> Fail StartTimeInPast).
Proof.
  intros Hf Hacc Ht Hpast. split.
  - intros Hrole Hact.
    rewrite (updateAppointment_unfold _ _ _ _ _ _ Hf Hacc (or_intror Hact)).
    unfold updateTimeCheck. rewrite Ht, (Role_eqb_neq _ _ Hrole).
    apply Z.ltb_lt in Hpast. rewrite Hpast. split; reflexivity.
  - intros Hrole.
    rewrite (updateAppointment_unfold _ _ _ _ _ _ Hf Hacc (or_introl Hrole)).
    unfold updateTimeCheck. rewrite Ht, Hrole. cbn [Role.eqb negb andb].
    destruct (checkTechnicianAvailability db _ _ _ _) as [t|f] eqn:Ec.
    + cbn [bind]. unfold saveLoaded. destruct (negb _); discriminate.
    + cbn [bind]. intros E. injection E as ->.
      unfold checkTechnicianAvailability in Ec.
      destruct (findTechnician db _); [|discriminate].
      destruct (negb _); [discriminate|].
      destruct (filter _ _); discriminate.
Qed.

(** The appointment began at 09:00; at 09:30 its client asks to end it at
    09:45. *)
Lemma past_start_rejected_witness :
  updateAppointment (at_ jan2 9 30) theClient 10%nat
    (UpdateBody.mk None (Some (at_ jan2 9 45)) None None None None None None None None
       None None None None) twoTouching
  = Fail StartTimeInPast.
Proof.
  refine (proj1 (proj1 (past_start_rejected (at_ jan2 9 30) theClient 10%nat
            (UpdateBody.mk None (Some (at_ jan2 9 45)) None None None None None None
               None None None None None None) twoTouching
            (sampleAppointment 10%nat 2%nat 3%nat (at_ jan2 9 0) (at_ jan2 10 0)
               Status.scheduled) eq_refl eq_refl eq_refl _) _ eq_refl)).
  - reflexivity.
  - discriminate.
Defined.

(** ** Cancel *)

Lemma cancelWith_Ok_inv reason now user appointmentId db db' a' :
  cancelWith reason now user appointmentId db = Ok (db', a') ->
  exists a,
    findById db appointmentId = Some a
    /\ hasAccess user a = true
    /\ Appointment.status a <> Status.canceled
    /\ (ReqUser.role user = Role.admin
        \/ now <= Appointment.startTime a - 24 * msPerHour)
    /\ a' = setCanceled reason now (ReqUser.userId user) a
    /\ db' = mkDb (users db) (replaceById a' (appointments db)).
Proof.
  unfold cancelWith. intros H.
  destruct (findById db appointmentId) as [a|]; [|discriminate].
  exists a. split; [reflexivity|].
  destruct (hasAccess user a); cbn [negb] in H; [|discriminate].
  split; [reflexivity|].
  destruct (Status.eqb (Appointment.status a) Status.canceled) eqn:Es; [discriminate|].
  split; [intros E; rewrite E in Es; discriminate|].
  destruct (Role.eqb (ReqUser.role user) Role.admin) eqn:Er; cbn [negb andb] in H.
  - injection H as <- <-. split; [left; now apply Role_eqb_eq | auto].
  - destruct (now >? _) eqn:En; [discriminate|].
    injection H as <- <-. split; [right | auto].
    apply not_true_iff_false in En. rewrite Z.gtb_gt in En.
    unfold msPerHour. lia.
Qed.

Lemma cancelWith_lookup reason now user appointmentId db db' a' :
  cancelWith reason now user appointmentId db = Ok (db', a') ->
  Appointment.status a' = Status.canceled
  /\ findById db' appointmentId = Some a'.
Proof.
  intros H. apply cancelWith_Ok_inv in H.
  destruct H as [a [Hf [_ [_ [_ [-> ->]]]]]]. split; [reflexivity|].
  destruct (findById_In _ _ _ Hf) as [_ Hid].
  unfold findById in *. simpl. subst appointmentId.
  match goal with
  | |- find _ (replaceById ?x _) = _ =>
      change (Appointment._id a) with (Appointment._id x)
  end.
  eapply find_replaceById. simpl. exact Hf.
Qed.



(** X11.  Cancel is not idempotent: after a successful cancel, every further
    cancel of the same appointment, by PATCH or by DELETE, at any time, by
    any actor with access to it, fails with [AlreadyCanceled], and any other
    actor's with [AccessDenied]; none changes the store. *)
Theorem cancel_twice now user appointmentId body db db' a' :
  cancelAppointment now user appointmentId body db = Ok (db', a') ->
  forall now2 user2 body2,
    (hasAccess user2 a' = true ->
     cancelAppointment now2 user2 appointmentId body2 db' = Fail AlreadyCanceled
     /\ deleteAppointment now2 user2 appointmentId db' = Fail AlreadyCanceled)
    /\ (hasAccess user2 a' = false ->
        cancelAppointment now2 user2 appointmentId body2 db' = Fail AccessDenied
        /\ deleteAppointment now2 user2 appointmentId db' = Fail AccessDenied).
Proof.
  intros H now2 user2 body2.
  destruct (cancelWith_lookup _ _ _ _ _ _ _ H) as [Hst Hf].
  unfold cancelAppointment, deleteAppointment, cancelWith. rewrite Hf, Hst.
  split; intros ->; split; reflexivity.
Qed.

Lemma cancel_twice_witness :
  exists db' a',
    cancelAppointment jan1 theClient 10%nat noReason twoTouching = Ok (db', a')
    /\ cancelAppointment jan1 theAdmin 10%nat noReason db' = Fail AlreadyCanceled.
Proof.
  do 2 eexists.
  assert (E : cancelAppointment jan1 theClient 10%nat noReason twoTouching
              = Ok (db_after twoTouching
                      (cancelAppointment jan1 theClient 10%nat noReason twoTouching),
                    setCanceled "No reason provided" jan1 2%nat
                      (sampleAppointment 10%nat 2%nat 3%nat (at_ jan2 9 0) (at_ jan2 10 0)
                         Status.scheduled)))
    by (vm_compute; reflexivity).
  split; [exact E|].
  exact (proj1 (proj1 (cancel_twice _ _ _ _ _ _ _ E jan1 theAdmin noReason) eq_refl)).
Defined.

Lemma filter_replaceById (f : Appointment.t -> bool) a' l :
  f a' = false ->
  filter f (replaceById a' l)
  = filter (fun b => f b && negb (Nat.eqb (Appointment._id b) (Appointment._id a'))) l.
Proof.
  intros Hf. induction l as [|b l IH]; simpl; [reflexivity|].
  destruct (Nat.eqb (Appointment._id b) (Appointment._id a')) eqn:E.
  - rewrite Hf, andb_false_r. exact IH.
  - rewrite andb_true_r. destruct (f b); [now rewrite IH | exact IH].
Qed.

(** X12.  A cancel frees the interval.  In the store after a successful
    cancel the conflict query selects, for any technician, interval and
    exclusion, the documents it selected before except the canceled one; so
    a check whose only conflicts were with the canceled appointment now
    passes, and a check that passed still passes. *)
Theorem cancel_frees_interval reason now user appointmentId db db' a' :
  cancelWith reason now user appointmentId db = Ok (db', a') ->
  forall technicianId s e exclude,
    filter (conflictQuery technicianId s e exclude) (appointments db')
    = filter (fun b => conflictQuery technicianId s e exclude b
                       && negb (Nat.eqb (Appointment._id b) appointmentId))
             (appointments db)
    /\ forall technician,
         findTechnician db technicianId = Some technician ->
         User.availability technician = Availability.available ->
         (forall b, In b (appointments db) ->
                    conflictQuery technicianId s e exclude b = true ->
                    Appointment._id b = appointmentId) ->
         checkTechnicianAvailability db' technicianId s e exclude = Ok technician.
Proof.
  intros H technicianId s e exclude. apply cancelWith_Ok_inv in H.
  destruct H as [a [Hf [_ [_ [_ [-> ->]]]]]].
  destruct (findById_In _ _ _ Hf) as [_ Hid].
  assert (Hsel : conflictQuery technicianId s e exclude
                   (setCanceled reason now (ReqUser.userId user) a) = false).
  { unfold conflictQuery. simpl. now rewrite andb_false_r. }
  assert (Hfilter :
    filter (conflictQuery technicianId s e exclude)
      (replaceById (setCanceled reason now (ReqUser.userId user) a) (appointments db))
    = filter (fun b => conflictQuery technicianId s e exclude b
                       && negb (Nat.eqb (Appointment._id b) appointmentId))
             (appointments db)).
  { rewrite (filter_replaceById _ _ _ Hsel). simpl. now rewrite Hid. }
  split; [exact Hfilter|].
  intros t Ht Hav Honly. unfold checkTechnicianAvailability.
  cbn [users appointments]. fold (findTechnician db technicianId).
  unfold findTechnician in *. cbn [users]. rewrite Ht, Hav. cbn [Availability.eqb negb].
  rewrite Hfilter.
  destruct (filter _ (appointments db)) as [|c rest] eqn:Ef; [reflexivity|].
  assert (Hin : In c (filter (fun b => conflictQuery technicianId s e exclude b
                                && negb (Nat.eqb (Appointment._id b) appointmentId))
                             (appointments db)))
    by (rewrite Ef; now left).
  apply filter_In in Hin. destruct Hin as [Hc Hq].
  apply andb_true_iff in Hq. destruct Hq as [Hq Hne].
  rewrite (Honly c Hc Hq), Nat.eqb_refl in Hne. discriminate.
Qed.

(** The 10:00-11:00 appointment of [twoTouching] is canceled and the hour is
    asked for again. *)
Lemma cancel_frees_interval_witness :
  exists db' a',
    cancelWith "Canceled by user" jan1 theClient 11%nat twoTouching = Ok (db', a')
    /\ checkTechnicianAvailability twoTouching 3%nat (at_ jan2 10 0) (at_ jan2 11 0) None
       = Fail (SchedulingConflict (at_ jan2 10 0) (at_ jan2 11 0))
    /\ checkTechnicianAvailability db' 3%nat (at_ jan2 10 0) (at_ jan2 11 0) None
       = Ok (sampleTechnician 3%nat).
Proof.
  do 2 eexists.
  assert (E : cancelWith "Canceled by user" jan1 theClient 11%nat twoTouching
              = Ok (db_after twoTouching
                      (cancelWith "Canceled by user" jan1 theClient 11%nat twoTouching),
                    setCanceled "Canceled by user" jan1 2%nat
                      (sampleAppointment 11%nat 2%nat 3%nat (at_ jan2 10 0)
                         (at_ jan2 11 0) Status.scheduled)))
    by (vm_compute; reflexivity).
  split; [exact E|]. split; [reflexivity|].
  apply (proj2 (cancel_frees_interval _ _ _ _ _ _ _ E 3%nat (at_ jan2 10 0)
                  (at_ jan2 11 0) None) (sampleTechnician 3%nat) eq_refl eq_refl).
  intros b [<-|[<-|[]]] Hq; [vm_compute in Hq; discriminate | reflexivity].
Defined.

(** ** The stored documents stay valid *)

Lemma validateAppointment_setCanceled reason now by_ a :
  validateAppointment a = true ->
  (String.length reason <= 500)%nat ->
  validateAppointment (setCanceled reason now by_ a) = true.
Proof.
  unfold validateAppointment. cbn [setCanceled Appointment.startTime Appointment.endTime
    Appointment.notes Appointment.estimatedDuration Appointment.cost
    Appointment.cancellationReason Appointment.completionNotes Appointment.rating
    Appointment.feedback maxlength].
  rewrite !andb_true_iff. intros [[[[[[[H1 H2] H3] H4] _] H6] H7] H8] Hr.
  repeat split; auto. now apply Nat.leb_le.
Qed.

Lemma validStore_replace db a' :
  validStore db -> validateAppointment a' = true ->
  validStore (mkDb (users db) (replaceById a' (appointments db))).
Proof.
  intros Hv Ha b Hb. simpl in Hb. apply In_replaceById in Hb.
  destruct Hb as [->|[Hb _]]; auto.
Qed.

Lemma stringOr_length (o : option string) (d : string) (n : nat) :
  maxlength n o = true -> (String.length d <= n)%nat ->
  (String.length (stringOr o d) <= n)%nat.
Proof.
  destruct o as [[|c s]|]; cbn [stringOr maxlength]; intros H Hd; auto.
  now apply Nat.leb_le in H.
Qed.

(** X13.  The four writing routes keep every stored appointment valid for
    the schema (end after start, estimated duration within 15..480, lengths
    and ranges), although the cancel routes write with the validators
    switched off: the reason they store is at most 500 characters, through
    the request schema of PATCH, and fixed for DELETE. *)
Theorem routes_keep_store_valid (db : Db) :
  validStore db ->
  (forall now newId user body r,
      postAppointment now newId user body db = Ok r -> validStore (fst r))
  /\ (forall now user appointmentId body r,
         putAppointment now user appointmentId body db = Ok r -> validStore (fst r))
  /\ (forall now user appointmentId body r,
         patchCancel now user appointmentId body db = Ok r -> validStore (fst r))
  /\ (forall now user appointmentId r,
         deleteAppointment now user appointmentId db = Ok r -> validStore (fst r)).
Proof.
  intros Hv. split; [|split; [|split]].
  - intros now newId user body [db' a] H. apply postAppointment_Ok in H.
    destruct H as [_ H]. unfold createAppointment in H.
    apply bind_Ok in H. destruct H as [t [_ Hs]].
    apply saveNew_Ok_inv in Hs. destruct Hs as [Hva [_ [-> ->]]].
    intros b Hb. simpl in Hb. apply in_app_or in Hb.
    destruct Hb as [Hb|[<-|[]]]; auto.
  - intros now user appointmentId body [db' a'] H. apply putAppointment_Ok in H.
    destruct H as [_ H]. apply updateAppointment_Ok_shape in H.
    destruct H as [a [_ [_ [_ [_ [_ [Hva ->]]]]]]].
    now apply validStore_replace.
  - intros now user appointmentId body [db' a'] H. unfold patchCancel in H.
    destruct (cancelAppointmentSchema body) eqn:Hs; cbn [negb] in H; [|discriminate].
    unfold cancelAppointment in H. apply cancelWith_Ok_inv in H.
    destruct H as [a [Hf [_ [_ [_ [-> ->]]]]]].
    apply validStore_replace; [assumption|].
    apply validateAppointment_setCanceled.
    + apply Hv. now apply findById_In in Hf.
    + apply stringOr_length; [exact Hs | apply Nat.leb_le; reflexivity].
  - intros now user appointmentId [db' a'] H. unfold deleteAppointment in H.
    apply cancelWith_Ok_inv in H.
    destruct H as [a [Hf [_ [_ [_ [-> ->]]]]]].
    apply validStore_replace; [assumption|].
    apply validateAppointment_setCanceled.
    + apply Hv. now apply findById_In in Hf.
    + apply Nat.leb_le. reflexivity.
Qed.

Lemma twoTouching_valid : validStore twoTouching.
Proof.
  intros a [<-|[<-|[]]]; reflexivity.
Qed.

Lemma routes_keep_store_valid_witness :
  validStore
    (db_after twoTouching (patchCancel jan1 theClient 10%nat noReason twoTouching)).
Proof.
  assert (E : patchCancel jan1 theClient 10%nat noReason twoTouching
              = Ok (db_after twoTouching
                      (patchCancel jan1 theClient 10%nat noReason twoTouching),
                    setCanceled "No reason provided" jan1 2%nat
                      (sampleAppointment 10%nat 2%nat 3%nat (at_ jan2 9 0) (at_ jan2 10 0)
                         Status.scheduled)))
    by (vm_compute; reflexivity).
  exact (proj1 (proj2 (proj2 (routes_keep_store_valid twoTouching twoTouching_valid)))
           _ _ _ _ _ E).
Defined.

(** ** The slots of the availability route *)

Lemma add_NoDup (x : string) (set : list string) :
  NoDup set -> NoDup (add x set).
Proof.
  intros H. unfold add. destruct (includes set x) eqn:E; [assumption|].
  apply NoDup_app; [assumption | repeat constructor; simpl; tauto |].
  intros s Hs [<-|[]]. apply includes_In in Hs. congruence.
Qed.

Lemma forHours_NoDup (n : nat) : forall hour bound acc,
  NoDup acc -> NoDup (forHours n hour bound acc).
Proof.
  induction n as [|n IH]; intros hour bound acc H; cbn [forHours]; [assumption|].
  destruct (hour <=? bound); [|assumption].
  apply IH. destruct (includes workingHours (timeSlot hour)); [|assumption].
  now apply add_NoDup.
Qed.

(** What the marking of a list of appointments adds to the set. *)
Lemma fold_markAppointment_In (appts : list Appointment.t) :
  forall (acc : list string) (s : string),
    In s (fold_left markAppointment appts acc)
    <-> In s acc
        \/ exists a h,
             In a appts
             /\ getUTCHours (Appointment.startTime a) <= h
                <= (if getUTCMinutes (Appointment.endTime a) >? 0
                    then getUTCHours (Appointment.endTime a)
                    else getUTCHours (Appointment.endTime a) - 1)
             /\ timeSlot h = s /\ In s workingHours.
Proof.
  induction appts as [|a appts IH]; intros acc s; simpl.
  - split; [tauto|]. intros [H|[a [h [[] _]]]]. exact H.
  - rewrite IH. unfold markAppointment at 1. rewrite forHours_In by lia. split.
    + intros [[H|[h [H1 H2]]]|[b [h [Hb H]]]]; auto.
      * right. exists a, h. auto.
      * right. exists b, h. auto.
    + intros [H|[b [h [[<-|Hb] H]]]]; auto.
      * left. right. exists h. exact H.
      * right. exists b, h. auto.
Qed.

Lemma fold_markAppointment_NoDup (appts : list Appointment.t) :
  forall acc, NoDup acc -> NoDup (fold_left markAppointment appts acc).
Proof.
  induction appts as [|a appts IH]; intros acc H; simpl; [assumption|].
  apply IH. unfold markAppointment. now apply forHours_NoDup.
Qed.

Lemma filter_length_split {A} (f : A -> bool) (l : list A) :
  (List.length (filter f l) + List.length (filter (fun x => negb (f x)) l)
   = List.length l)%nat.
Proof.
  induction l as [|x l IH]; simpl; [reflexivity|].
  destruct (f x); simpl; lia.
Qed.

(** X14.  In every answer of the availability route the booked slots are
    working hours without repetition, the available slots are the working
    hours that are not booked, in the order of the working hours, and each
    of the eight working hours is in exactly one of the two lists. *)
Theorem slots_partition technicianId requestedDate db slots :
  getAvailability technicianId requestedDate db = Ok slots ->
  NoDup (bookedSlots slots)
  /\ incl (bookedSlots slots) workingHours
  /\ availableSlots slots
     = filter (fun s => negb (includes (bookedSlots slots) s)) workingHours
  /\ (forall s, In s workingHours ->
        (In s (bookedSlots slots) /\ ~ In s (availableSlots slots))
        \/ (~ In s (bookedSlots slots) /\ In s (availableSlots slots)))
  /\ (List.length (bookedSlots slots) + List.length (availableSlots slots) = 8)%nat.
Proof.
  unfold getAvailability.
  destruct (findTechnician db technicianId) as [t|]; [|discriminate].
  destruct (negb _); [discriminate|].
  intros H. injection H as <-. cbn [bookedSlots availableSlots].
  set (appts := filter _ (appointments db)).
  assert (Hnd : NoDup (bookedSlotsOf appts))
    by (apply fold_markAppointment_NoDup; constructor).
  assert (Hincl : incl (bookedSlotsOf appts) workingHours).
  { intros s Hs. unfold bookedSlotsOf in Hs. apply fold_markAppointment_In in Hs.
    destruct Hs as [[]|[a [h [_ [_ [_ Hw]]]]]]. exact Hw. }
  split; [exact Hnd|]. split; [exact Hincl|]. split; [reflexivity|]. split.
  - intros s Hs. unfold availableSlotsOf. rewrite filter_In.
    destruct (includes (bookedSlotsOf appts) s) eqn:E.
    + left. split; [now apply includes_In|]. intros [_ H]. discriminate.
    + right. split; [|auto]. intros H. apply includes_In in H. congruence.
  - unfold availableSlotsOf.
    pose proof (filter_length_split (includes (bookedSlotsOf appts)) workingHours) as Hl.
    assert (Hperm : List.length (filter (includes (bookedSlotsOf appts)) workingHours)
                    = List.length (bookedSlotsOf appts)).
    { apply Permutation_length. apply NoDup_Permutation.
      - apply NoDup_filter. unfold workingHours.
        repeat constructor; simpl; intuition discriminate.
      - exact Hnd.
      - intros s. rewrite filter_In, includes_In. split; [tauto|].
        intros H. split; [now apply Hincl | exact H]. }
    change (List.length workingHours) with 8%nat in Hl. lia.
Qed.

Lemma slots_partition_witness :
  exists slots,
    getAvailability 3%nat jan2 twoTouching = Ok slots
    /\ (List.length (bookedSlots slots) + List.length (availableSlots slots) = 8)%nat.
Proof.
  eexists. split; [vm_compute; reflexivity|].
  exact (proj2 (proj2 (proj2 (proj2
           (slots_partition 3%nat jan2 twoTouching _ eq_refl))))).
Defined.

(** X15.  The slots do not depend on the order in which the query returns
    the appointments, nor on repetitions: two lists with the same members
    book the same slots, as sets, and leave the same list of available
    slots. *)
Theorem slots_order_independent (appts1 appts2 : list Appointment.t) :
  (forall a, In a appts1 <-> In a appts2) ->
  (forall s, In s (bookedSlotsOf appts1) <-> In s (bookedSlotsOf appts2))
  /\ availableSlotsOf (bookedSlotsOf appts1) = availableSlotsOf (bookedSlotsOf appts2).
Proof.
  intros Hsame.
  assert (Hb : forall s, In s (bookedSlotsOf appts1) <-> In s (bookedSlotsOf appts2)).
  { intros s. unfold bookedSlotsOf. rewrite !fold_markAppointment_In.
    split; intros [[]|[a [h [Ha H]]]]; right; exists a, h; split; auto;
      now apply Hsame. }
  split; [exact Hb|]. unfold availableSlotsOf. apply filter_ext.
  intros s. f_equal. apply eq_true_iff_eq. rewrite !includes_In. apply Hb.
Qed.

Lemma slots_order_independent_witness :
  availableSlotsOf (bookedSlotsOf (appointments twoTouching))
  = availableSlotsOf (bookedSlotsOf (rev (appointments twoTouching))).
Proof.
  apply (slots_order_independent (appointments twoTouching)
           (rev (appointments twoTouching))).
  intros a. apply in_rev.
Defined.

(** ** The virtuals *)

(** X16.  For an appointment whose end is after its start, [isUpcoming] and
    [isOverdue] never hold together; both are false unless the status is
    scheduled; a scheduled appointment is upcoming strictly before its
    start, overdue strictly after its end, and neither from its start to
    its end, both instants included. *)
Theorem upcoming_overdue_exclusive (now : Date) (a : Appointment.t) :
  Appointment.endTime a > Appointment.startTime a ->
  ~ (isUpcoming now a = true /\ isOverdue now a = true)
  /\ (Appointment.status a <> Status.scheduled ->
      isUpcoming now a = false /\ isOverdue now a = false)
  /\ (Appointment.status a = Status.scheduled ->
      (isUpcoming now a = true <-> now < Appointment.startTime a)
      /\ (isOverdue now a = true <-> Appointment.endTime a < now)
      /\ (isUpcoming now a = false /\ isOverdue now a = false
          <-> Appointment.startTime a <= now <= Appointment.endTime a)).
Proof.
  intros He. unfold isUpcoming, isOverdue. split; [|split].
  - rewrite !andb_true_iff, Z.gtb_gt, Z.ltb_lt. lia.
  - intros Hs. rewrite (Status_eqb_neq _ _ Hs), !andb_false_r. auto.
  - intros ->. cbn [Status.eqb]. rewrite !andb_true_r.
    rewrite Z.gtb_gt, Z.ltb_lt.
    split; [lia|]. split; [tauto|].
    rewrite <- !not_true_iff_false, Z.gtb_gt, Z.ltb_lt. lia.
Qed.

Lemma upcoming_overdue_exclusive_witness :
  isUpcoming (at_ jan2 9 0)
    (sampleAppointment 10%nat 2%nat 3%nat (at_ jan2 9 0) (at_ jan2 10 0)
       Status.scheduled) = false
  /\ isOverdue (at_ jan2 9 0)
       (sampleAppointment 10%nat 2%nat 3%nat (at_ jan2 9 0) (at_ jan2 10 0)
          Status.scheduled) = false.
Proof.
  apply (proj2 (proj2 (proj2 (upcoming_overdue_exclusive (at_ jan2 9 0)
           (sampleAppointment 10%nat 2%nat 3%nat (at_ jan2 9 0) (at_ jan2 10 0)
              Status.scheduled) eq_refl)) eq_refl)).
  split; vm_compute; discriminate.
Defined.

(** ** Reading one appointment *)

Lemma populate_id db id u : populate db id = Some u -> User._id u = id.
Proof.
  unfold populate. intros H. apply find_some in H. now apply Nat.eqb_eq.
Qed.

(** X17.  GET /:appointmentId answers with the appointment only to an
    administrator, to its client or to its technician.  The check reads the
    populated references: when the client's user document does not exist,
    every non-administrator, the technician of the appointment included,
    gets no answer (the handler throws), while the administrator is
    answered; the update and cancel handlers, which compare the stored ids,
    still know the technician. *)
Theorem get_appointment_access user appointmentId db a :
  findById db appointmentId = Some a ->
  (forall p, getAppointment user appointmentId db = Answered (Ok p) ->
             appointment p = a /\ hasAccess user a = true)
  /\ (ReqUser.role user = Role.admin ->
      exists p, getAppointment user appointmentId db = Answered (Ok p))
  /\ (ReqUser.role user <> Role.admin ->
      populate db (Appointment.client a) = None ->
      getAppointment user appointmentId db = Thrown)
  /\ (ReqUser.role user <> Role.admin ->
      forall c t,
        populate db (Appointment.client a) = Some c ->
        populate db (Appointment.technician a) = Some t ->
        getAppointment user appointmentId db
        = if hasAccess user a
          then Answered (Ok (mkPopulated a (Some c) (Some t)))
          else Answered (Fail AccessDenied)).
Proof.
  intros Hf. unfold getAppointment. rewrite Hf. cbn [populatedClient populatedTechnician].
  split; [|split; [|split]].
  - intros p. unfold hasAccess.
    destruct (Role.eqb (ReqUser.role user) Role.admin).
    { intros H. injection H as <-. auto. }
    destruct (populate db (Appointment.client a)) as [c|] eqn:Ec; [|discriminate].
    apply populate_id in Ec. rewrite Ec.
    destruct (Nat.eqb (Appointment.client a) (ReqUser.userId user)).
    { intros H. injection H as <-. auto. }
    destruct (populate db (Appointment.technician a)) as [t|] eqn:Et; [|discriminate].
    apply populate_id in Et. rewrite Et.
    destruct (Nat.eqb (Appointment.technician a) (ReqUser.userId user)); [|discriminate].
    intros H. injection H as <-. auto.
  - intros ->. eexists. reflexivity.
  - intros Hr Hc. now rewrite (Role_eqb_neq _ _ Hr), Hc.
  - intros Hr c t Hc Ht. unfold hasAccess. rewrite (Role_eqb_neq _ _ Hr), Hc, Ht.
    apply populate_id in Hc. apply populate_id in Ht. rewrite Hc, Ht.
    cbn [orb].
    destruct (Nat.eqb (Appointment.client a) (ReqUser.userId user)); [reflexivity|].
    destruct (Nat.eqb (Appointment.technician a) (ReqUser.userId user)); reflexivity.
Qed.

(** The technician of an appointment whose client is gone. *)
Lemma get_appointment_access_witness :
  getAppointment (ReqUser.mk 3%nat Role.technician) 10%nat orphanedAppointment = Thrown
  /\ hasAccess (ReqUser.mk 3%nat Role.technician)
       (sampleAppointment 10%nat 2%nat 3%nat (at_ jan2 9 0) (at_ jan2 10 0)
          Status.scheduled) = true.
Proof.
  split; [|reflexivity].
  apply (proj1 (proj2 (proj2 (get_appointment_access (ReqUser.mk 3%nat Role.technician)
           10%nat orphanedAppointment
           (sampleAppointment 10%nat 2%nat 3%nat (at_ jan2 9 0) (at_ jan2 10 0)
              Status.scheduled) eq_refl)))).
  - discriminate.
  - reflexivity.
Defined.

(** ** Listing appointments *)

Lemma insertBy_In before a l x :
  In x (insertBy before a l) <-> x = a \/ In x l.
Proof.
  induction l as [|b l IH]; simpl; [intuition|].
  destruct (before a b); simpl; [intuition|]. rewrite IH. intuition.
Qed.

Lemma insertBy_Permutation before a l :
  Permutation (a :: l) (insertBy before a l).
Proof.
  induction l as [|b l IH]; simpl; [reflexivity|].
  destruct (before a b); [reflexivity|].
  rewrite perm_swap. now constructor.
Qed.

Lemma sortBy_Permutation before l : Permutation l (sortBy before l).
Proof.
  induction l as [|a l IH]; simpl; [constructor|].
  rewrite <- insertBy_Permutation. now constructor.
Qed.

Lemma startsBefore_total asc a b :
  startsBefore asc a b = false -> startsBefore asc b a = true.
Proof.
  unfold startsBefore. destruct asc; rewrite Z.leb_gt, Z.leb_le; lia.
Qed.

Lemma startsBefore_trans asc a b c :
  startsBefore asc a b = true -> startsBefore asc b c = true ->
  startsBefore asc a c = true.
Proof.
  unfold startsBefore. destruct asc; rewrite !Z.leb_le; lia.
Qed.

Lemma insertBy_sorted asc a l :
  StronglySorted (fun x y => startsBefore asc x y = true) l ->
  StronglySorted (fun x y => startsBefore asc x y = true)
                 (insertBy (startsBefore asc) a l).
Proof.
  induction l as [|b l IH]; simpl; intros H.
  - repeat constructor.
  - apply StronglySorted_inv in H. destruct H as [Hl Hb].
    destruct (startsBefore asc a b) eqn:E.
    + constructor; [constructor; assumption|].
      constructor; [assumption|].
      rewrite Forall_forall in *. intros x Hx.
      eapply startsBefore_trans; [exact E | now apply Hb].
    + constructor; [now apply IH|].
      rewrite Forall_forall in *. intros x Hx.
      apply insertBy_In in Hx. destruct Hx as [->|Hx]; [|now apply Hb].
      now apply startsBefore_total.
Qed.

Lemma sortBy_sorted asc l :
  StronglySorted (fun x y => startsBefore asc x y = true)
                 (sortBy (startsBefore asc) l).
Proof.
  induction l as [|a l IH]; simpl; [constructor|]. now apply insertBy_sorted.
Qed.

Lemma In_firstn {A} n (l : list A) x : In x (firstn n l) -> In x l.
Proof.
  intros H. rewrite <- (firstn_skipn n l). apply in_or_app. now left.
Qed.

Lemma In_skipn {A} n (l : list A) x : In x (skipn n l) -> In x l.
Proof.
  intros H. rewrite <- (firstn_skipn n l). apply in_or_app. now right.
Qed.

Lemma StronglySorted_skipn {A} (R : A -> A -> Prop) n : forall l,
  StronglySorted R l -> StronglySorted R (skipn n l).
Proof.
  induction n as [|n IH]; intros l H; [exact H|].
  destruct l as [|x l]; [exact H|]. simpl. apply IH.
  now apply StronglySorted_inv in H.
Qed.

Lemma StronglySorted_firstn {A} (R : A -> A -> Prop) n : forall l,
  StronglySorted R l -> StronglySorted R (firstn n l).
Proof.
  induction n as [|n IH]; intros l H; [constructor|].
  destruct l as [|x l]; [constructor|]. simpl.
  apply StronglySorted_inv in H. destruct H as [Hl Hx].
  constructor; [now apply IH|].
  rewrite Forall_forall in *. intros y Hy. apply Hx.
  eapply In_firstn; exact Hy.
Qed.

Lemma skipLimit_In {A} skip limit (l : list A) x :
  In x (skipLimit skip limit l) -> In x l.
Proof.
  unfold skipLimit. intros H. apply In_firstn in H. now apply In_skipn in H.
Qed.

(** X18.  GET / shows a caller only what the role allows and at most fifty
    documents at a time: every document listed is stored and passes the
    filter, a customer is shown only appointments of which he is the client
    and a technician only appointments of which he is the technician; the
    page number is at least 1, the limit lies within 1..50 whatever the query
    says, no more documents than the limit are listed, they are in the order
    asked for, and [total] counts the documents that pass the filter. *)
Theorem listing_isolated (user : ReqUser.t) (q : ListQuery.t) (db : Db) :
  let r := listAppointments user q db in
  (forall a, In a (ls_appointments r) ->
     In a (appointments db)
     /\ listFilter user q a = true
     /\ (ReqUser.role user = Role.customer ->
         Appointment.client a = ReqUser.userId user)
     /\ (ReqUser.role user = Role.technician ->
         Appointment.technician a = ReqUser.userId user))
  /\ 1 <= pg_page (ls_pagination r)
  /\ 1 <= pg_limit (ls_pagination r) <= 50
  /\ Z.of_nat (List.length (ls_appointments r)) <= pg_limit (ls_pagination r)
  /\ StronglySorted
       (fun x y => startsBefore (match ListQuery.sort q with
                                 | Some s => String.eqb s "asc"
                                 | None => false
                                 end) x y = true)
       (ls_appointments r)
  /\ pg_total (ls_pagination r)
     = Z.of_nat (List.length (filter (listFilter user q) (appointments db))).
Proof.
  intros r. unfold r, listAppointments.
  cbn [ls_appointments ls_pagination paginationOf pg_page pg_limit pg_total].
  split; [|split; [|split; [|split; [|split]]]].
  - intros a Ha. apply skipLimit_In in Ha.
    apply (Permutation_in _ (Permutation_sym (sortBy_Permutation _ _))) in Ha.
    apply filter_In in Ha. destruct Ha as [Hin Hf].
    split; [exact Hin|]. split; [exact Hf|].
    unfold listFilter in Hf. rewrite !andb_true_iff in Hf.
    destruct Hf as [[[[[[Hrole _] _] _] _] _] _].
    split; intros Hr; rewrite Hr in Hrole; now apply Nat.eqb_eq.
  - lia.
  - lia.
  - unfold skipLimit. rewrite length_firstn. lia.
  - unfold skipLimit. apply StronglySorted_firstn, StronglySorted_skipn, sortBy_sorted.
  - reflexivity.
Qed.

Lemma Math_ceil_div_bounds (total limit : Z) :
  1 <= limit -> 0 <= total ->
  (Math_ceil_div total limit - 1) * limit < total <= Math_ceil_div total limit * limit.
Proof.
  intros Hl Ht. unfold Math_ceil_div.
  pose proof (Z.div_mod (total + limit - 1) limit ltac:(lia)) as E.
  pose proof (Z.mod_pos_bound (total + limit - 1) limit ltac:(lia)) as B.
  nia.
Qed.

(** X19.  The pagination object, of GET / and of [paginatedResponse]: for
    a limit of at least 1 and a count of at least 0, [pages] is the least
    number of pages of [limit] documents that hold [total] documents (0 when
    there is none), [hasNext] is true exactly when documents are left after
    page [page], and [hasPrev] exactly when the page is not the first. *)
Theorem pagination_arithmetic (page limit total : Z) :
  1 <= limit -> 0 <= total ->
  let p := paginationOf page limit total in
  total <= pg_pages p * limit
  /\ (forall n, total <= n * limit -> pg_pages p <= n)
  /\ (pg_pages p = 0 <-> total = 0)
  /\ (pg_hasNext p = true <-> page * limit < total)
  /\ (pg_hasPrev p = true <-> 1 < page).
Proof.
  intros Hl Ht p. unfold p, paginationOf. cbn [pg_pages pg_hasNext pg_hasPrev].
  pose proof (Math_ceil_div_bounds total limit Hl Ht) as B.
  set (pages := Math_ceil_div total limit) in *.
  split; [lia|]. split; [intros n Hn; nia|]. split; [split; intros; nia|].
  rewrite Z.ltb_lt, Z.gtb_gt. split; [split; intros; nia | lia].
Qed.

Lemma pagination_arithmetic_witness :
  pg_pages (paginationOf 2 10 21) = 3
  /\ (pg_hasNext (paginationOf 2 10 21) = true <-> 2 * 10 < 21).
Proof.
  destruct (pagination_arithmetic 2 10 21 ltac:(lia) ltac:(lia)) as [_ [_ [_ [H _]]]].
  split; [reflexivity | exact H].
Defined.

Lemma pages_concat {A} (L n : nat) : forall (l : list A),
  (List.length l <= n * L)%nat ->
  List.concat (map (fun k => firstn L (skipn (k * L) l)) (seq 0 n)) = l.
Proof.
  induction n as [|n IH]; intros l Hl.
  - destruct l; [reflexivity | simpl in Hl; lia].
  - cbn [seq map List.concat]. rewrite <- seq_shift, map_map.
    transitivity (firstn L l ++ skipn L l)%list; [|apply firstn_skipn].
    f_equal.
    rewrite <- (IH (skipn L l)) by (rewrite length_skipn; lia).
    f_equal. apply map_ext. intros k. rewrite skipn_skipn.
    replace (k * L + L)%nat with (S k * L)%nat by lia. reflexivity.
Qed.

(** X20.  The pages of GET / cover the result: for any query, the pages
    1, ..., [pages] put one after the other are the documents that pass the
    filter, each once, in the order asked for; every page after [pages] is
    empty. *)
Theorem listing_pages_cover (user : ReqUser.t) (q : ListQuery.t) (db : Db) :
  let matching := filter (listFilter user q) (appointments db) in
  let pages := pg_pages (ls_pagination (listAppointments user q db)) in
  Permutation matching
    (List.concat (map (fun p => ls_appointments (listAppointments user (withPage q p) db))
                 (pageNumbers pages)))
  /\ StronglySorted
       (fun x y => startsBefore (match ListQuery.sort q with
                                 | Some s => String.eqb s "asc"
                                 | None => false
                                 end) x y = true)
       (List.concat (map (fun p => ls_appointments (listAppointments user (withPage q p) db))
                    (pageNumbers pages)))
  /\ forall p, pages < p ->
       ls_appointments (listAppointments user (withPage q p) db) = [].
Proof.
  intros matching pages.
  set (asc := match ListQuery.sort q with
              | Some s => String.eqb s "asc"
              | None => false
              end).
  set (limit := Z.min 50 (Z.max 1 (numberOr (ListQuery.limit q) 10))).
  assert (Hlimit : 1 <= limit <= 50) by (unfold limit; lia).
  set (sorted := sortBy (startsBefore asc) matching).
  assert (Hpage : forall p, 1 <= p ->
            ls_appointments (listAppointments user (withPage q p) db)
            = skipLimit ((p - 1) * limit) limit sorted).
  { intros p Hp. unfold listAppointments.
    cbn [ls_appointments withPage ListQuery.page ListQuery.limit ListQuery.sort numberOr].
    replace (p =? 0) with false by (symmetry; apply Z.eqb_neq; lia).
    replace (Z.max 1 p) with p by lia. reflexivity. }
  assert (Hpages : pages = Math_ceil_div (Z.of_nat (List.length matching)) limit)
    by reflexivity.
  pose proof (Math_ceil_div_bounds (Z.of_nat (List.length matching)) limit
                ltac:(lia) ltac:(lia)) as B.
  rewrite <- Hpages in B.
  assert (Hlen : List.length sorted = List.length matching)
    by (symmetry; apply Permutation_length, sortBy_Permutation).
  assert (Hcat : List.concat (map (fun p => ls_appointments
                                         (listAppointments user (withPage q p) db))
                             (pageNumbers pages)) = sorted).
  { unfold pageNumbers. rewrite map_map.
    transitivity
      (List.concat (map (fun k => firstn (Z.to_nat limit)
                                    (skipn (k * Z.to_nat limit) sorted))
                        (seq 0 (Z.to_nat pages))));
      [|apply pages_concat; nia].
    f_equal. apply map_ext. intros k. rewrite Hpage by lia.
    unfold skipLimit. f_equal. f_equal. nia. }
  rewrite Hcat. split; [apply sortBy_Permutation|].
  split; [apply sortBy_sorted|].
  intros p Hp. rewrite Hpage by nia. unfold skipLimit.
  rewrite skipn_all2; [now destruct (Z.to_nat limit)|]. nia.
Qed.

(** ** The older availability route *)

Lemma StronglySorted_map {A B} (R : A -> A -> Prop) (R' : B -> B -> Prop)
    (f : A -> B) (l : list A) :
  (forall x y, R x y -> R' (f x) (f y)) ->
  StronglySorted R l -> StronglySorted R' (map f l).
Proof.
  intros HR H. induction H as [|x l Hl IH Hx]; simpl; constructor; auto.
  rewrite Forall_forall in *. intros y Hy. apply in_map_iff in Hy.
  destruct Hy as [z [<- Hz]]. auto.
Qed.

(** X21.  The older route of the appointment router answers for every
    active technician, flagged available or not (the route of the technician
    router refuses with "Technician is not available"), and with
    [TechnicianNotFound] when there is none.  For the two bounds that the
    route takes for the day, its ranges are the intervals of the technician's
    appointments, neither canceled nor completed, whose start lies within the
    bounds, each once, by ascending start. *)
Theorem booked_ranges_old_route technicianId startOfDay endOfDay db technician :
  findTechnician db technicianId = Some technician ->
  (exists ranges,
      bookedRanges technicianId startOfDay endOfDay db = Ok (technician, ranges)
      /\ StronglySorted (fun r1 r2 => fst r1 <= fst r2) ranges
      /\ Permutation ranges
           (map interval
              (filter (startsInDayQuery technicianId startOfDay endOfDay)
                      (appointments db)))
      /\ (forall r, In r ranges
           <-> exists a, In a (appointments db)
                         /\ startsInDayQuery technicianId startOfDay endOfDay a = true
                         /\ interval a = r)
      /\ forall a, startsInDayQuery technicianId startOfDay endOfDay a = true
           <-> Appointment.technician a = technicianId
               /\ active a = true
               /\ startOfDay <= Appointment.startTime a <= endOfDay)
  /\ (forall other startOfDay' endOfDay',
        findTechnician db other = None ->
        bookedRanges other startOfDay' endOfDay' db = Fail TechnicianNotFound)
  /\ (User.availability technician <> Availability.available ->
      forall requestedDate,
        getAvailability technicianId requestedDate db = Fail TechnicianUnavailable).
Proof.
  intros Ht. split; [|split].
  - unfold bookedRanges. rewrite Ht. eexists. split; [reflexivity|].
    split; [|split; [|split]].
    + apply (StronglySorted_map (fun x y => startsBefore true x y = true)).
      * intros x y H. unfold startsBefore in H. apply Z.leb_le in H. exact H.
      * apply sortBy_sorted.
    + apply Permutation_map, Permutation_sym, sortBy_Permutation.
    + intros r. rewrite in_map_iff. split.
      * intros [a [Hi Ha]]. exists a.
        apply (Permutation_in _ (Permutation_sym (sortBy_Permutation _ _))) in Ha.
        apply filter_In in Ha. tauto.
      * intros [a [Hin [Hq Hi]]]. exists a. split; [exact Hi|].
        apply (Permutation_in _ (sortBy_Permutation _ _)).
        apply filter_In. auto.
    + intros a. unfold startsInDayQuery. fold (active a).
      rewrite !andb_true_iff, Nat.eqb_eq, !Z.leb_le. tauto.
  - intros other s' e' Hnone. unfold bookedRanges. rewrite Hnone. reflexivity.
  - intros Hav requestedDate. unfold getAvailability. rewrite Ht.
    destruct (User.availability technician); try reflexivity. contradiction.
Qed.

Lemma booked_ranges_old_route_witness :
  exists ranges,
    bookedRanges 3%nat jan2 (jan2 + msPerDay - 1) twoTouching
      = Ok (sampleTechnician 3%nat, ranges)
    /\ StronglySorted (fun r1 r2 => fst r1 <= fst r2) ranges.
Proof.
  destruct (proj1 (booked_ranges_old_route 3%nat jan2 (jan2 + msPerDay - 1) twoTouching
                     (sampleTechnician 3%nat) eq_refl))
    as [ranges [H1 [H2 _]]].
  exists ranges. split; assumption.
Defined.

(** ** Authorization *)

Lemma existsb_Role (r : Role.t) (roles : list Role.t) :
  existsb (Role.eqb r) roles = true <-> In r roles.
Proof.
  rewrite existsb_exists. split.
  - intros [x [Hx E]]. apply Role_eqb_eq in E. now subst.
  - intros H. exists r. split; [exact H | now apply Role_eqb_eq].
Qed.

Lemma createAppointment_not_Forbidden newId user body db :
  createAppointment newId user body db <> Fail Forbidden.
Proof.
  unfold createAppointment, checkTechnicianAvailability, saveNew.
  destruct (findTechnician db _); [|discriminate].
  destruct (negb (Availability.eqb _ _)); [discriminate|].
  destruct (filter _ _); [|discriminate]. cbn [bind].
  destruct (negb (validateAppointment _)); [discriminate|].
  destruct (existsb _ _); discriminate.
Qed.

(** X22.  [authorize(roles, options)] lets an authenticated user through
    exactly when the role list is empty, or holds the user's role, or
    [allowSelf] is set and the [userId] of the path is the user's, or
    [allowBusinessOwner] is set and the account is a business account,
    whatever its role; otherwise it answers 403, and 401 without a user.  So
    [requireAdmin] admits administrators only, [requireTechnician] everyone
    but customers, [requireCustomer] everyone, and POST / of the appointment
    router refuses exactly the technicians. *)
Theorem authorize_admits (roles : list Role.t) (options : AuthOptions)
    (u : AuthUser.t) (paramsUserId : option ObjectId) :
  (authorize roles options (Some u) paramsUserId = Next
   <-> roles = []
       \/ In (AuthUser.role u) roles
       \/ (allowSelf options = true /\ paramsUserId = Some (AuthUser.userId u))
       \/ (allowBusinessOwner options = true
           /\ AuthUser.accountType u = AccountType.business))
  /\ (authorize roles options (Some u) paramsUserId <> Next ->
      authorize roles options (Some u) paramsUserId = InsufficientPermissions)
  /\ authorize roles options None paramsUserId = AuthenticationRequired
  /\ (requireAdmin (Some u) paramsUserId = Next <-> AuthUser.role u = Role.admin)
  /\ (requireTechnician (Some u) paramsUserId = Next
      <-> AuthUser.role u <> Role.customer)
  /\ requireCustomer (Some u) paramsUserId = Next
  /\ (forall now newId body db,
        postAppointment now newId (ReqUser.mk (AuthUser.userId u) (AuthUser.role u))
          body db = Fail Forbidden
        <-> authorize [Role.customer; Role.admin] noOptions (Some u) paramsUserId
            = InsufficientPermissions).
Proof.
  split; [|split; [|split; [|split; [|split; [|split]]]]].
  - unfold authorize. destruct roles as [|r0 roles].
    { simpl. split; auto. }
    cbn [List.length Nat.eqb].
    destruct (existsb (Role.eqb (AuthUser.role u)) (r0 :: roles)) eqn:Er; cbn [negb].
    { apply existsb_Role in Er. split; auto. }
    assert (Hnot : ~ In (AuthUser.role u) (r0 :: roles)).
    { intros H. apply existsb_Role in H. congruence. }
    destruct (allowSelf options).
    + destruct paramsUserId as [p|]; cbn [andb].
      * destruct (Nat.eqb (AuthUser.userId u) p) eqn:Ep.
        -- apply Nat.eqb_eq in Ep. subst p. split; auto.
        -- apply Nat.eqb_neq in Ep.
           destruct (allowBusinessOwner options); cbn [andb].
           ++ destruct (AuthUser.accountType u); cbn [AccountType.eqb].
              ** split; [discriminate|].
                 intros [H|[H|[[_ H]|[_ H]]]]; try discriminate; try contradiction.
                 injection H as H. congruence.
              ** split; auto.
           ++ split; [discriminate|].
              intros [H|[H|[[_ H]|[H _]]]]; try discriminate; try contradiction.
              injection H as H. congruence.
      * destruct (allowBusinessOwner options); cbn [andb].
        -- destruct (AuthUser.accountType u); cbn [AccountType.eqb].
           ++ split; [discriminate|].
              intros [H|[H|[[_ H]|[_ H]]]]; try discriminate; contradiction.
           ++ split; auto.
        -- split; [discriminate|].
           intros [H|[H|[[_ H]|[H _]]]]; try discriminate; contradiction.
    + cbn [andb]. destruct (allowBusinessOwner options); cbn [andb].
      * destruct (AuthUser.accountType u); cbn [AccountType.eqb].
        -- split; [discriminate|].
           intros [H|[H|[[H _]|[_ H]]]]; try discriminate; contradiction.
        -- split; auto.
      * split; [discriminate|].
        intros [H|[H|[[H _]|[H _]]]]; try discriminate; contradiction.
  - unfold authorize. destruct (Nat.eqb _ 0); [congruence|].
    destruct (negb _); [|congruence].
    destruct (allowSelf options && _); [congruence|].
    destruct (allowBusinessOwner options && _); congruence.
  - reflexivity.
  - unfold requireAdmin, authorize. simpl.
    destruct (AuthUser.role u); simpl; split; congruence.
  - unfold requireTechnician, authorize. simpl.
    destruct (AuthUser.role u); simpl; split; congruence.
  - unfold requireCustomer, authorize. simpl.
    destruct (AuthUser.role u); reflexivity.
  - intros now newId body db. unfold postAppointment, authorize.
    cbn [ReqUser.role List.length Nat.eqb existsb noOptions allowSelf
         allowBusinessOwner andb].
    destruct (AuthUser.role u); cbn [Role.eqb orb negb].
    + split; [|discriminate]. intros H.
      destruct (negb (createAppointmentSchema now body)); [discriminate|].
      now apply createAppointment_not_Forbidden in H.
    + split; [|discriminate]. intros H.
      destruct (negb (createAppointmentSchema now body)); [discriminate|].
      now apply createAppointment_not_Forbidden in H.
    + split; reflexivity.
Qed.

(** X23.  [requireOwnership(field)] lets a non-administrator through exactly
    when the id taken from the path or, when the path has no such parameter,
    from the body is the caller's own: on a route without that parameter a
    caller passes by naming his own id in the body.  Administrators always
    pass; without a user the answer is 401. *)
Theorem ownership_gate (u : AuthUser.t) (paramsField bodyField : option ObjectId) :
  (requireOwnership (Some u) paramsField bodyField = Next
   <-> AuthUser.role u = Role.admin
       \/ paramsField = Some (AuthUser.userId u)
       \/ (paramsField = None /\ bodyField = Some (AuthUser.userId u)))
  /\ (requireOwnership (Some u) paramsField bodyField <> Next ->
      requireOwnership (Some u) paramsField bodyField = ResourceAccessDenied)
  /\ requireOwnership (Some u) None (Some (AuthUser.userId u)) = Next
  /\ requireOwnership None paramsField bodyField = AuthenticationRequired.
Proof.
  split; [|split; [|split]].
  - unfold requireOwnership.
    destruct (Role.eqb (AuthUser.role u) Role.admin) eqn:Er.
    { apply Role_eqb_eq in Er. split; auto. }
    assert (Hr : AuthUser.role u <> Role.admin)
      by (intros H; rewrite H in Er; discriminate).
    destruct paramsField as [p|]; [|destruct bodyField as [b|]].
    + destruct (Nat.eqb (AuthUser.userId u) p) eqn:Ep.
      * apply Nat.eqb_eq in Ep. subst p. split; auto.
      * apply Nat.eqb_neq in Ep. split; [discriminate|].
        intros [H|[H|[H _]]]; try contradiction; try discriminate.
        injection H as H. congruence.
    + destruct (Nat.eqb (AuthUser.userId u) b) eqn:Eb.
      * apply Nat.eqb_eq in Eb. subst b. split; auto.
      * apply Nat.eqb_neq in Eb. split; [discriminate|].
        intros [H|[H|[_ H]]]; try contradiction; try discriminate.
        injection H as H. congruence.
    + split; [discriminate|].
      intros [H|[H|[_ H]]]; try contradiction; discriminate.
  - unfold requireOwnership. destruct (Role.eqb _ _); [congruence|].
    destruct paramsField as [p|]; [|destruct bodyField as [b|]];
      try destruct (Nat.eqb _ _); congruence.
  - unfold requireOwnership. destruct (Role.eqb _ _); [reflexivity|].
    now rewrite Nat.eqb_refl.
  - reflexivity.
Qed.

(** X24.  The two account gates split the non-administrators: an
    authenticated user who is not an administrator passes exactly one of
    [requireBusiness] and [requireIndividual], the one of his account type;
    an administrator passes both. *)
Theorem account_gates (u : AuthUser.t) :
  (AuthUser.role u = Role.admin ->
   requireBusiness (Some u) = Next /\ requireIndividual (Some u) = Next)
  /\ (AuthUser.role u <> Role.admin ->
      (requireBusiness (Some u) = Next
       <-> AuthUser.accountType u = AccountType.business)
      /\ (requireIndividual (Some u) = Next
          <-> AuthUser.accountType u = AccountType.individual)
      /\ (requireBusiness (Some u) = Next <-> requireIndividual (Some u) <> Next)).
Proof.
  unfold requireBusiness, requireIndividual. split.
  - intros ->. destruct (AuthUser.accountType u); split; reflexivity.
  - intros Hr. rewrite (Role_eqb_neq _ _ Hr).
    destruct (AuthUser.accountType u); simpl; repeat split;
      try congruence; try discriminate; intros H; try reflexivity;
      exfalso; apply H; reflexivity.
Qed.

Lemma account_gates_witness :
  requireBusiness (Some (AuthUser.mk 2%nat Role.customer AccountType.individual))
    = BusinessAccountRequired
  /\ requireIndividual (Some (AuthUser.mk 2%nat Role.customer AccountType.individual))
     = Next.
Proof.
  destruct (proj2 (account_gates (AuthUser.mk 2%nat Role.customer AccountType.individual))
              ltac:(discriminate)) as [_ [H _]].
  split; [reflexivity | apply H; reflexivity].
Defined.

(** ** Sanitization *)

Lemma string_app_assoc (a b c : string) : ((a ++ b) ++ c = a ++ (b ++ c))%string.
Proof. induction a as [|x a IH]; simpl; [reflexivity | now rewrite IH]. Qed.

Lemma string_app_nil_r (a : string) : (a ++ "" = a)%string.
Proof. induction a as [|x a IH]; simpl; [reflexivity | now rewrite IH]. Qed.

Lemma string_app_length (a b : string) :
  String.length (a ++ b) = (String.length a + String.length b)%nat.
Proof. induction a as [|x a IH]; simpl; [reflexivity | now rewrite IH]. Qed.

Lemma replaceAll_app c r (s1 s2 : string) :
  replaceAll c r (s1 ++ s2) = (replaceAll c r s1 ++ replaceAll c r s2)%string.
Proof.
  induction s1 as [|x s1 IH]; simpl; [reflexivity|].
  destruct (Ascii.eqb x c); rewrite IH; [now rewrite string_app_assoc | reflexivity].
Qed.

(** The five replacements act character by character. *)
Lemma sanitizeHtml_cons (x : ascii) (s : string) :
  sanitizeHtml (String x s) = (sanitizeHtml (String x "") ++ sanitizeHtml s)%string.
Proof.
  change (String x s) with (String x "" ++ s)%string.
  unfold sanitizeHtml. now rewrite !replaceAll_app.
Qed.

Lemma allChars_app p (a b : string) :
  allChars p (a ++ b) = allChars p a && allChars p b.
Proof.
  induction a as [|x a IH]; simpl; [reflexivity|]. now rewrite IH, andb_assoc.
Qed.

Lemma escaped_char_safe (x : ascii) :
  allChars (fun c => negb (special c)) (sanitizeHtml (String x "")) = true.
Proof.
  destruct x as [b0 b1 b2 b3 b4 b5 b6 b7].
  destruct b0, b1, b2, b3, b4, b5, b6, b7; reflexivity.
Qed.

Lemma safe_char_kept (x : ascii) :
  special x = false -> sanitizeHtml (String x "") = String x "".
Proof.
  destruct x as [b0 b1 b2 b3 b4 b5 b6 b7].
  destruct b0, b1, b2, b3, b4, b5, b6, b7; intros H;
    first [reflexivity | discriminate H].
Qed.

Lemma escaped_char_length (x : ascii) :
  (1 <= String.length (sanitizeHtml (String x "")))%nat.
Proof.
  destruct x as [b0 b1 b2 b3 b4 b5 b6 b7].
  destruct b0, b1, b2, b3, b4, b5, b6, b7; apply Nat.leb_le; reflexivity.
Qed.

(** X25.  [sanitizeHtml] leaves none of the characters <, >, double quote,
    single quote and / in its result, returns a text without them as it is,
    never shortens a text, and is idempotent: the ampersand that the
    replacements bring in is not itself replaced, so a second pass changes
    nothing. *)
Theorem sanitizeHtml_safe (text : string) :
  allChars (fun c => negb (special c)) (sanitizeHtml text) = true
  /\ (allChars (fun c => negb (special c)) text = true -> sanitizeHtml text = text)
  /\ sanitizeHtml (sanitizeHtml text) = sanitizeHtml text
  /\ (String.length text <= String.length (sanitizeHtml text))%nat.
Proof.
  assert (Hsafe : forall s, allChars (fun c => negb (special c)) (sanitizeHtml s) = true).
  { induction s as [|x s IH]; [reflexivity|].
    rewrite sanitizeHtml_cons, allChars_app, escaped_char_safe, IH. reflexivity. }
  assert (Hid : forall s, allChars (fun c => negb (special c)) s = true ->
                          sanitizeHtml s = s).
  { induction s as [|x s IH]; [reflexivity|]. simpl.
    rewrite andb_true_iff, negb_true_iff. intros [Hx Hs].
    rewrite sanitizeHtml_cons, (safe_char_kept x Hx), (IH Hs). reflexivity. }
  split; [apply Hsafe|]. split; [apply Hid|]. split; [apply Hid, Hsafe|].
  induction text as [|x s IH]; [apply Nat.le_refl|].
  rewrite sanitizeHtml_cons, string_app_length.
  pose proof (escaped_char_length x). simpl. lia.
Qed.

Lemma sanitizeHtml_safe_witness :
  sanitizeHtml "rate 10/h" = "rate 10&#x2F;h"
  /\ sanitizeHtml "rate 10&#x2F;h" = "rate 10&#x2F;h".
Proof.
  split; [reflexivity|].
  apply (proj1 (proj2 (sanitizeHtml_safe "rate 10&#x2F;h"))). reflexivity.
Defined.

(** ** Stock movements *)

Lemma stockMovement_valid now userId body item :
  stockMovementSchema body = true ->
  validateItem item = true ->
  let action := Movement.action body in
  let q := Movement.quantity body in
  stockMovement now userId body (Some item)
  = if (StockAction.eqb action StockAction.removed
        || StockAction.eqb action StockAction.assigned)
       && (Item.quantity item <? q)
    then InsufficientStock
    else Recorded
           (Item.mk (movedQuantity action (Item.quantity item) q)
              (Item.minStockLevel item) (Item.maxStockLevel item)
              (Item.unitPrice item)
              (statusOfQuantity (movedQuantity action (Item.quantity item) q)
                 (Item.minStockLevel item))
              (if StockAction.eqb action StockAction.added then Some now
               else Item.lastRestocked item)
              (match action with
               | StockAction.assigned => Movement.assignedTo body
               | StockAction.returned => None
               | _ => Item.assignedTo item
               end)
              (Item.usageHistory item
               ++ [Usage.mk now action q userId
                     (option_map trim (Movement.notes body))])%list).
Proof.
  intros Hs Hv action q. unfold stockMovement. rewrite Hs. cbn [negb].
  fold action q.
  unfold stockMovementSchema in Hs. rewrite !andb_true_iff in Hs.
  destruct Hs as [[Hq _] Ha]. apply Z.leb_le in Hq. fold q in Hq. fold action in Ha.
  unfold validateItem in Hv. rewrite !andb_true_iff, !Z.leb_le in Hv.
  destruct Hv as [[[H1 H2] H3] H4].
  assert (Hval : forall q2 st r at_ h,
             0 <= q2 ->
             validateItem (Item.mk q2 (Item.minStockLevel item) (Item.maxStockLevel item)
                             (Item.unitPrice item) st r at_ h) = true).
  { intros. unfold validateItem. cbn.
    rewrite !andb_true_iff, !Z.leb_le. auto. }
  destruct action eqn:Eact; cbn [StockAction.eqb orb andb movedQuantity].
  - rewrite Hval by lia. reflexivity.
  - destruct (Item.quantity item <? q) eqn:El; [reflexivity|].
    apply Z.ltb_ge in El. rewrite Hval by lia. reflexivity.
  - rewrite Hval by lia. reflexivity.
  - destruct (Item.quantity item <? q) eqn:El; [reflexivity|].
    apply Z.ltb_ge in El. cbn [StockAction.eqb] in Ha. rewrite Ha.
    rewrite Hval by lia. reflexivity.
  - rewrite Hval by lia. reflexivity.
Qed.

(** X26.  For an item that passes the [min: 0] validators and a body that
    passes the movement schema, a movement is refused with "Insufficient
    stock" exactly when it removes or assigns more than is in stock.  A
    movement that is recorded leaves a quantity that is not below zero and
    passes the validators: not below the stock after added and returned, not
    above it after removed and assigned, of which the stock held at least the
    quantity moved, and the stock itself after transferred.  It appends one
    entry to the usage history and leaves the levels and the price as they
    were.  Where the stock and the quantity moved add up to at most
    [Number.MAX_SAFE_INTEGER], the quantity left is their sum or their
    difference. *)
Theorem stock_never_negative now userId body item :
  stockMovementSchema body = true ->
  validateItem item = true ->
  let action := Movement.action body in
  let q := Movement.quantity body in
  (stockMovement now userId body (Some item) = InsufficientStock
   <-> (action = StockAction.removed \/ action = StockAction.assigned)
       /\ Item.quantity item < q)
  /\ (forall item',
        stockMovement now userId body (Some item) = Recorded item' ->
        0 <= Item.quantity item'
        /\ validateItem item' = true
        /\ (action = StockAction.added \/ action = StockAction.returned ->
            Item.quantity item <= Item.quantity item')
        /\ (action = StockAction.removed \/ action = StockAction.assigned ->
            q <= Item.quantity item /\ Item.quantity item' <= Item.quantity item)
        /\ (action = StockAction.transferred ->
            Item.quantity item' = Item.quantity item)
        /\ (Item.quantity item + q <= Number_MAX_SAFE_INTEGER ->
            Item.quantity item' = movedQuantity action (Item.quantity item) q)
        /\ Item.usageHistory item'
           = (Item.usageHistory item
              ++ [Usage.mk now action q userId
                    (option_map trim (Movement.notes body))])%list
        /\ Item.minStockLevel item' = Item.minStockLevel item
        /\ Item.maxStockLevel item' = Item.maxStockLevel item
        /\ Item.unitPrice item' = Item.unitPrice item).
Proof.
  intros Hs Hv action q.
  rewrite (stockMovement_valid now userId body item Hs Hv). fold action q.
  unfold stockMovementSchema in Hs. rewrite !andb_true_iff in Hs.
  destruct Hs as [[Hq _] _]. apply Z.leb_le in Hq. fold q in Hq.
  pose proof Hv as Hv'. unfold validateItem in Hv'.
  rewrite !andb_true_iff, !Z.leb_le in Hv'. destruct Hv' as [[[H1 H2] H3] H4].
  assert (Hrec : forall item',
             Recorded
               (Item.mk (movedQuantity action (Item.quantity item) q)
                  (Item.minStockLevel item) (Item.maxStockLevel item)
                  (Item.unitPrice item)
                  (statusOfQuantity (movedQuantity action (Item.quantity item) q)
                     (Item.minStockLevel item))
                  (if StockAction.eqb action StockAction.added then Some now
                   else Item.lastRestocked item)
                  (match action with
                   | StockAction.assigned => Movement.assignedTo body
                   | StockAction.returned => None
                   | _ => Item.assignedTo item
                   end)
                  (Item.usageHistory item
                   ++ [Usage.mk now action q userId
                         (option_map trim (Movement.notes body))])%list)
             = Recorded item' ->
             (action = StockAction.removed \/ action = StockAction.assigned ->
              q <= Item.quantity item) ->
             0 <= Item.quantity item'
             /\ validateItem item' = true
             /\ (action = StockAction.added \/ action = StockAction.returned ->
                 Item.quantity item <= Item.quantity item')
             /\ (action = StockAction.removed \/ action = StockAction.assigned ->
                 q <= Item.quantity item /\ Item.quantity item' <= Item.quantity item)
             /\ (action = StockAction.transferred ->
                 Item.quantity item' = Item.quantity item)
             /\ (Item.quantity item + q <= Number_MAX_SAFE_INTEGER ->
                 Item.quantity item' = movedQuantity action (Item.quantity item) q)
             /\ Item.usageHistory item'
                = (Item.usageHistory item
                   ++ [Usage.mk now action q userId
                         (option_map trim (Movement.notes body))])%list
             /\ Item.minStockLevel item' = Item.minStockLevel item
             /\ Item.maxStockLevel item' = Item.maxStockLevel item
             /\ Item.unitPrice item' = Item.unitPrice item).
  { intros item' E Hle. injection E as <-.
    unfold validateItem.
    cbn [Item.quantity Item.minStockLevel Item.maxStockLevel Item.unitPrice
         Item.usageHistory].
    rewrite !andb_true_iff, !Z.leb_le.
    destruct action; cbn [movedQuantity];
      try (assert (Hle' : q <= Item.quantity item) by (apply Hle; auto));
      repeat match goal with |- _ /\ _ => split end;
      try reflexivity; try assumption; try lia;
      try (intros [E|E]; discriminate E); try (intros E; discriminate E);
      try (intros _; split; lia). }
  destruct (Item.quantity item <? q) eqn:El;
    [apply Z.ltb_lt in El | apply Z.ltb_ge in El].
  - destruct action eqn:Ea; cbn [StockAction.eqb orb andb].
    + split; [split; [discriminate | intros [[H|H] _]; discriminate]|].
      intros item' E. apply Hrec; [exact E | intros [H|H]; discriminate].
    + split; [split; auto|]. intros item' E. discriminate E.
    + split; [split; [discriminate | intros [[H|H] _]; discriminate]|].
      intros item' E. apply Hrec; [exact E | intros [H|H]; discriminate].
    + split; [split; auto|]. intros item' E. discriminate E.
    + split; [split; [discriminate | intros [[H|H] _]; discriminate]|].
      intros item' E. apply Hrec; [exact E | intros [H|H]; discriminate].
  - rewrite andb_false_r. split; [split; [discriminate | lia]|].
    intros item' E. apply Hrec; [exact E | intros _; exact El].
Qed.

(** Of twelve pieces, thirteen are not removed and twelve are, which leaves
    none. *)
Lemma stock_never_negative_witness :
  stockMovement jan1 3%nat (movementBody StockAction.removed 13 None) (Some sampleItem)
    = InsufficientStock
  /\ exists item',
       stockMovement jan1 3%nat (movementBody StockAction.removed 12 None)
         (Some sampleItem) = Recorded item'
       /\ Item.quantity item' = 0
       /\ validateItem item' = true.
Proof.
  split.
  - apply (proj1 (stock_never_negative jan1 3%nat
                    (movementBody StockAction.removed 13 None) sampleItem
                    eq_refl eq_refl)).
    split; [now left | reflexivity].
  - eexists. split; [reflexivity|].
    destruct (proj2 (stock_never_negative jan1 3%nat
                       (movementBody StockAction.removed 12 None) sampleItem
                       eq_refl eq_refl) _ eq_refl)
      as [_ [H2 [_ [_ [_ [H6 _]]]]]].
    split; [|exact H2]. apply H6. vm_compute. discriminate.
Defined.

(** X27.  Every recorded movement sets the status from the quantity alone:
    out-of-stock at 0, low-stock up to the minimum level, active above it.
    So an item marked discontinued is no longer so after any movement, a
    transfer included; the status agrees with the virtual [stockStatus]; and
    the low-stock alert lists the item exactly when its status is not
    active. *)
Theorem movement_resets_status now userId body item item' :
  stockMovementSchema body = true ->
  validateItem item = true ->
  stockMovement now userId body (Some item) = Recorded item' ->
  Item.status item' = statusOfQuantity (Item.quantity item') (Item.minStockLevel item')
  /\ Item.status item' <> StockStatus.discontinued
  /\ (Item.status item' = StockStatus.out_of_stock <-> Item.quantity item' = 0)
  /\ (Item.status item' = StockStatus.active
      <-> stockStatus item' = "in-stock"%string)
  /\ (lowStockQuery item' = true <-> Item.status item' <> StockStatus.active).
Proof.
  intros Hs Hv H. rewrite (stockMovement_valid now userId body item Hs Hv) in H.
  pose proof Hv as Hv'. unfold validateItem in Hv'.
  rewrite !andb_true_iff, !Z.leb_le in Hv'. destruct Hv' as [[[H1 H2] H3] H4].
  destruct ((_ || _) && _); [discriminate|]. injection H as <-.
  cbn [Item.status Item.quantity Item.minStockLevel].
  set (q' := movedQuantity (Movement.action body) (Item.quantity item)
               (Movement.quantity body)).
  unfold lowStockQuery, stockStatus, statusOfQuantity.
  cbn [Item.status Item.quantity Item.minStockLevel].
  destruct (q' =? 0) eqn:E0; [apply Z.eqb_eq in E0 | apply Z.eqb_neq in E0].
  - replace (q' <=? Item.minStockLevel item) with true
      by (symmetry; apply Z.leb_le; lia).
    repeat split; try discriminate; try congruence; auto.
  - destruct (q' <=? Item.minStockLevel item) eqn:El.
    + repeat split; try discriminate; try congruence; auto.
    + repeat split; try discriminate; try congruence; auto.
Qed.

(** A transfer of one piece of the discontinued [sampleItem]. *)
Lemma movement_resets_status_witness :
  exists item',
    stockMovement jan1 3%nat (movementBody StockAction.transferred 1 None)
      (Some sampleItem) = Recorded item'
    /\ Item.quantity item' = Item.quantity sampleItem
    /\ Item.status item' = StockStatus.active.
Proof.
  eexists. split; [reflexivity|]. split; [reflexivity|].
  exact (proj1 (movement_resets_status jan1 3%nat
                  (movementBody StockAction.transferred 1 None) sampleItem _
                  eq_refl eq_refl eq_refl)).
Defined.

(** X28.  Movements of whole pieces undo each other in the quantity, where
    the stock and the quantity moved add up to at most
    [Number.MAX_SAFE_INTEGER].  After an addition that is recorded, removing
    the same quantity is not refused for want of stock, and once recorded it
    leaves the quantity there was and the status that this quantity gives,
    with two more entries in the usage history.  An assignment that is
    recorded took no more than was in stock and names the assignee; taking
    the same quantity back, once recorded, leaves the quantity there was and
    the status that it gives, and the item assigned to no one. *)
Theorem movements_round_trip now1 now2 user1 user2 (q : Z) (who : ObjectId) item :
  validateItem item = true -> 1 <= q ->
  Item.quantity item + q <= Number_MAX_SAFE_INTEGER ->
  (forall i1,
      stockMovement now1 user1 (movementBody StockAction.added q None) (Some item)
        = Recorded i1 ->
      stockMovement now2 user2 (movementBody StockAction.removed q None) (Some i1)
        <> InsufficientStock
      /\ forall i2,
           stockMovement now2 user2 (movementBody StockAction.removed q None) (Some i1)
             = Recorded i2 ->
           Item.quantity i2 = Item.quantity item
           /\ Item.status i2
              = statusOfQuantity (Item.quantity item) (Item.minStockLevel item)
           /\ List.length (Item.usageHistory i2)
              = (List.length (Item.usageHistory item) + 2)%nat)
  /\ (forall i1,
        stockMovement now1 user1 (movementBody StockAction.assigned q (Some who))
          (Some item) = Recorded i1 ->
        q <= Item.quantity item
        /\ Item.assignedTo i1 = Some who
        /\ forall i2,
             stockMovement now2 user2 (movementBody StockAction.returned q None)
               (Some i1) = Recorded i2 ->
             Item.quantity i2 = Item.quantity item
             /\ Item.assignedTo i2 = None
             /\ Item.status i2
                = statusOfQuantity (Item.quantity item) (Item.minStockLevel item)).
Proof.
  intros Hv Hq Hsafe.
  pose proof Hv as Hv'. unfold validateItem in Hv'.
  rewrite !andb_true_iff, !Z.leb_le in Hv'. destruct Hv' as [[[H1 H2] H3] H4].
  assert (Hschema : forall a o, (a = StockAction.assigned -> isSome o = true) ->
                      stockMovementSchema (movementBody a q o) = true).
  { intros a o Ha. unfold stockMovementSchema, movementBody. cbn.
    replace (1 <=? q) with true by (symmetry; now apply Z.leb_le).
    destruct a; cbn; auto. }
  assert (Hval : forall q2 st r at_ h,
             0 <= q2 ->
             validateItem (Item.mk q2 (Item.minStockLevel item) (Item.maxStockLevel item)
                             (Item.unitPrice item) st r at_ h) = true).
  { intros. unfold validateItem. cbn. rewrite !andb_true_iff, !Z.leb_le. auto. }
  split.
  - intros i1.
    rewrite (stockMovement_valid _ _ _ _ (Hschema StockAction.added None
                                            ltac:(discriminate)) Hv).
    cbn [Movement.action movementBody StockAction.eqb orb andb Movement.quantity
         movedQuantity Movement.notes Movement.assignedTo option_map].
    intros E. injection E as <-.
    rewrite (stockMovement_valid _ _ _ _ (Hschema StockAction.removed None
                                            ltac:(discriminate)));
      [|apply Hval; lia].
    cbn [Movement.action movementBody StockAction.eqb orb andb Movement.quantity
         movedQuantity Movement.notes Movement.assignedTo Item.quantity
         Item.minStockLevel Item.maxStockLevel Item.unitPrice Item.usageHistory
         Item.lastRestocked Item.assignedTo option_map].
    replace (Item.quantity item + q <? q) with false
      by (symmetry; apply Z.ltb_ge; lia).
    split; [discriminate|].
    intros i2 E. injection E as <-.
    cbn [Item.quantity Item.status Item.usageHistory].
    replace (Item.quantity item + q - q) with (Item.quantity item) by lia.
    split; [reflexivity|]. split; [reflexivity|].
    rewrite !length_app. simpl. lia.
  - intros i1.
    rewrite (stockMovement_valid _ _ _ _ (Hschema StockAction.assigned (Some who)
                                            ltac:(reflexivity)) Hv).
    cbn [Movement.action movementBody StockAction.eqb orb andb Movement.quantity
         movedQuantity Movement.notes Movement.assignedTo option_map].
    destruct (Item.quantity item <? q) eqn:El; [discriminate|].
    apply Z.ltb_ge in El.
    intros E. injection E as <-.
    split; [exact El|]. split; [reflexivity|].
    intros i2.
    rewrite (stockMovement_valid _ _ _ _ (Hschema StockAction.returned None
                                            ltac:(discriminate)));
      [|apply Hval; lia].
    cbn [Movement.action movementBody StockAction.eqb orb andb Movement.quantity
         movedQuantity Movement.notes Movement.assignedTo Item.quantity
         Item.minStockLevel Item.maxStockLevel Item.unitPrice Item.usageHistory
         Item.lastRestocked Item.assignedTo option_map].
    intros E. injection E as <-.
    cbn [Item.quantity Item.status Item.assignedTo].
    replace (Item.quantity item - q + q) with (Item.quantity item) by lia.
    repeat split; reflexivity.
Qed.

(** Four pieces added to [sampleItem] and removed again. *)
Lemma movements_round_trip_witness :
  exists i1 i2,
    stockMovement jan1 3%nat (movementBody StockAction.added 4 None) (Some sampleItem)
      = Recorded i1
    /\ stockMovement jan2 3%nat (movementBody StockAction.removed 4 None) (Some i1)
       = Recorded i2
    /\ Item.quantity i2 = 12.
Proof.
  eexists. eexists. split; [reflexivity|]. split; [reflexivity|].
  refine (proj1 (proj2 (proj1 (movements_round_trip jan1 jan2 3%nat 3%nat 4 7%nat
                                 sampleItem eq_refl _ _)
                          _ eq_refl)
                   _ eq_refl)).
  - lia.
  - vm_compute. discriminate.
Defined.

(** ** Instances *)

Lemma listing_isolated_witness :
  In (sampleAppointment 10%nat 2%nat 3%nat (at_ jan2 9 0) (at_ jan2 10 0) Status.scheduled)
     (appointments twoTouching)
  /\ Appointment.client
       (sampleAppointment 10%nat 2%nat 3%nat (at_ jan2 9 0) (at_ jan2 10 0)
          Status.scheduled) = ReqUser.userId theClient.
Proof.
  destruct (proj1 (listing_isolated theClient plainQuery twoTouching)
              (sampleAppointment 10%nat 2%nat 3%nat (at_ jan2 9 0) (at_ jan2 10 0)
                 Status.scheduled)
              (or_intror (or_introl eq_refl))) as [H1 [_ [H2 _]]].
  split; [exact H1 | exact (H2 eq_refl)].
Defined.

Lemma listing_pages_cover_witness :
  ls_appointments (listAppointments theClient (withPage plainQuery 2) twoTouching) = [].
Proof.
  apply (proj2 (proj2 (listing_pages_cover theClient plainQuery twoTouching))).
  reflexivity.
Defined.

Lemma authorize_admits_witness :
  authorize [Role.admin] (mkAuthOptions false true)
    (Some (AuthUser.mk 2%nat Role.customer AccountType.business)) None = Next
  /\ requireAdmin (Some (AuthUser.mk 2%nat Role.customer AccountType.business)) None
     = InsufficientPermissions.
Proof.
  split.
  - apply (proj1 (authorize_admits [Role.admin] (mkAuthOptions false true)
                    (AuthUser.mk 2%nat Role.customer AccountType.business) None)).
    right. right. right. split; reflexivity.
  - apply (proj1 (proj2 (authorize_admits [Role.admin] noOptions
                           (AuthUser.mk 2%nat Role.customer AccountType.business) None))).
    discriminate.
Defined.

Lemma ownership_gate_witness :
  requireOwnership (Some (AuthUser.mk 2%nat Role.customer AccountType.individual))
    None (Some 2%nat) = Next
  /\ requireOwnership (Some (AuthUser.mk 2%nat Role.customer AccountType.individual))
       (Some 5%nat) (Some 2%nat) = ResourceAccessDenied.
Proof.
  split.
  - apply (proj1 (ownership_gate (AuthUser.mk 2%nat Role.customer AccountType.individual)
                    None (Some 2%nat))).
    right. right. split; reflexivity.
  - apply (proj1 (proj2 (ownership_gate
                           (AuthUser.mk 2%nat Role.customer AccountType.individual)
                           (Some 5%nat) (Some 2%nat)))).
    discriminate.
Defined.
